(** * Stable-fluids solver: shallow embedding and verified properties

    The three solver variants of the repository
    ([fluid_simulator_base.py], [fluid_simulator_pro.py],
    [fluid_simulator_thinking.py]) are embedded as Rocq functions on
    grids of rationals.  Array cells are exact rationals ([Q]); equality
    of cell values is [Qeq] where arithmetic is involved and Leibniz
    equality where a value is merely copied or negated.  IEEE special
    values (NaN, infinities, signed zero) and rounding are outside the
    model: the properties stated are those on which exact and
    floating-point arithmetic agree (cells that are copied, negated or
    blended with the weights 0 and 1, all-zero arrays, shapes, index
    ranges, footprints, raised exceptions), and conditions on
    parameters are sign conditions, which rounding preserves.  A scalar
    division by zero raises [ZeroDivisionError] and has result [None];
    an array division by zero leaves [nan] or [inf], for which the model
    has no value, and has result [None] as well. *)

From Stdlib Require Import QArith Qround Qabs Qminmax ZArith List Bool Arith.
From Stdlib Require Import FinFun Lia Lqa.
Import ListNotations.

Open Scope Q_scope.

(** ** NumPy-style square arrays *)

Module Grid.

(** A field is a row-major two-dimensional array. *)
Definition Field := list (list Q).

Definition rows (x : Field) : nat := length x.

(** [x[i, j]] for indices inside the array (0 is the filler outside). *)
Definition get (x : Field) (i j : nat) : Q := nth j (nth i x []) 0.

(** The [n] by [n] array whose cell [(i, j)] holds [f i j]. *)
Definition mk (n : nat) (f : nat -> nat -> Q) : Field :=
  map (fun i => map (fun j => f i j) (seq 0 n)) (seq 0 n).

(** [np.zeros((n, n))] *)
Definition zeros (n : nat) : Field := mk n (fun _ _ => 0).

(** [x.shape == (n, n)] *)
Definition has_shape (n : nat) (x : Field) : bool :=
  (length x =? n)%nat && forallb (fun r => (length r =? n)%nat) x.

(** Masked assignment [x[P] = rhs]: the right-hand side is evaluated on
    the array as it is before the assignment, as NumPy does. *)
Definition assign (x : Field) (P : nat -> nat -> bool)
    (rhs : nat -> nat -> Q) : Field :=
  mk (rows x) (fun i j => if P i j then rhs i j else get x i j).

(** Membership in the Python slice [lo:hi]. *)
Definition in_slice (lo hi k : nat) : bool := (lo <=? k)%nat && (k <? hi)%nat.

(** [x[i, j] = v] *)
Definition set_cell (x : Field) (i j : nat) (v : Q) : Field :=
  assign x (fun a b => (a =? i)%nat && (b =? j)%nat) (fun _ _ => v).

(** [x[i, lo:hi] = rhs] *)
Definition set_row (x : Field) (i lo hi : nat) (rhs : nat -> Q) : Field :=
  assign x (fun a b => (a =? i)%nat && in_slice lo hi b) (fun _ b => rhs b).

(** [x[lo:hi, j] = rhs] *)
Definition set_col (x : Field) (j lo hi : nat) (rhs : nat -> Q) : Field :=
  assign x (fun a b => in_slice lo hi a && (b =? j)%nat) (fun a _ => rhs a).

(** [x[lo:hi, lo:hi] = rhs] *)
Definition set_block (x : Field) (lo hi : nat) (rhs : nat -> nat -> Q) : Field :=
  assign x (fun a b => in_slice lo hi a && in_slice lo hi b) rhs.

(** [x[rlo:rhi, clo:chi] = rhs] *)
Definition set_rect (x : Field) (rlo rhi clo chi : nat)
    (rhs : nat -> nat -> Q) : Field :=
  assign x (fun a b => in_slice rlo rhi a && in_slice clo chi b) rhs.

(** Elementwise [f(x)] and [f(x, y)] on whole arrays. *)
Definition map1 (f : Q -> Q) (x : Field) : Field :=
  mk (rows x) (fun i j => f (get x i j)).

Definition map2 (f : Q -> Q -> Q) (x y : Field) : Field :=
  mk (rows x) (fun i j => f (get x i j) (get y i j)).

(** [x.fill(c)] *)
Definition fill (x : Field) (c : Q) : Field :=
  assign x (fun _ _ => true) (fun _ _ => c).

(** [x[:, :] = y] *)
Definition copy_into (x y : Field) : Field :=
  assign x (fun _ _ => true) (fun i j => get y i j).

(** Every cell is (numerically) zero. *)
Definition is_zero (x : Field) : Prop := forall i j, get x i j == 0.

(** [-q if b == k else q] *)
Definition flip_if (b k : Z) (q : Q) : Q := if (b =? k)%Z then - q else q.

(** Iterating a function, as [for _ in range(n)]. *)
Fixpoint repeat_n {A : Type} (n : nat) (f : A -> A) (a : A) : A :=
  match n with
  | O => a
  | S k => repeat_n k f (f a)
  end.

(** Iterating a function that may have no result. *)
Fixpoint repeat_opt {A : Type} (n : nat) (f : A -> option A) (a : A)
    : option A :=
  match n with
  | O => Some a
  | S k => match f a with
           | Some a' => repeat_opt k f a'
           | None => None
           end
  end.

End Grid.
Import Grid.

(** ** Scalars and index conversions shared by the three variants *)

Module Num.

(** A Python [int] used in float arithmetic. *)
Definition Qn (n : nat) : Q := inject_Z (Z.of_nat n).

(** [np.clip(q, lo, hi)], that is [minimum(maximum(q, lo), hi)]. *)
Definition clip (q lo hi : Q) : Q := Qmin (Qmax q lo) hi.

(** [astype(np.int32)] of a float: truncation toward zero. *)
Definition Qtrunc (q : Q) : Z := Z.quot (Qnum q) (Zpos (Qden q)).

(** Resolution of one integer subscript on an axis of length [len]:
    a negative subscript counts from the end, and a subscript outside
    [-len, len) raises [IndexError] (here [None]). *)
Definition py_index (len : nat) (k : Z) : option nat :=
  if (0 <=? k)%Z then
    if (k <? Z.of_nat len)%Z then Some (Z.to_nat k) else None
  else
    if (- Z.of_nat len <=? k)%Z then Some (Z.to_nat (k + Z.of_nat len)) else None.

(** [x[i, j]] with integer-array subscripts (the gather of [advect]). *)
Definition getZ (x : Field) (i j : Z) : Q :=
  match py_index (rows x) i, py_index (rows x) j with
  | Some a, Some b => get x a b
  | _, _ => 0
  end.

(** The result of the backtrace of one cell: the four sample
    subscripts and the four bilinear weights. *)
Record Sample : Type := mkSample {
  i0 : Z; i1 : Z; j0 : Z; j1 : Z;
  s0 : Q; s1 : Q; t0 : Q; t1 : Q
}.

(** The bilinear blend of [d0] at a sample. *)
Definition bilinear (d0 : Field) (k : Sample) : Q :=
  s0 k * (t0 k * getZ d0 (i0 k) (j0 k) + t1 k * getZ d0 (i0 k) (j1 k)) +
  s1 k * (t0 k * getZ d0 (i1 k) (j0 k) + t1 k * getZ d0 (i1 k) (j1 k)).

End Num.
Import Num.

(** ** [fluid_simulator_base.py] *)

Module Base.

Section Globals.

(** The module-level simulation parameters ([N = 128], [DT = 0.1],
    [ITER = 20] in the source). *)
Variable N : nat.
Variable DT : Q.
Variable ITER : nat.

(** [x += DT * s] *)
Definition add_source (x s : Field) : Field :=
  assign x (fun _ _ => true) (fun i j => get x i j + DT * get s i j).

(** The subscripts [-1] and [-2] are [rows x - 1] and [rows x - 2];
    the slice [1:-1] is [1 : rows x - 1]. *)
Definition set_bnd (b : Z) (x : Field) : Field :=
  let r := rows x in
  let x := set_row x 0 1 (r - 1) (fun j => flip_if b 1 (get x 1 j)) in
  let x := set_row x (r - 1) 1 (r - 1) (fun j => flip_if b 1 (get x (r - 2) j)) in
  let x := set_col x 0 1 (r - 1) (fun i => flip_if b 2 (get x i 1)) in
  let x := set_col x (r - 1) 1 (r - 1) (fun i => flip_if b 2 (get x i (r - 2))) in
  let x := set_cell x 0 0 (0.5 * (get x 1 0 + get x 0 1)) in
  let x := set_cell x 0 (r - 1) (0.5 * (get x 1 (r - 1) + get x 0 (r - 2))) in
  let x := set_cell x (r - 1) 0 (0.5 * (get x (r - 2) 0 + get x (r - 1) 1)) in
  set_cell x (r - 1) (r - 1)
    (0.5 * (get x (r - 2) (r - 1) + get x (r - 1) (r - 2))).

(** One sweep of the loop body of [diffuse]: every right-hand side
    cell is read from the array as it is before the sweep.  When
    [1 + 4 * a] is zero the array division leaves [nan] or [inf] in
    every interior cell, values that no array of rationals holds: the
    sweep then has no result, unless the interior is empty. *)
Definition diffuse_sweep (b : Z) (a : Q) (x0 x : Field) : option Field :=
  let r := rows x in
  if Qeq_bool (1 + 4 * a) 0 && (2 <? r)%nat then None else
  Some (set_bnd b
    (set_block x 1 (r - 1) (fun i j =>
       (get x0 i j + a * (get x (i + 1) j + get x (i - 1) j +
                          get x i (j + 1) + get x i (j - 1))) / (1 + 4 * a)))).

Definition diffuse (b : Z) (x x0 : Field) (diff : Q) : option Field :=
  let a := DT * diff * Qn N * Qn N in
  repeat_opt ITER (diffuse_sweep b a x0) x.

(** The backtrace of cell [(i, j)]: [I], [J] are the cell's own
    subscripts, [u[1:-1, 1:-1]] at that position is [u[i, j]]. *)
Definition backtrace (u v : Field) (i j : nat) : Sample :=
  let dt0 := DT * Qn N in
  let x := Qn i - dt0 * get u i j in
  let y := Qn j - dt0 * get v i j in
  let x := clip x 0.5 (Qn N + 0.5) in
  let y := clip y 0.5 (Qn N + 0.5) in
  let i0 := Qfloor x in
  let i1 := (i0 + 1)%Z in
  let j0 := Qfloor y in
  let j1 := (j0 + 1)%Z in
  let s1 := x - inject_Z i0 in
  let s0 := 1 - s1 in
  let t1 := y - inject_Z j0 in
  let t0 := 1 - t1 in
  mkSample i0 i1 j0 j1 s0 s1 t0 t1.

Definition advect (b : Z) (d d0 u v : Field) : Field :=
  let r := rows d in
  set_bnd b
    (set_block d 1 (r - 1) (fun i j => bilinear d0 (backtrace u v i j))).

(** The remaining module-level parameters ([DIFF = 0.0001],
    [VISC = 0.0001] in the source). *)
Variable DIFF : Q.
Variable VISC : Q.

Definition pressure_sweep (div p : Field) : Field :=
  let r := rows p in
  set_bnd 0
    (set_block p 1 (r - 1) (fun i j =>
       (get div i j + get p (i + 1) j + get p (i - 1) j +
        get p i (j + 1) + get p i (j - 1)) / 4)).

(** Returns the four arrays [(u, v, p, div)] as the call leaves them. *)
Definition project (u v p div : Field) : Field * Field * Field * Field :=
  let div := set_block div 1 (rows div - 1) (fun i j =>
       - 0.5 * (get u (i + 1) j - get u (i - 1) j +
                get v i (j + 1) - get v i (j - 1)) / Qn N) in
  let p := fill p 0 in
  let div := set_bnd 0 div in
  let p := set_bnd 0 p in
  let p := repeat_n ITER (pressure_sweep div) p in
  let u := set_block u 1 (rows u - 1) (fun i j =>
       get u i j - 0.5 * (get p (i + 1) j - get p (i - 1) j) * Qn N) in
  let v := set_block v 1 (rows v - 1) (fun i j =>
       get v i j - 0.5 * (get p i (j + 1) - get p i (j - 1)) * Qn N) in
  (set_bnd 1 u, set_bnd 2 v, p, div).

(** Each local name holds the content of the array it is bound to;
    [u0, u = u, u0] exchanges the two names.  The result is the content
    of the caller's four arrays [(u, v, u_prev, v_prev)] after the
    call: the two exchanges per component cancel, so the names end on
    the arrays they started on.  There is no result when a diffusion
    has none. *)
Definition vel_step (u v u0 v0 : Field)
    : option (Field * Field * Field * Field) :=
  let u := add_source u u0 in
  let v := add_source v v0 in
  let '(u0, u) := (u, u0) in
  match diffuse 1 u u0 VISC with
  | None => None
  | Some u =>
  let '(v0, v) := (v, v0) in
  match diffuse 2 v v0 VISC with
  | None => None
  | Some v =>
  let '(u, v, u0, v0) := project u v u0 v0 in
  let '(u0, u) := (u, u0) in
  let '(v0, v) := (v, v0) in
  let u := advect 1 u u0 u0 v0 in
  let v := advect 2 v v0 u0 v0 in
  Some (project u v u0 v0)
  end
  end.

(** The content of the caller's [(dens, dens_prev)] after the call. *)
Definition dens_step (x x0 u v : Field) : option (Field * Field) :=
  let x := add_source x x0 in
  let '(x0, x) := (x, x0) in
  match diffuse 0 x x0 DIFF with
  | None => None
  | Some x =>
  let '(x0, x) := (x, x0) in
  let x := advect 0 x x0 u v in
  Some (x, x0)
  end.

(** The six module-level arrays
    [(u, v, u_prev, v_prev, dens, dens_prev)]. *)
Definition Arrays : Type := (Field * Field * Field * Field * Field * Field)%type.

(** One pass of the main loop with no mouse button pressed: the two
    steps, then the three source buffers are zeroed. *)
Definition frame (st : Arrays) : option Arrays :=
  let '(u, v, u_prev, v_prev, dens, dens_prev) := st in
  match vel_step u v u_prev v_prev with
  | None => None
  | Some (u, v, u_prev, v_prev) =>
  match dens_step dens dens_prev u v with
  | None => None
  | Some (dens, dens_prev) =>
  Some (u, v, fill u_prev 0, fill v_prev 0, dens, fill dens_prev 0)
  end
  end.

End Globals.

End Base.

(** ** Logged commands

    The orchestration methods ([vel_step], [dens_step], [step]) are
    sequences of operator calls on the solver object.  A command
    transforms the object, may raise (result [None]), and records which
    operator ran on which arrays. *)

Module Trace.

Inductive phase : Type :=
| Source      (* add_source *)
| Drain       (* fill(0.0) of a source buffer *)
| Buoyancy
| Vorticity
| Copy        (* dst[:, :] = src *)
| Swap        (* exchange of two buffer references *)
| Diffuse
| Project
| Advect.

Definition phase_eqb (a b : phase) : bool :=
  match a, b with
  | Source, Source | Drain, Drain | Buoyancy, Buoyancy
  | Vorticity, Vorticity | Copy, Copy | Swap, Swap
  | Diffuse, Diffuse | Project, Project | Advect, Advect => true
  | _, _ => false
  end.

(** The eight arrays of a solver object, by attribute: [u], [v],
    [u0], [v0], the density ([dens] or [d]), the density source
    ([dens0] or [d0]), [p] and [div]. *)
Inductive buf : Type := Bu | Bv | Bu0 | Bv0 | Bd | Bd0 | Bp | Bdiv.

(** The two diffusion coefficients of a solver object. *)
Inductive coefficient : Type := Cvisc | Cdiff.

(** A logged call: the operator, its boundary kind where it takes
    one, and the arrays it is given, in the order of the source's
    argument list. *)
Inductive call : Type :=
| AddSource (x s : buf)               (* add_source(x, s, dt) *)
| Fill (x : buf)                      (* x.fill(0.0) *)
| BuoyancyForce (v dens : buf)        (* buoyancy_force(v, dens, ...) *)
| Confinement (u v : buf)             (* vorticity_confinement(u, v, ...) *)
| CopyInto (dst src : buf)            (* dst[:, :] = src *)
| Exchange (x y : buf)                (* self.x, self.y = self.y, self.x *)
| DiffuseBy (b : Z) (x x0 : buf) (c : coefficient)  (* diffuse(b, x, x0, c, dt) *)
| ProjectOn (u v p div : buf)         (* project(u, v, p, div) *)
| AdvectBy (b : Z) (d d0 u v : buf).  (* advect(b, d, d0, u, v, dt) *)

(** The operator of a logged call. *)
Definition phase_of (c : call) : phase :=
  match c with
  | AddSource _ _ => Source
  | Fill _ => Drain
  | BuoyancyForce _ _ => Buoyancy
  | Confinement _ _ => Vorticity
  | CopyInto _ _ => Copy
  | Exchange _ _ => Swap
  | DiffuseBy _ _ _ _ => Diffuse
  | ProjectOn _ _ _ _ => Project
  | AdvectBy _ _ _ _ _ => Advect
  end.

Definition Cmd (S : Type) : Type := S -> option (S * list call).

Definition skip {S : Type} : Cmd S := fun s => Some (s, []).

(** An operator that always returns. *)
Definition act {S : Type} (ph : call) (f : S -> S) : Cmd S :=
  fun s => Some (f s, [ph]).

(** An operator that may raise. *)
Definition try_act {S : Type} (ph : call) (f : S -> option S) : Cmd S :=
  fun s => match f s with
           | Some s' => Some (s', [ph])
           | None => None
           end.

Definition seq {S : Type} (c1 c2 : Cmd S) : Cmd S :=
  fun s => match c1 s with
           | Some (s1, l1) =>
               match c2 s1 with
               | Some (s2, l2) => Some (s2, l1 ++ l2)
               | None => None
               end
           | None => None
           end.

(** The object after the command, and the operators it ran. *)
Definition exec {S : Type} (c : Cmd S) (s : S) : option S :=
  option_map fst (c s).

Definition trace {S : Type} (c : Cmd S) (s : S) : option (list call) :=
  option_map snd (c s).

(** Running a list of calls, each with the meaning [sem] gives it. *)
Fixpoint replay {S : Type} (sem : call -> S -> option S) (l : list call)
    (s : S) : option S :=
  match l with
  | [] => Some s
  | c :: r => match sem c s with
              | Some s' => replay sem r s'
              | None => None
              end
  end.

(** [n] successive calls. *)
Fixpoint times {S : Type} (n : nat) (c : Cmd S) : Cmd S :=
  match n with
  | O => skip
  | Datatypes.S k => seq c (times k c)
  end.

(** The position of the first occurrence of a phase in a trace. *)
Fixpoint first_index (ph : phase) (l : list phase) : option nat :=
  match l with
  | [] => None
  | x :: r => if phase_eqb ph x then Some O
              else option_map Datatypes.S (first_index ph r)
  end.

End Trace.
Import Trace.

Declare Scope cmd_scope.
Delimit Scope cmd_scope with cmd.
Notation "c1 ;; c2" := (Trace.seq c1 c2)
  (at level 61, right associativity) : cmd_scope.

(** ** [fluid_simulator_pro.py] *)

Module Pro.

(** [clamp(x, lo, hi)] on integers. *)
Definition clamp (x lo hi : Z) : Z :=
  if (x <? lo)%Z then lo else if (x >? hi)%Z then hi else x.

Record Params : Type := mkParams {
  N : nat;
  dt : Q;
  diff : Q;
  visc : Q;
  iters : nat;
  buoyancy : Q;
  vorticity : Q
}.

(** The solver object: its parameters and its eight arrays. *)
Record Fluid : Type := mkFluid {
  params : Params;
  u : Field; v : Field; u0 : Field; v0 : Field;
  dens : Field; dens0 : Field;
  p : Field; div : Field
}.

(** [Fluid.__init__] *)
Definition init (pr : Params) : Fluid :=
  let z := zeros (N pr + 2) in
  mkFluid pr z z z z z z z z.

(** [range(lo, hi)] *)
Definition zrange (lo hi : Z) : list Z :=
  map (fun k => (lo + Z.of_nat k)%Z) (List.seq 0 (Z.to_nat (hi - lo))).

Section Methods.

(** [np.sqrt] *)
Variable sqrt : Q -> Q.

Variable pr : Params.

(** Rows [N + 1] and [N] are addressed through the parameters, the
    slice [1:-1] through the array's shape. *)
Definition set_bnd (b : Z) (x : Field) : Field :=
  let n := N pr in
  let r := rows x in
  let x := set_row x 0 1 (r - 1) (fun j => flip_if b 1 (get x 1 j)) in
  let x := set_row x (n + 1) 1 (r - 1) (fun j => flip_if b 1 (get x n j)) in
  let x := set_col x 0 1 (r - 1) (fun i => flip_if b 2 (get x i 1)) in
  let x := set_col x (n + 1) 1 (r - 1) (fun i => flip_if b 2 (get x i n)) in
  let x := set_cell x 0 0 (0.5 * (get x 1 0 + get x 0 1)) in
  let x := set_cell x 0 (n + 1) (0.5 * (get x 1 (n + 1) + get x 0 n)) in
  let x := set_cell x (n + 1) 0 (0.5 * (get x n 0 + get x (n + 1) 1)) in
  set_cell x (n + 1) (n + 1)
    (0.5 * (get x n (n + 1) + get x (n + 1) n)).

Definition diffuse_sweep (b : Z) (a c : Q) (x0 x : Field) : Field :=
  let r := rows x in
  set_bnd b
    (set_block x 1 (r - 1) (fun i j =>
       c * (get x0 i j + a * (get x (i - 1) j + get x (i + 1) j +
                              get x i (j - 1) + get x i (j + 1))))).

(** [c = 1.0 / (1 + 4 * a)] raises [ZeroDivisionError] when
    [1 + 4 * a] is zero. *)
Definition diffuse (b : Z) (x x0 : Field) (diff dt : Q) : option Field :=
  let a := dt * diff * Qn (N pr) * Qn (N pr) in
  if Qeq_bool (1 + 4 * a) 0 then None else
  let c := 1 / (1 + 4 * a) in
  Some (repeat_n (iters pr) (diffuse_sweep b a c x0) x).

(** [self.I], [self.J] at cell [(i, j)] are [i] and [j]. *)
Definition backtrace (u v : Field) (dt : Q) (i j : nat) : Sample :=
  let x := Qn i - dt * Qn (N pr) * get u i j in
  let y := Qn j - dt * Qn (N pr) * get v i j in
  let x := clip x 0.5 (Qn (N pr) + 0.5) in
  let y := clip y 0.5 (Qn (N pr) + 0.5) in
  let i0 := Qtrunc x in
  let j0 := Qtrunc y in
  let i1 := (i0 + 1)%Z in
  let j1 := (j0 + 1)%Z in
  let s1 := x - inject_Z i0 in
  let s0 := 1 - s1 in
  let t1 := y - inject_Z j0 in
  let t0 := 1 - t1 in
  mkSample i0 i1 j0 j1 s0 s1 t0 t1.

Definition advect (b : Z) (d d0 u v : Field) (dt : Q) : Field :=
  let r := rows d in
  set_bnd b
    (set_block d 1 (r - 1) (fun i j => bilinear d0 (backtrace u v dt i j))).

Definition pressure_sweep (div p : Field) : Field :=
  let r := rows p in
  set_bnd 0
    (set_block p 1 (r - 1) (fun i j =>
       0.25 * (get div i j + get p (i - 1) j + get p (i + 1) j +
               get p i (j - 1) + get p i (j + 1)))).

(** Returns the four arrays [(u, v, p, div)] as the call leaves them. *)
Definition project (u v p div : Field) : Field * Field * Field * Field :=
  let n := Qn (N pr) in
  let div := set_block div 1 (rows div - 1) (fun i j =>
       - 0.5 * (get u (i + 1) j - get u (i - 1) j +
                get v i (j + 1) - get v i (j - 1)) / n) in
  let p := fill p 0 in
  let div := set_bnd 0 div in
  let p := set_bnd 0 p in
  let p := repeat_n (iters pr) (pressure_sweep div) p in
  let u := set_block u 1 (rows u - 1) (fun i j =>
       get u i j - 0.5 * n * (get p (i + 1) j - get p (i - 1) j)) in
  let v := set_block v 1 (rows v - 1) (fun i j =>
       get v i j - 0.5 * n * (get p i (j + 1) - get p i (j - 1))) in
  (set_bnd 1 u, set_bnd 2 v, p, div).

(** Returns [(u, v)]; [None] stands for the early [return] of the
    guard [eps <= 0.0], which leaves both arrays as they are. *)
Definition vorticity_confinement (u v : Field) (eps dt : Q)
    : option (Field * Field) :=
  if Qle_bool eps 0 then None else
  let curl := set_block (zeros (rows u)) 1 (rows u - 1) (fun i j =>
       ((get v (i + 1) j - get v (i - 1) j) -
        (get u i (j + 1) - get u i (j - 1))) * 0.5) in
  let absw := map1 Qabs curl in
  let Nx := set_block (zeros (rows u)) 1 (rows u - 1) (fun i j =>
       (get absw (i + 1) j - get absw (i - 1) j) * 0.5) in
  let Ny := set_block (zeros (rows v)) 1 (rows v - 1) (fun i j =>
       (get absw i (j + 1) - get absw i (j - 1)) * 0.5) in
  let mag := map2 (fun a b => sqrt (a * a + b * b) + 1e-6) Nx Ny in
  let Nx := map2 Qdiv Nx mag in
  let Ny := map2 Qdiv Ny mag in
  let Fx := map2 (fun a w => eps * a * w) Ny curl in
  let Fy := map2 (fun a w => - eps * a * w) Nx curl in
  let u := set_block u 1 (rows u - 1) (fun i j => get u i j + dt * get Fx i j) in
  let v := set_block v 1 (rows v - 1) (fun i j => get v i j + dt * get Fy i j) in
  Some (set_bnd 1 u, set_bnd 2 v).

(** Returns [v]; [None] stands for the early [return] of the guard
    [coeff <= 0.0]. *)
Definition buoyancy_force (v dens : Field) (coeff dt : Q) : option Field :=
  if Qle_bool coeff 0 then None else
  Some (set_bnd 2
    (set_block v 1 (rows v - 1) (fun i j =>
       get v i j + dt * coeff * get dens i j))).

(** [x += dt * s] *)
Definition add_source (x s : Field) (dt : Q) : Field :=
  assign x (fun _ _ => true) (fun i j => get x i j + dt * get s i j).

End Methods.

(** Record updates of the solver object. *)
Definition with_u (s : Fluid) (x : Field) : Fluid :=
  mkFluid (params s) x (v s) (u0 s) (v0 s) (dens s) (dens0 s) (p s) (div s).
Definition with_v (s : Fluid) (x : Field) : Fluid :=
  mkFluid (params s) (u s) x (u0 s) (v0 s) (dens s) (dens0 s) (p s) (div s).
Definition with_u0 (s : Fluid) (x : Field) : Fluid :=
  mkFluid (params s) (u s) (v s) x (v0 s) (dens s) (dens0 s) (p s) (div s).
Definition with_v0 (s : Fluid) (x : Field) : Fluid :=
  mkFluid (params s) (u s) (v s) (u0 s) x (dens s) (dens0 s) (p s) (div s).
Definition with_dens (s : Fluid) (x : Field) : Fluid :=
  mkFluid (params s) (u s) (v s) (u0 s) (v0 s) x (dens0 s) (p s) (div s).
Definition with_dens0 (s : Fluid) (x : Field) : Fluid :=
  mkFluid (params s) (u s) (v s) (u0 s) (v0 s) (dens s) x (p s) (div s).

(** [self.project(self.u, self.v, self.p, self.div)] *)
Definition do_project (s : Fluid) : Fluid :=
  let '(u', v', p', div') := project (params s) (u s) (v s) (p s) (div s) in
  mkFluid (params s) u' v' (u0 s) (v0 s) (dens s) (dens0 s) p' div'.

Section Steps.

Variable sqrt : Q -> Q.

Local Open Scope cmd_scope.

(** The two force calls run their operator only past their guard. *)
Definition buoyancy_cmd (dt : Q) : Cmd Fluid := fun s =>
  match buoyancy_force (params s) (v s) (dens s) (buoyancy (params s)) dt with
  | Some v' => act (BuoyancyForce Bv Bd) (fun s => with_v s v') s
  | None => skip s
  end.

Definition vorticity_cmd (dt : Q) : Cmd Fluid := fun s =>
  match vorticity_confinement sqrt (params s) (u s) (v s)
          (vorticity (params s)) dt with
  | Some (u', v') => act (Confinement Bu Bv) (fun s => with_v (with_u s u') v') s
  | None => skip s
  end.

Definition vel_step (dt : Q) : Cmd Fluid :=
  act (AddSource Bu Bu0) (fun s => with_u s (add_source (u s) (u0 s) dt)) ;;
  act (AddSource Bv Bv0) (fun s => with_v s (add_source (v s) (v0 s) dt)) ;;
  act (Fill Bu0) (fun s => with_u0 s (fill (u0 s) 0)) ;;
  act (Fill Bv0) (fun s => with_v0 s (fill (v0 s) 0)) ;;
  buoyancy_cmd dt ;;
  vorticity_cmd dt ;;
  act (CopyInto Bu0 Bu) (fun s => with_u0 s (copy_into (u0 s) (u s))) ;;
  act (CopyInto Bv0 Bv) (fun s => with_v0 s (copy_into (v0 s) (v s))) ;;
  try_act (DiffuseBy 1 Bu Bu0 Cvisc) (fun s =>
    option_map (with_u s)
      (diffuse (params s) 1 (u s) (u0 s) (visc (params s)) dt)) ;;
  try_act (DiffuseBy 2 Bv Bv0 Cvisc) (fun s =>
    option_map (with_v s)
      (diffuse (params s) 2 (v s) (v0 s) (visc (params s)) dt)) ;;
  act (ProjectOn Bu Bv Bp Bdiv) do_project ;;
  act (CopyInto Bu0 Bu) (fun s => with_u0 s (copy_into (u0 s) (u s))) ;;
  act (CopyInto Bv0 Bv) (fun s => with_v0 s (copy_into (v0 s) (v s))) ;;
  act (AdvectBy 1 Bu Bu0 Bu0 Bv0) (fun s =>
    with_u s (advect (params s) 1 (u s) (u0 s) (u0 s) (v0 s) dt)) ;;
  act (AdvectBy 2 Bv Bv0 Bu0 Bv0) (fun s =>
    with_v s (advect (params s) 2 (v s) (v0 s) (u0 s) (v0 s) dt)) ;;
  act (ProjectOn Bu Bv Bp Bdiv) do_project.

Definition dens_step (dt : Q) : Cmd Fluid :=
  act (AddSource Bd Bd0)
    (fun s => with_dens s (add_source (dens s) (dens0 s) dt)) ;;
  act (Fill Bd0) (fun s => with_dens0 s (fill (dens0 s) 0)) ;;
  act (CopyInto Bd0 Bd) (fun s => with_dens0 s (copy_into (dens0 s) (dens s))) ;;
  try_act (DiffuseBy 0 Bd Bd0 Cdiff) (fun s =>
    option_map (with_dens s)
      (diffuse (params s) 0 (dens s) (dens0 s) (diff (params s)) dt)) ;;
  act (CopyInto Bd0 Bd) (fun s => with_dens0 s (copy_into (dens0 s) (dens s))) ;;
  act (AdvectBy 0 Bd Bd0 Bu Bv) (fun s =>
    with_dens s (advect (params s) 0 (dens s) (dens0 s) (u s) (v s) dt)).

Definition step (dt : Q) : Cmd Fluid :=
  vel_step dt ;; dens_step dt.

End Steps.

(** [self.dens0[ii, jj] += amount] *)
Definition bump (d : Field) (ii jj : Z) (amount : Q) : Field :=
  set_cell d (Z.to_nat ii) (Z.to_nat jj)
    (get d (Z.to_nat ii) (Z.to_nat jj) + amount).

(** The brush on an array: the two nested [for] loops. *)
Definition brush (n : Z) (d : Field) (i j : Z) (amount : Q) (r : Z) : Field :=
  fold_left (fun d ii =>
      fold_left (fun d jj =>
          if ((ii - i) ^ 2 + (jj - j) ^ 2 <=? r * r)%Z
          then bump d ii jj amount else d)
        (zrange (Z.max 1 (j - r)) (Z.min n (j + r) + 1)) d)
    (zrange (Z.max 1 (i - r)) (Z.min n (i + r) + 1)) d.

Definition add_density_brush (s : Fluid) (i j : Z) (amount : Q) (radius : Z)
    : Fluid :=
  let n := Z.of_nat (N (params s)) in
  let i := clamp i 1 n in
  let j := clamp j 1 n in
  let r := Z.max 1 radius in
  with_dens0 s (brush n (dens0 s) i j amount r).

(** The two nested [for] loops of [add_velocity_brush] on the pair
    [(u0, v0)]. *)
Definition brush2 (n : Z) (uv : Field * Field) (i j : Z) (vx vy : Q) (r : Z)
    : Field * Field :=
  fold_left (fun uv ii =>
      fold_left (fun uv jj =>
          if ((ii - i) ^ 2 + (jj - j) ^ 2 <=? r * r)%Z
          then (bump (fst uv) ii jj vx, bump (snd uv) ii jj vy) else uv)
        (zrange (Z.max 1 (j - r)) (Z.min n (j + r) + 1)) uv)
    (zrange (Z.max 1 (i - r)) (Z.min n (i + r) + 1)) uv.

Definition add_velocity_brush (s : Fluid) (i j : Z) (vx vy : Q) (radius : Z)
    : Fluid :=
  let n := Z.of_nat (N (params s)) in
  let i := clamp i 1 n in
  let j := clamp j 1 n in
  let r := Z.max 1 radius in
  let uv := brush2 n (u0 s, v0 s) i j vx vy r in
  with_v0 (with_u0 s (fst uv)) (snd uv).

(** [arr.fill(0.0)] for each of the eight arrays. *)
Definition clear (s : Fluid) : Fluid :=
  mkFluid (params s)
    (fill (u s) 0) (fill (v s) 0) (fill (u0 s) 0) (fill (v0 s) 0)
    (fill (dens s) 0) (fill (dens0 s) 0) (fill (p s) 0) (fill (div s) 0).

(** [App.grid_from_screen]: the pixel [(x, y)] of a [w] by [h] window
    to [(row, col)]; [x / w] is a float division and raises
    [ZeroDivisionError] on a zero width or height. *)
Definition grid_from_screen (n : nat) (w h : Z) (x y : Z) : option (Z * Z) :=
  if ((w =? 0) || (h =? 0))%Z then None else
  let col := (Qtrunc ((inject_Z x / inject_Z w) * Qn n) + 1)%Z in
  let row := (Qtrunc ((inject_Z y / inject_Z h) * Qn n) + 1)%Z in
  Some (row, col).

End Pro.

(** ** [fluid_simulator_thinking.py] *)

Module Thinking.

(** [N = x.shape[0] - 2] *)
Definition dimN (x : Field) : nat := rows x - 2.

Definition set_bnd (b : Z) (x : Field) : Field :=
  let n := dimN x in
  let x := set_row x 0 1 (n + 1) (fun j => flip_if b 1 (get x 1 j)) in
  let x := set_row x (n + 1) 1 (n + 1) (fun j => flip_if b 1 (get x n j)) in
  let x := set_col x 0 1 (n + 1) (fun i => flip_if b 2 (get x i 1)) in
  let x := set_col x (n + 1) 1 (n + 1) (fun i => flip_if b 2 (get x i n)) in
  let x := set_cell x 0 0 (0.5 * (get x 1 0 + get x 0 1)) in
  let x := set_cell x 0 (n + 1) (0.5 * (get x 1 (n + 1) + get x 0 n)) in
  let x := set_cell x (n + 1) 0 (0.5 * (get x n 0 + get x (n + 1) 1)) in
  set_cell x (n + 1) (n + 1)
    (0.5 * (get x n (n + 1) + get x (n + 1) n)).

(** [x += dt * s] *)
Definition add_source (x s : Field) (dt : Q) : Field :=
  assign x (fun _ _ => true) (fun i j => get x i j + dt * get s i j).

Definition lin_sweep (b : Z) (a inv_c : Q) (x0 x : Field) : Field :=
  let n := dimN x in
  set_bnd b
    (set_block x 1 (n + 1) (fun i j =>
       (get x0 i j + a * (get x (i - 1) j + get x (i + 1) j +
                          get x i (j - 1) + get x i (j + 1))) * inv_c)).

(** [inv_c = 1.0 / c] raises [ZeroDivisionError] when [c] is zero. *)
Definition lin_solve (b : Z) (x x0 : Field) (a c : Q) (iters : nat)
    : option Field :=
  if Qeq_bool c 0 then None else
  let inv_c := 1 / c in
  Some (repeat_n iters (lin_sweep b a inv_c x0) x).

(** [lin_solve] is called with its default [iters=20]. *)
Definition diffuse (b : Z) (x x0 : Field) (diff dt : Q) : option Field :=
  let n := Qn (dimN x) in
  let a := dt * diff * n * n in
  lin_solve b x x0 a (1 + 4 * a) 20.

Definition backtrace (n : nat) (u v : Field) (dt : Q) (i j : nat) : Sample :=
  let dt0 := dt * Qn n in
  let x := Qn i - dt0 * get u i j in
  let y := Qn j - dt0 * get v i j in
  let x := clip x 0.5 (Qn n + 0.5) in
  let y := clip y 0.5 (Qn n + 0.5) in
  let i0 := Qfloor x in
  let i1 := (i0 + 1)%Z in
  let j0 := Qfloor y in
  let j1 := (j0 + 1)%Z in
  let s1 := x - inject_Z i0 in
  let s0 := 1 - s1 in
  let t1 := y - inject_Z j0 in
  let t0 := 1 - t1 in
  mkSample i0 i1 j0 j1 s0 s1 t0 t1.

Definition advect (b : Z) (d d0 u v : Field) (dt : Q) : Field :=
  let n := dimN d in
  set_bnd b
    (set_block d 1 (n + 1) (fun i j => bilinear d0 (backtrace n u v dt i j))).

(** Returns [(u, v, p, div)]; [h = 1.0 / N] raises
    [ZeroDivisionError] when [N] is 0. *)
Definition project (u v p div : Field)
    : option (Field * Field * Field * Field) :=
  let n := dimN u in
  if (n =? 0)%nat then None else
  let h := 1 / Qn n in
  let div := set_block div 1 (n + 1) (fun i j =>
       - 0.5 * h * (get u (i + 1) j - get u (i - 1) j +
                    get v i (j + 1) - get v i (j - 1))) in
  let p := fill p 0 in
  let div := set_bnd 0 div in
  let p := set_bnd 0 p in
  match lin_solve 0 p div 1 4 20 with
  | None => None
  | Some p =>
  let u := set_block u 1 (n + 1) (fun i j =>
       get u i j - 0.5 * (get p (i + 1) j - get p (i - 1) j) / h) in
  let v := set_block v 1 (n + 1) (fun i j =>
       get v i j - 0.5 * (get p i (j + 1) - get p i (j - 1)) / h) in
  Some (set_bnd 1 u, set_bnd 2 v, p, div)
  end.

Section Confinement.

(** [np.sqrt] *)
Variable sqrt : Q -> Q.

(** Returns [(u, v)].  [w] and [absw] are [N] by [N]: their cell
    [(a, b)] belongs to grid cell [(a + 1, b + 1)].  The reads
    [absw[1, :]] and [absw[:, 1]] raise [IndexError] on an array with
    fewer than two rows. *)
Definition vorticity_confinement (u v : Field) (eps : Q)
    : option (Field * Field) :=
  let n := dimN u in
  let w := mk n (fun a b =>
       (get v (a + 2) (b + 1) - get v a (b + 1)
        - (get u (a + 1) (b + 2) - get u (a + 1) b)) * 0.5) in
  let absw := map1 Qabs w in
  let grad_x := zeros (rows u) in
  let grad_y := zeros (rows v) in
  let grad_x := set_rect grad_x 2 n 1 (n + 1) (fun r c =>
       0.5 * (get absw r (c - 1) - get absw (r - 2) (c - 1))) in
  let grad_y := set_rect grad_y 1 (n + 1) 2 n (fun r c =>
       0.5 * (get absw (r - 1) c - get absw (r - 1) (c - 2))) in
  if (n <? 2)%nat then None else
  let grad_x := set_row grad_x 1 1 (n + 1) (fun c =>
       get absw 1 (c - 1) - get absw 0 (c - 1)) in
  let grad_x := set_row grad_x (n + 1) 1 (n + 1) (fun c =>
       get absw (n - 1) (c - 1) - get absw (n - 2) (c - 1)) in
  let grad_y := set_col grad_y 1 1 (n + 1) (fun r =>
       get absw (r - 1) 1 - get absw (r - 1) 0) in
  let grad_y := set_col grad_y (n + 1) 1 (n + 1) (fun r =>
       get absw (r - 1) (n - 1) - get absw (r - 1) (n - 2)) in
  let mag := map2 (fun a b => sqrt (a ^ 2 + b ^ 2) + 1e-12) grad_x grad_y in
  let Nx := map2 Qdiv grad_x mag in
  let Ny := map2 Qdiv grad_y mag in
  let u := set_block u 1 (n + 1) (fun i j =>
       get u i j + eps * (get Ny i j * get w (i - 1) (j - 1))) in
  let v := set_block v 1 (n + 1) (fun i j =>
       get v i j + eps * (- get Nx i j * get w (i - 1) (j - 1))) in
  Some (set_bnd 1 u, set_bnd 2 v).

End Confinement.

(** The solver object. *)
Record Fluid2D : Type := mkFluid2D {
  N : nat;
  dt : Q;
  diff : Q;
  visc : Q;
  vorticity : bool;
  u : Field; v : Field; u0 : Field; v0 : Field;
  d : Field; d0 : Field;
  p : Field; div : Field
}.

(** [Fluid2D.__init__] *)
Definition init (N : nat) (dt diff visc : Q) (vorticity : bool) : Fluid2D :=
  let z := zeros (N + 2) in
  mkFluid2D N dt diff visc vorticity z z z z z z z z.

Definition with_u (s : Fluid2D) (x : Field) : Fluid2D :=
  mkFluid2D (N s) (dt s) (diff s) (visc s) (vorticity s)
    x (v s) (u0 s) (v0 s) (d s) (d0 s) (p s) (div s).
Definition with_v (s : Fluid2D) (x : Field) : Fluid2D :=
  mkFluid2D (N s) (dt s) (diff s) (visc s) (vorticity s)
    (u s) x (u0 s) (v0 s) (d s) (d0 s) (p s) (div s).
Definition with_u0 (s : Fluid2D) (x : Field) : Fluid2D :=
  mkFluid2D (N s) (dt s) (diff s) (visc s) (vorticity s)
    (u s) (v s) x (v0 s) (d s) (d0 s) (p s) (div s).
Definition with_v0 (s : Fluid2D) (x : Field) : Fluid2D :=
  mkFluid2D (N s) (dt s) (diff s) (visc s) (vorticity s)
    (u s) (v s) (u0 s) x (d s) (d0 s) (p s) (div s).
Definition with_d (s : Fluid2D) (x : Field) : Fluid2D :=
  mkFluid2D (N s) (dt s) (diff s) (visc s) (vorticity s)
    (u s) (v s) (u0 s) (v0 s) x (d0 s) (p s) (div s).
Definition with_d0 (s : Fluid2D) (x : Field) : Fluid2D :=
  mkFluid2D (N s) (dt s) (diff s) (visc s) (vorticity s)
    (u s) (v s) (u0 s) (v0 s) (d s) x (p s) (div s).

(** [self.u, self.u0 = self.u0, self.u] and its two siblings. *)
Definition swap_u (s : Fluid2D) : Fluid2D := with_u0 (with_u s (u0 s)) (u s).
Definition swap_v (s : Fluid2D) : Fluid2D := with_v0 (with_v s (v0 s)) (v s).
Definition swap_d (s : Fluid2D) : Fluid2D := with_d0 (with_d s (d0 s)) (d s).

(** [project(self.u, self.v, self.p, self.div)] *)
Definition do_project (s : Fluid2D) : option Fluid2D :=
  match project (u s) (v s) (p s) (div s) with
  | Some (u', v', p', div') =>
      Some (mkFluid2D (N s) (dt s) (diff s) (visc s) (vorticity s)
              u' v' (u0 s) (v0 s) (d s) (d0 s) p' div')
  | None => None
  end.

Section Steps.

Variable sqrt : Q -> Q.

Local Open Scope cmd_scope.

(** [vorticity_confinement(self.u, self.v)], with the default
    [eps=0.002]. *)
Definition do_vorticity (s : Fluid2D) : option Fluid2D :=
  match vorticity_confinement sqrt (u s) (v s) 0.002 with
  | Some (u', v') => Some (with_v (with_u s u') v')
  | None => None
  end.

Definition step : Cmd Fluid2D :=
  (* Velocity step *)
  act (AddSource Bu Bu0) (fun s => with_u s (add_source (u s) (u0 s) (dt s))) ;;
  act (Fill Bu0) (fun s => with_u0 s (fill (u0 s) 0)) ;;
  act (AddSource Bv Bv0) (fun s => with_v s (add_source (v s) (v0 s) (dt s))) ;;
  act (Fill Bv0) (fun s => with_v0 s (fill (v0 s) 0)) ;;
  try_act (DiffuseBy 1 Bu0 Bu Cvisc) (fun s =>
    option_map (with_u0 s) (diffuse 1 (u0 s) (u s) (visc s) (dt s))) ;;
  try_act (DiffuseBy 2 Bv0 Bv Cvisc) (fun s =>
    option_map (with_v0 s) (diffuse 2 (v0 s) (v s) (visc s) (dt s))) ;;
  act (Exchange Bu Bu0) swap_u ;;
  act (Exchange Bv Bv0) swap_v ;;
  try_act (ProjectOn Bu Bv Bp Bdiv) do_project ;;
  act (AdvectBy 1 Bu0 Bu Bu Bv)
    (fun s => with_u0 s (advect 1 (u0 s) (u s) (u s) (v s) (dt s))) ;;
  act (AdvectBy 2 Bv0 Bv Bu Bv)
    (fun s => with_v0 s (advect 2 (v0 s) (v s) (u s) (v s) (dt s))) ;;
  act (Exchange Bu Bu0) swap_u ;;
  act (Exchange Bv Bv0) swap_v ;;
  (fun s => if vorticity s
            then try_act (Confinement Bu Bv) do_vorticity s else skip s) ;;
  try_act (ProjectOn Bu Bv Bp Bdiv) do_project ;;
  (* Density step *)
  act (AddSource Bd Bd0) (fun s => with_d s (add_source (d s) (d0 s) (dt s))) ;;
  act (Fill Bd0) (fun s => with_d0 s (fill (d0 s) 0)) ;;
  try_act (DiffuseBy 0 Bd0 Bd Cdiff) (fun s =>
    option_map (with_d0 s) (diffuse 0 (d0 s) (d s) (diff s) (dt s))) ;;
  act (Exchange Bd Bd0) swap_d ;;
  act (AdvectBy 0 Bd0 Bd Bu Bv)
    (fun s => with_d0 s (advect 0 (d0 s) (d s) (u s) (v s) (dt s))) ;;
  act (Exchange Bd Bd0) swap_d.

End Steps.

(** Resolution of the slice [a:b] on an axis of length [len]. *)
Definition py_slice (len : nat) (a b : Z) : Z * Z :=
  let L := Z.of_nat len in
  let fix1 (k : Z) :=
    let k := if (k <? 0)%Z then (k + L)%Z else k in
    Z.max 0 (Z.min L k) in
  (fix1 a, fix1 b).

(** [arr[a0:a1, b0:b1][mask] += amount] for the disk mask of
    [np.ogrid[-rr:rr+1, -rr:rr+1]]; a view whose shape differs from
    the mask's raises [IndexError]. *)
Definition splat (arr : Field) (cx cy rr : Z) (amount : Q) : option Field :=
  let m := Z.max 0 (2 * rr + 1) in
  let '(a0, a1) := py_slice (rows arr) (cx - rr) (cx + rr + 1) in
  let '(b0, b1) := py_slice (rows arr) (cy - rr) (cy + rr + 1) in
  if ((Z.max 0 (a1 - a0) =? m) && (Z.max 0 (b1 - b0) =? m))%Z then
    Some (assign arr
      (fun i j =>
         let a := (Z.of_nat i - a0)%Z in
         let b := (Z.of_nat j - b0)%Z in
         ((0 <=? a) && (a <? m) && (0 <=? b) && (b <? m) &&
          ((b - rr) * (b - rr) + (a - rr) * (a - rr) <=? rr * rr))%Z)
      (fun i j => get arr i j + amount))
  else None.

Definition add_density_splat (s : Fluid2D) (x y : Q) (amount : Q) (radius : Z)
    : option Fluid2D :=
  let cx := Qtrunc (clip x 1 (Qn (N s))) in
  let cy := Qtrunc (clip y 1 (Qn (N s))) in
  let rr := radius in
  match splat (d0 s) cx cy rr amount with
  | Some d0' => Some (with_d0 s d0')
  | None => None
  end.

(** The first masked update that raises ends the call, leaving the
    earlier one done. *)
Definition add_velocity_splat (s : Fluid2D) (x y : Q) (vx vy : Q)
    (radius : Z) (strength : Q) : option Fluid2D :=
  let cx := Qtrunc (clip x 1 (Qn (N s))) in
  let cy := Qtrunc (clip y 1 (Qn (N s))) in
  let rr := radius in
  match splat (u0 s) cx cy rr (strength * vx) with
  | Some u0' =>
      match splat (v0 s) cx cy rr (strength * vy) with
      | Some v0' => Some (with_v0 (with_u0 s u0') v0')
      | None => None
      end
  | None => None
  end.

(** [arr.fill(0.0)] for each of the eight arrays. *)
Definition reset (s : Fluid2D) : Fluid2D :=
  mkFluid2D (N s) (dt s) (diff s) (visc s) (vorticity s)
    (fill (u s) 0) (fill (v s) 0) (fill (u0 s) 0) (fill (v0 s) 0)
    (fill (d s) 0) (fill (d0 s) 0) (fill (p s) 0) (fill (div s) 0).

(** [data_to_grid] of [main]: [None] when the pointer is outside the
    axes ([event.xdata] or [event.ydata] is [None]). *)
Definition data_to_grid (n : nat) (xdata ydata : option Q) : option (Z * Z) :=
  match xdata, ydata with
  | Some xd, Some yd =>
      let x := (Qtrunc (clip xd 0 (Qn n - 1)) + 1)%Z in
      let y := (Qtrunc (clip yd 0 (Qn n - 1)) + 1)%Z in
      Some (x, y)
  | _, _ => None
  end.

End Thinking.

(** ** Vocabulary of the properties *)

(** The eight arrays of the object have [n + 2] rows. *)
Definition thinking_shaped (n : nat) (s : Thinking.Fluid2D) : Prop :=
  rows (Thinking.u s) = (n + 2)%nat /\ rows (Thinking.v s) = (n + 2)%nat /\
  rows (Thinking.u0 s) = (n + 2)%nat /\ rows (Thinking.v0 s) = (n + 2)%nat /\
  rows (Thinking.d s) = (n + 2)%nat /\ rows (Thinking.d0 s) = (n + 2)%nat /\
  rows (Thinking.p s) = (n + 2)%nat /\ rows (Thinking.div s) = (n + 2)%nat.

(** The eight arrays of the object are zero in every cell. *)
Definition thinking_all_zero (s : Thinking.Fluid2D) : Prop :=
  is_zero (Thinking.u s) /\ is_zero (Thinking.v s) /\
  is_zero (Thinking.u0 s) /\ is_zero (Thinking.v0 s) /\
  is_zero (Thinking.d s) /\ is_zero (Thinking.d0 s) /\
  is_zero (Thinking.p s) /\ is_zero (Thinking.div s).

(** [Fluid2D.__init__] allocates eight [(N+2)] by [(N+2)] arrays. *)
Definition thinking_well_formed (s : Thinking.Fluid2D) : bool :=
  forallb (has_shape (Thinking.N s + 2))
    [Thinking.u s; Thinking.v s; Thinking.u0 s; Thinking.v0 s;
     Thinking.d s; Thinking.d0 s; Thinking.p s; Thinking.div s].

(** [Fluid.__init__] allocates eight [(N+2)] by [(N+2)] arrays. *)
Definition pro_well_formed (s : Pro.Fluid) : bool :=
  forallb (has_shape (Pro.N (Pro.params s) + 2))
    [Pro.u s; Pro.v s; Pro.u0 s; Pro.v0 s;
     Pro.dens s; Pro.dens0 s; Pro.p s; Pro.div s].

(** The eight arrays of the object are zero in every cell. *)
Definition pro_all_zero (s : Pro.Fluid) : Prop :=
  is_zero (Pro.u s) /\ is_zero (Pro.v s) /\
  is_zero (Pro.u0 s) /\ is_zero (Pro.v0 s) /\
  is_zero (Pro.dens s) /\ is_zero (Pro.dens0 s) /\
  is_zero (Pro.p s) /\ is_zero (Pro.div s).

(** Every array other than the density source, and the parameters,
    are the same in both objects. *)
Definition pro_others_kept (s s' : Pro.Fluid) : Prop :=
  Pro.params s' = Pro.params s /\
  Pro.u s' = Pro.u s /\ Pro.v s' = Pro.v s /\
  Pro.u0 s' = Pro.u0 s /\ Pro.v0 s' = Pro.v0 s /\
  Pro.dens s' = Pro.dens s /\
  Pro.p s' = Pro.p s /\ Pro.div s' = Pro.div s.

Definition thinking_others_kept (s s' : Thinking.Fluid2D) : Prop :=
  Thinking.N s' = Thinking.N s /\ Thinking.dt s' = Thinking.dt s /\
  Thinking.diff s' = Thinking.diff s /\ Thinking.visc s' = Thinking.visc s /\
  Thinking.vorticity s' = Thinking.vorticity s /\
  Thinking.u s' = Thinking.u s /\ Thinking.v s' = Thinking.v s /\
  Thinking.u0 s' = Thinking.u0 s /\ Thinking.v0 s' = Thinking.v0 s /\
  Thinking.d s' = Thinking.d s /\
  Thinking.p s' = Thinking.p s /\ Thinking.div s' = Thinking.div s.

(** What C4 states of a boundary rule [bnd] at interior column [j]:
    kind 1 negates rows 1 and [n] into the ghost rows 0 and [n + 1],
    kind 0 copies row 1 into ghost row 0; a 5 in row 1 gives -5 and 5. *)
Definition reflects_rows (n : nat) (x : Field) (j : nat)
    (bnd : Z -> Field -> Field) : Prop :=
  get (bnd 1%Z x) 0 j = - get (bnd 1%Z x) 1 j /\
  get (bnd 1%Z x) (n + 1) j = - get (bnd 1%Z x) n j /\
  get (bnd 0%Z x) 0 j = get (bnd 0%Z x) 1 j /\
  (get x 1 j = 5 ->
   get (bnd 1%Z x) 0 j = - (5) /\ get (bnd 0%Z x) 0 j = 5).

(** What C5 states of the array [y] that a boundary rule leaves: each
    corner is half the sum of its two adjacent edge cells. *)
Definition corners_averaged (n : nat) (y : Field) : Prop :=
  get y 0 0 = 0.5 * (get y 1 0 + get y 0 1) /\
  get y 0 (n + 1) = 0.5 * (get y 1 (n + 1) + get y 0 n) /\
  get y (n + 1) 0 = 0.5 * (get y n 0 + get y (n + 1) 1) /\
  get y (n + 1) (n + 1) = 0.5 * (get y n (n + 1) + get y (n + 1) n).

(** What C9 states of the array [res] that a zero-coefficient
    diffusion leaves, at interior row [i] and interior column [j]: the
    interior cell is the reference's, and the four ghost cells of that
    row and column are what the boundary rule of kind [b] makes of the
    reference's interior. *)
Definition copied_at (n : nat) (b : Z) (x0 res : Field) (i j : nat) : Prop :=
  get res i j == get x0 i j /\
  get res 0 j == flip_if b 1 (get x0 1 j) /\
  get res (n + 1) j == flip_if b 1 (get x0 n j) /\
  get res i 0 == flip_if b 2 (get x0 i 1) /\
  get res i (n + 1) == flip_if b 2 (get x0 i n).

(** The call returns, and what it returns satisfies [P]. *)
Definition returns_with (A : Type) (r : option A) (P : A -> Prop) : Prop :=
  exists y, r = Some y /\ P y.

(** Every cell of the [(n+2)] by [(n+2)] grid lies in [lo, hi]. *)
Definition within (lo hi : Q) (n : nat) (x : Field) : Prop :=
  forall i j, (i <= n + 1)%nat -> (j <= n + 1)%nat -> lo <= get x i j <= hi.

(** The range [lo, hi] is closed under what the boundary rule of kind
    [b] does to a value: kind 0 never negates; a symmetric range is
    closed under negation. *)
Definition kind_fits (b : Z) (lo hi : Q) : Prop := b = 0%Z \/ lo == - hi.

(** The central-difference divergence of [(u, v)] vanishes at every
    interior cell. *)
Definition divergence_free (n : nat) (u v : Field) : Prop :=
  forall i j, (1 <= i <= n)%nat -> (1 <= j <= n)%nat ->
    get u (i + 1) j - get u (i - 1) j + get v i (j + 1) - get v i (j - 1) == 0.

(** What a projection returned when it changed no interior velocity
    and found no pressure. *)
Definition projection_fixed (n : nat) (u v : Field)
    (res : Field * Field * Field * Field) : Prop :=
  let '(u', v', p', div') := res in
  (forall i j, (1 <= i <= n)%nat -> (1 <= j <= n)%nat ->
     get u' i j == get u i j /\ get v' i j == get v i j) /\
  is_zero p' /\ is_zero div'.

(** The six arrays of the base variant are zero in every cell. *)
Definition base_all_zero (st : Field * Field * Field * Field * Field * Field)
    : Prop :=
  let '(u, v, u_prev, v_prev, dens, dens_prev) := st in
  is_zero u /\ is_zero v /\ is_zero u_prev /\ is_zero v_prev /\
  is_zero dens /\ is_zero dens_prev.

(** The module allocates six [(N+2)] by [(N+2)] arrays. *)
Definition base_well_formed (n : nat)
    (st : Field * Field * Field * Field * Field * Field) : bool :=
  let '(u, v, u_prev, v_prev, dens, dens_prev) := st in
  forallb (has_shape (n + 2)) [u; v; u_prev; v_prev; dens; dens_prev].

(** What it means for a sample to stay inside an [(n+2)] by [(n+2)]
    array: the backtraced coordinates (subscript plus fractional part)
    lie in [0.5, n + 0.5], the four subscripts lie in [0, n + 1], and
    each of them resolves without error and without wrapping. *)
Definition sample_in_bounds (n : nat) (k : Sample) : Prop :=
  (0.5 <= inject_Z (i0 k) + s1 k <= Qn n + 0.5) /\
  (0.5 <= inject_Z (j0 k) + t1 k <= Qn n + 0.5) /\
  (0 <= i0 k <= Z.of_nat n)%Z /\ i1 k = (i0 k + 1)%Z /\
  (0 <= j0 k <= Z.of_nat n)%Z /\ j1 k = (j0 k + 1)%Z /\
  py_index (n + 2) (i0 k) = Some (Z.to_nat (i0 k)) /\
  py_index (n + 2) (i1 k) = Some (Z.to_nat (i1 k)) /\
  py_index (n + 2) (j0 k) = Some (Z.to_nat (j0 k)) /\
  py_index (n + 2) (j1 k) = Some (Z.to_nat (j1 k)).

(** The cells that the two loops of the brush reach. *)
Definition brush_hits (n i j r : Z) (a b : nat) : bool :=
  let A := Z.of_nat a in
  let B := Z.of_nat b in
  ((Z.max 1 (i - r) <=? A) && (A <? Z.min n (i + r) + 1) &&
   ((Z.max 1 (j - r) <=? B) && (B <? Z.min n (j + r) + 1) &&
    ((A - i) ^ 2 + (B - j) ^ 2 <=? r * r)))%Z.

(** At radius 1 the two loops reach the centre and those of its four
    axis neighbours that lie in the interior. *)
Definition cross_hits (n ci cj : Z) (a b : nat) : bool :=
  let A := Z.of_nat a in
  let B := Z.of_nat b in
  ((1 <=? A) && (A <=? n) && (1 <=? B) && (B <=? n) &&
   (Z.abs (A - ci) + Z.abs (B - cj) <=? 1))%Z.

(** The interior cells within distance [r] of the centre [(ci, cj)]. *)
Definition disk_hits (n ci cj r : Z) (a b : nat) : bool :=
  let A := Z.of_nat a in
  let B := Z.of_nat b in
  ((1 <=? A) && (A <=? n) && (1 <=? B) && (B <=? n) &&
   ((A - ci) ^ 2 + (B - cj) ^ 2 <=? r * r))%Z.

(** The slice [c-rr : c+rr+1] lies inside an axis of length [L]. *)
Definition fitsb (L : nat) (c rr : Z) : bool :=
  ((rr <=? c) && (c + rr <? Z.of_nat L))%Z.

(** The cells within distance [rr] of the centre [(cx, cy)]. *)
Definition splat_hits (cx cy rr : Z) (a b : nat) : bool :=
  ((Z.of_nat a - cx) ^ 2 + (Z.of_nat b - cy) ^ 2 <=? rr * rr)%Z.

(** From every object that satisfies [I], the command returns, logs
    exactly [l], and leaves an object that satisfies [I]. *)
Definition runs (S : Type) (I : S -> Prop) (c : Cmd S) (l : list call) : Prop :=
  forall s, I s -> exists s', c s = Some (s', l) /\ I s'.

(** From every object that satisfies [P], the command returns and
    leaves an object that satisfies [Q]. *)
Definition leads (S : Type) (P : S -> Prop) (c : Cmd S) (Q : S -> Prop) : Prop :=
  forall s, P s -> exists s' l, c s = Some (s', l) /\ Q s'.

(** From every object that satisfies [P], the command raises. *)
Definition fails (S : Type) (P : S -> Prop) (c : Cmd S) : Prop :=
  forall s, P s -> c s = None.

(** A fluid of the thinking variant at rest on an [(n+2)] by [(n+2)]
    grid: the eight arrays have that shape, and the velocity, the
    velocity sources and the projection scratch are zero everywhere. *)
Definition thinking_at_rest (n : nat) (s : Thinking.Fluid2D) : Prop :=
  thinking_shaped n s /\
  is_zero (Thinking.u s) /\ is_zero (Thinking.v s) /\
  is_zero (Thinking.u0 s) /\ is_zero (Thinking.v0 s) /\
  is_zero (Thinking.p s) /\ is_zero (Thinking.div s).

(** The time step and the two diffusion coefficients of the object
    have no opposite signs, so that [1 + 4 * a] is at least 1 in both
    diffusions. *)
Definition thinking_damped (s : Thinking.Fluid2D) : Prop :=
  0 <= Thinking.dt s * Thinking.visc s /\ 0 <= Thinking.dt s * Thinking.diff s.

Definition pro_damped (pr : Pro.Params) (dt : Q) : Prop :=
  0 <= dt * Pro.visc pr /\ 0 <= dt * Pro.diff pr.

(** The denominator [1 + 4 * a] of the diffusion with coefficient [c]
    on a grid of [n] by [n] interior cells. *)
Definition denominator (dt c : Q) (n : nat) : Q :=
  1 + 4 * (dt * c * Qn n * Qn n).

(** The invariant of a tick of the thinking variant: the flag, the
    grid size and the parameters stay, the shapes stay, and (when [z]
    is set) all arrays stay zero. *)
Definition thinking_inv (n : nat) (vort z : bool) (DT VISC DIFF : Q)
    (s : Thinking.Fluid2D) : Prop :=
  (Thinking.vorticity s = vort /\ Thinking.N s = n /\
   Thinking.dt s = DT /\ Thinking.visc s = VISC /\ Thinking.diff s = DIFF) /\
  thinking_shaped n s /\
  (z = true -> thinking_all_zero s).

(** The invariant, read off an object. *)
Definition thinking_inv_of (z : bool) (s : Thinking.Fluid2D) :
    Thinking.Fluid2D -> Prop :=
  thinking_inv (Thinking.N s) (Thinking.vorticity s) z
    (Thinking.dt s) (Thinking.visc s) (Thinking.diff s).

(** The invariant of a tick of the pro variant: the parameters stay
    and (when [z] is set) all arrays stay zero. *)
Definition pro_inv (pr : Pro.Params) (z : bool) (s : Pro.Fluid) : Prop :=
  Pro.params s = pr /\ (z = true -> pro_all_zero s).

(** The calls that the velocity half of [Fluid2D.step] makes, in
    order, with the arrays each is given: the diffusion writes the
    source buffers from the velocity and the exchange makes them the
    velocity; the advection writes the source buffers from the
    projected velocity, carried by that velocity itself, and the
    exchange makes them the velocity; vorticity confinement, when
    enabled, comes after that and before the second projection. *)
Definition thinking_vel_trace (vort : bool) : list call :=
  [AddSource Bu Bu0; Fill Bu0; AddSource Bv Bv0; Fill Bv0;
   DiffuseBy 1 Bu0 Bu Cvisc; DiffuseBy 2 Bv0 Bv Cvisc;
   Exchange Bu Bu0; Exchange Bv Bv0;
   ProjectOn Bu Bv Bp Bdiv;
   AdvectBy 1 Bu0 Bu Bu Bv; AdvectBy 2 Bv0 Bv Bu Bv;
   Exchange Bu Bu0; Exchange Bv Bv0] ++
  (if vort then [Confinement Bu Bv] else []) ++
  [ProjectOn Bu Bv Bp Bdiv].

(** The calls of the density half of [Fluid2D.step]. *)
Definition thinking_dens_trace : list call :=
  [AddSource Bd Bd0; Fill Bd0; DiffuseBy 0 Bd0 Bd Cdiff; Exchange Bd Bd0;
   AdvectBy 0 Bd0 Bd Bu Bv; Exchange Bd Bd0].

(** The calls that one call of [Fluid2D.step] makes, in order. *)
Definition thinking_step_trace (vort : bool) : list call :=
  thinking_vel_trace vort ++ thinking_dens_trace.

(** The operators that one call of [Fluid.vel_step] runs, in order:
    each force operator runs only when its coefficient is positive. *)
Definition pro_vel_trace (pr : Pro.Params) : list call :=
  [AddSource Bu Bu0; AddSource Bv Bv0; Fill Bu0; Fill Bv0] ++
  (if Qle_bool (Pro.buoyancy pr) 0 then [] else [BuoyancyForce Bv Bd]) ++
  (if Qle_bool (Pro.vorticity pr) 0 then [] else [Confinement Bu Bv]) ++
  [CopyInto Bu0 Bu; CopyInto Bv0 Bv;
   DiffuseBy 1 Bu Bu0 Cvisc; DiffuseBy 2 Bv Bv0 Cvisc;
   ProjectOn Bu Bv Bp Bdiv;
   CopyInto Bu0 Bu; CopyInto Bv0 Bv;
   AdvectBy 1 Bu Bu0 Bu0 Bv0; AdvectBy 2 Bv Bv0 Bu0 Bv0;
   ProjectOn Bu Bv Bp Bdiv].

Definition pro_dens_trace : list call :=
  [AddSource Bd Bd0; Fill Bd0; CopyInto Bd0 Bd; DiffuseBy 0 Bd Bd0 Cdiff;
   CopyInto Bd0 Bd; AdvectBy 0 Bd Bd0 Bu Bv].

(** Reading and writing an array of the pro object by attribute. *)
Definition pro_rd (b : buf) (s : Pro.Fluid) : Field :=
  match b with
  | Bu => Pro.u s | Bv => Pro.v s | Bu0 => Pro.u0 s | Bv0 => Pro.v0 s
  | Bd => Pro.dens s | Bd0 => Pro.dens0 s | Bp => Pro.p s | Bdiv => Pro.div s
  end.

Definition pro_wr (b : buf) (x : Field) (s : Pro.Fluid) : Pro.Fluid :=
  match b with
  | Bu => Pro.with_u s x | Bv => Pro.with_v s x
  | Bu0 => Pro.with_u0 s x | Bv0 => Pro.with_v0 s x
  | Bd => Pro.with_dens s x | Bd0 => Pro.with_dens0 s x
  | Bp => Pro.mkFluid (Pro.params s) (Pro.u s) (Pro.v s) (Pro.u0 s) (Pro.v0 s)
            (Pro.dens s) (Pro.dens0 s) x (Pro.div s)
  | Bdiv => Pro.mkFluid (Pro.params s) (Pro.u s) (Pro.v s) (Pro.u0 s) (Pro.v0 s)
              (Pro.dens s) (Pro.dens0 s) (Pro.p s) x
  end.

Definition pro_coef (c : coefficient) (pr : Pro.Params) : Q :=
  match c with Cvisc => Pro.visc pr | Cdiff => Pro.diff pr end.

(** What a logged call of the pro variant stands for: the operator it
    names, applied to the arrays it names, its result stored in the
    array that the operator writes.  The two force operators leave the
    object as it is when their guard returns early; the pro variant
    never exchanges two attributes. *)
Definition pro_sem (sqrt : Q -> Q) (dt : Q) (c : call) (s : Pro.Fluid)
    : option Pro.Fluid :=
  let pr := Pro.params s in
  match c with
  | AddSource x y =>
      Some (pro_wr x (Pro.add_source (pro_rd x s) (pro_rd y s) dt) s)
  | Fill x => Some (pro_wr x (fill (pro_rd x s) 0) s)
  | BuoyancyForce v d =>
      match Pro.buoyancy_force pr (pro_rd v s) (pro_rd d s) (Pro.buoyancy pr) dt with
      | Some v' => Some (pro_wr v v' s)
      | None => Some s
      end
  | Confinement u v =>
      match Pro.vorticity_confinement sqrt pr (pro_rd u s) (pro_rd v s)
              (Pro.vorticity pr) dt with
      | Some (u', v') => Some (pro_wr v v' (pro_wr u u' s))
      | None => Some s
      end
  | CopyInto x y => Some (pro_wr x (copy_into (pro_rd x s) (pro_rd y s)) s)
  | Exchange _ _ => None
  | DiffuseBy b x x0 c =>
      match Pro.diffuse pr b (pro_rd x s) (pro_rd x0 s) (pro_coef c pr) dt with
      | Some r => Some (pro_wr x r s)
      | None => None
      end
  | ProjectOn u v p d =>
      let '(u', v', p', d') :=
        Pro.project pr (pro_rd u s) (pro_rd v s) (pro_rd p s) (pro_rd d s) in
      Some (pro_wr d d' (pro_wr p p' (pro_wr v v' (pro_wr u u' s))))
  | AdvectBy b d d0 u v =>
      Some (pro_wr d
              (Pro.advect pr b (pro_rd d s) (pro_rd d0 s) (pro_rd u s)
                 (pro_rd v s) dt) s)
  end.

(** Reading and writing an array of the thinking object by attribute. *)
Definition thinking_rd (b : buf) (s : Thinking.Fluid2D) : Field :=
  match b with
  | Bu => Thinking.u s | Bv => Thinking.v s
  | Bu0 => Thinking.u0 s | Bv0 => Thinking.v0 s
  | Bd => Thinking.d s | Bd0 => Thinking.d0 s
  | Bp => Thinking.p s | Bdiv => Thinking.div s
  end.

Definition thinking_wr (b : buf) (x : Field) (s : Thinking.Fluid2D)
    : Thinking.Fluid2D :=
  match b with
  | Bu => Thinking.with_u s x | Bv => Thinking.with_v s x
  | Bu0 => Thinking.with_u0 s x | Bv0 => Thinking.with_v0 s x
  | Bd => Thinking.with_d s x | Bd0 => Thinking.with_d0 s x
  | Bp => Thinking.mkFluid2D (Thinking.N s) (Thinking.dt s) (Thinking.diff s)
            (Thinking.visc s) (Thinking.vorticity s)
            (Thinking.u s) (Thinking.v s) (Thinking.u0 s) (Thinking.v0 s)
            (Thinking.d s) (Thinking.d0 s) x (Thinking.div s)
  | Bdiv => Thinking.mkFluid2D (Thinking.N s) (Thinking.dt s) (Thinking.diff s)
              (Thinking.visc s) (Thinking.vorticity s)
              (Thinking.u s) (Thinking.v s) (Thinking.u0 s) (Thinking.v0 s)
              (Thinking.d s) (Thinking.d0 s) (Thinking.p s) x
  end.

Definition thinking_coef (c : coefficient) (s : Thinking.Fluid2D) : Q :=
  match c with Cvisc => Thinking.visc s | Cdiff => Thinking.diff s end.

(** What a logged call of the thinking variant stands for.  The
    exchange swaps what the two attributes are bound to; the thinking
    variant has no buoyancy and never copies one array into another. *)
Definition thinking_sem (sqrt : Q -> Q) (c : call) (s : Thinking.Fluid2D)
    : option Thinking.Fluid2D :=
  match c with
  | AddSource x y =>
      Some (thinking_wr x
              (Thinking.add_source (thinking_rd x s) (thinking_rd y s)
                 (Thinking.dt s)) s)
  | Fill x => Some (thinking_wr x (fill (thinking_rd x s) 0) s)
  | BuoyancyForce _ _ => None
  | Confinement u v =>
      match Thinking.vorticity_confinement sqrt (thinking_rd u s)
              (thinking_rd v s) 0.002 with
      | Some (u', v') => Some (thinking_wr v v' (thinking_wr u u' s))
      | None => None
      end
  | CopyInto _ _ => None
  | Exchange x y =>
      Some (thinking_wr y (thinking_rd x s) (thinking_wr x (thinking_rd y s) s))
  | DiffuseBy b x x0 c =>
      match Thinking.diffuse b (thinking_rd x s) (thinking_rd x0 s)
              (thinking_coef c s) (Thinking.dt s) with
      | Some r => Some (thinking_wr x r s)
      | None => None
      end
  | ProjectOn u v p d =>
      match Thinking.project (thinking_rd u s) (thinking_rd v s)
              (thinking_rd p s) (thinking_rd d s) with
      | Some (u', v', p', d') =>
          Some (thinking_wr d d'
                  (thinking_wr p p' (thinking_wr v v' (thinking_wr u u' s))))
      | None => None
      end
  | AdvectBy b d d0 u v =>
      Some (thinking_wr d
              (Thinking.advect b (thinking_rd d s) (thinking_rd d0 s)
                 (thinking_rd u s) (thinking_rd v s) (Thinking.dt s)) s)
  end.

(** The log of a command is faithful to [sem]: replaying it call by
    call from the object the command started on gives the object the
    command returned. *)
Definition faithful (S : Type) (sem : call -> S -> option S) (c : Cmd S) : Prop :=
  forall s s' l, c s = Some (s', l) -> replay sem l s = Some s'.

(** [a] first runs strictly before [b] first runs. *)
Definition precedes (a b : phase) (l : list phase) : bool :=
  match first_index a l, first_index b l with
  | Some x, Some y => (x <? y)%nat
  | _, _ => false
  end.

(** The order C3 states for vorticity confinement: before diffusion,
    before the first projection, and not after advection. *)
Definition vorticity_first (l : list phase) : bool :=
  precedes Vorticity Diffuse l && precedes Vorticity Project l &&
  negb (precedes Advect Vorticity l).

(** The operators of a log, without their operands. *)
Definition phases (l : list call) : list phase := map phase_of l.

(** ** Concrete objects used to instantiate the properties *)

Definition sample_grid : Field :=
  mk 5 (fun i j => inject_Z (Z.of_nat (10 * i + j))).

Definition row1_five : Field :=
  mk 5 (fun i j => if (i =? 1)%nat then 5 else inject_Z (Z.of_nat (i + j))).

(** A source buffer whose only nonzero cell is the ghost cell (0, 2). *)
Definition ghost_source : Field :=
  mk 5 (fun i j => if ((i =? 0) && (j =? 2))%nat then 7 else 0).

Definition sample_params : Pro.Params :=
  Pro.mkParams 3 (1 # 60) (1 # 50000) (1 # 10000) 20 (6 # 10) 2.

Definition sample_fluid2d : Thinking.Fluid2D :=
  Thinking.init 3 (1 # 10) (1 # 10000) (1 # 10000) true.

(** [sample_grid] with every ghost cell replaced by 99. *)
Definition sample_grid_other_ghosts : Field :=
  mk 5 (fun i j =>
    if (in_slice 1 4 i && in_slice 1 4 j)%bool
    then inject_Z (Z.of_nat (10 * i + j)) else 99).

(** A velocity field with a different value in every cell. *)
Definition sample_wind : Field :=
  mk 5 (fun i j => inject_Z (Z.of_nat (7 * i) - Z.of_nat (11 * j))).

(** A pro solver object with dye, a queued source and wind. *)
Definition sample_fluid : Pro.Fluid :=
  Pro.mkFluid sample_params sample_wind sample_wind (zeros 5) (zeros 5)
    sample_grid ghost_source (zeros 5) (zeros 5).

(** A fluid at rest, without diffusion or forces, holding dye and a
    queued source. *)
Definition still_fluid : Pro.Fluid :=
  Pro.mkFluid (Pro.mkParams 3 (1 # 60) 0 0 2 0 0)
    (zeros 5) (zeros 5) (zeros 5) (zeros 5)
    sample_grid ghost_source (zeros 5) (zeros 5).

(** An object whose time step has the opposite sign of the viscosity,
    with [1 + 4 * dt * visc * N * N = 0]. *)
Definition sour_fluid2d : Thinking.Fluid2D :=
  Thinking.init 2 (-1) 0 (1 # 16) false.

(** A thinking solver object at rest, without diffusion, holding dye
    and a queued source. *)
Definition still_fluid2d : Thinking.Fluid2D :=
  Thinking.mkFluid2D 3 (1 # 10) 0 0 true
    (zeros 5) (zeros 5) (zeros 5) (zeros 5)
    sample_grid ghost_source (zeros 5) (zeros 5).

(** A thinking solver object with dye, a queued source and wind. *)
Definition windy_fluid2d : Thinking.Fluid2D :=
  Thinking.mkFluid2D 3 (1 # 10) (1 # 10000) (1 # 10000) true
    sample_wind sample_wind (zeros 5) (zeros 5)
    sample_grid ghost_source (zeros 5) (zeros 5).

(** A uniform flow: the same velocity in every cell. *)
Definition uniform_u : Field := mk 5 (fun _ _ => 3).
Definition uniform_v : Field := mk 5 (fun _ _ => - (2)).

(** A rational stand-in for [np.sqrt]. *)
Definition sqrt_stub (q : Q) : Q := q.

(** * Properties *)

(** ** Reading arrays built by [mk] and by assignment *)

Lemma nth_map_seq (A : Type) (g : nat -> A) (dflt : A) (n i : nat) :
  nth i (map g (List.seq 0 n)) dflt = if (i <? n)%nat then g i else dflt.
Proof.
  destruct (Nat.ltb_spec i n) as [Hlt | Hge].
  - rewrite (nth_indep _ dflt (g 0%nat)) by (rewrite length_map, length_seq; exact Hlt).
    rewrite map_nth, seq_nth by exact Hlt. reflexivity.
  - apply nth_overflow. rewrite length_map, length_seq. exact Hge.
Qed.

Lemma rows_mk (n : nat) (f : nat -> nat -> Q) : rows (mk n f) = n.
Proof. unfold rows, mk. rewrite length_map, length_seq. reflexivity. Qed.

Lemma get_mk (n : nat) (f : nat -> nat -> Q) (i j : nat) :
  get (mk n f) i j = if ((i <? n) && (j <? n))%nat then f i j else 0.
Proof.
  unfold get, mk. rewrite nth_map_seq.
  destruct (i <? n)%nat; simpl.
  - apply nth_map_seq.
  - destruct j; reflexivity.
Qed.

Lemma has_shape_mk (n : nat) (f : nat -> nat -> Q) : has_shape n (mk n f) = true.
Proof.
  unfold has_shape, mk. rewrite length_map, length_seq, Nat.eqb_refl. simpl.
  apply forallb_forall. intros r Hr. apply in_map_iff in Hr.
  destruct Hr as [i [<- _]]. rewrite length_map, length_seq. apply Nat.eqb_refl.
Qed.

Lemma has_shape_rows (n : nat) (x : Field) : has_shape n x = true -> rows x = n.
Proof.
  unfold has_shape, rows. intros H. apply andb_true_iff in H.
  destruct H as [H _]. apply Nat.eqb_eq in H. exact H.
Qed.

Lemma rows_assign (x : Field) P rhs : rows (assign x P rhs) = rows x.
Proof. apply rows_mk. Qed.

Lemma get_assign (x : Field) P rhs (i j : nat) :
  get (assign x P rhs) i j =
  if ((i <? rows x) && (j <? rows x))%nat
  then (if P i j then rhs i j else get x i j) else 0.
Proof. unfold assign. apply get_mk. Qed.

(** Reading outside a well-shaped array gives the filler. *)
Lemma get_outside (n : nat) (x : Field) (i j : nat) :
  has_shape n x = true -> (n <= i \/ n <= j)%nat -> get x i j = 0.
Proof.
  unfold has_shape, get. intros H Hout. apply andb_true_iff in H.
  destruct H as [Hlen Hall]. apply Nat.eqb_eq in Hlen.
  destruct (Nat.lt_ge_cases i n) as [Hi | Hi].
  - destruct Hout as [Hout | Hout]; [lia |].
    apply nth_overflow.
    rewrite forallb_forall in Hall.
    assert (Hin : In (nth i x []) x) by (apply nth_In; lia).
    apply Hall in Hin. apply Nat.eqb_eq in Hin. lia.
  - rewrite (nth_overflow x) by lia. destruct j; reflexivity.
Qed.

Lemma rows_set_cell x i j v : rows (set_cell x i j v) = rows x.
Proof. apply rows_assign. Qed.

Lemma rows_set_row x i lo hi rhs : rows (set_row x i lo hi rhs) = rows x.
Proof. apply rows_assign. Qed.

Lemma rows_set_col x j lo hi rhs : rows (set_col x j lo hi rhs) = rows x.
Proof. apply rows_assign. Qed.

Lemma rows_set_block x lo hi rhs : rows (set_block x lo hi rhs) = rows x.
Proof. apply rows_assign. Qed.

Lemma rows_set_rect x a b c e rhs : rows (set_rect x a b c e rhs) = rows x.
Proof. apply rows_assign. Qed.

Lemma rows_fill x c : rows (fill x c) = rows x.
Proof. apply rows_assign. Qed.

Lemma rows_copy_into x y : rows (copy_into x y) = rows x.
Proof. apply rows_assign. Qed.

Lemma rows_map1 f x : rows (map1 f x) = rows x.
Proof. apply rows_mk. Qed.

Lemma rows_map2 f x y : rows (map2 f x y) = rows x.
Proof. apply rows_mk. Qed.

Lemma rows_zeros n : rows (zeros n) = n.
Proof. apply rows_mk. Qed.

Lemma get_set_cell x i j v a b :
  get (set_cell x i j v) a b =
  if ((a <? rows x) && (b <? rows x))%nat
  then (if ((a =? i) && (b =? j))%nat then v else get x a b) else 0.
Proof. apply get_assign. Qed.

Lemma get_set_row x i lo hi rhs a b :
  get (set_row x i lo hi rhs) a b =
  if ((a <? rows x) && (b <? rows x))%nat
  then (if ((a =? i)%nat && in_slice lo hi b) then rhs b else get x a b) else 0.
Proof. apply get_assign. Qed.

Lemma get_set_col x j lo hi rhs a b :
  get (set_col x j lo hi rhs) a b =
  if ((a <? rows x) && (b <? rows x))%nat
  then (if (in_slice lo hi a && (b =? j)%nat) then rhs a else get x a b) else 0.
Proof. apply get_assign. Qed.

Lemma get_set_rect x rlo rhi clo chi rhs a b :
  get (set_rect x rlo rhi clo chi rhs) a b =
  if ((a <? rows x) && (b <? rows x))%nat
  then (if (in_slice rlo rhi a && in_slice clo chi b) then rhs a b else get x a b)
  else 0.
Proof. apply get_assign. Qed.

Lemma get_set_block x lo hi rhs a b :
  get (set_block x lo hi rhs) a b =
  if ((a <? rows x) && (b <? rows x))%nat
  then (if (in_slice lo hi a && in_slice lo hi b) then rhs a b else get x a b)
  else 0.
Proof. apply get_assign. Qed.

Lemma get_fill x c a b :
  get (fill x c) a b = if ((a <? rows x) && (b <? rows x))%nat then c else 0.
Proof. unfold fill. rewrite get_assign. reflexivity. Qed.

Lemma get_copy_into x y a b :
  get (copy_into x y) a b =
  if ((a <? rows x) && (b <? rows x))%nat then get y a b else 0.
Proof. unfold copy_into. rewrite get_assign. reflexivity. Qed.

Lemma get_map1 f x a b :
  get (map1 f x) a b =
  if ((a <? rows x) && (b <? rows x))%nat then f (get x a b) else 0.
Proof. apply get_mk. Qed.

Lemma get_map2 f x y a b :
  get (map2 f x y) a b =
  if ((a <? rows x) && (b <? rows x))%nat then f (get x a b) (get y a b) else 0.
Proof. apply get_mk. Qed.

Lemma get_zeros n a b : get (zeros n) a b = 0.
Proof. unfold zeros. rewrite get_mk. destruct (_ && _)%bool; reflexivity. Qed.

Create Rewrite HintDb grid_rows.
#[export] Hint Rewrite rows_set_cell rows_set_row rows_set_col rows_set_block
  rows_set_rect rows_fill rows_copy_into rows_map1 rows_map2 rows_zeros
  rows_assign rows_mk : grid_rows.

(** Settling the comparisons that decide which assignment wrote a cell. *)
Ltac settle_tests :=
  repeat match goal with
  | |- context [(?a =? ?b)%nat] =>
      first [ replace (a =? b)%nat with true
                by (symmetry; apply Nat.eqb_eq; lia)
            | replace (a =? b)%nat with false
                by (symmetry; apply Nat.eqb_neq; lia) ]
  | |- context [(?a <? ?b)%nat] =>
      first [ replace (a <? b)%nat with true
                by (symmetry; apply Nat.ltb_lt; lia)
            | replace (a <? b)%nat with false
                by (symmetry; apply Nat.ltb_ge; lia) ]
  | |- context [(?a <=? ?b)%nat] =>
      first [ replace (a <=? b)%nat with true
                by (symmetry; apply Nat.leb_le; lia)
            | replace (a <=? b)%nat with false
                by (symmetry; apply Nat.leb_gt; lia) ]
  end;
  cbn [andb orb negb].

(** ** Operators on all-zero arrays *)

Lemma is_zero_mk (n : nat) (f : nat -> nat -> Q) :
  (forall i j, f i j == 0) -> is_zero (mk n f).
Proof.
  intros Hf i j. rewrite get_mk. destruct (_ && _)%bool; [apply Hf | reflexivity].
Qed.

Lemma is_zero_zeros (n : nat) : is_zero (zeros n).
Proof. intros i j. rewrite get_zeros. reflexivity. Qed.

Lemma is_zero_assign (x : Field) P rhs :
  is_zero x -> (forall i j, rhs i j == 0) -> is_zero (assign x P rhs).
Proof.
  intros Hx Hr. apply is_zero_mk. intros i j.
  destruct (P i j); [apply Hr | apply Hx].
Qed.

Lemma is_zero_set_cell x i j v : is_zero x -> v == 0 -> is_zero (set_cell x i j v).
Proof. intros Hx Hv. apply is_zero_assign; [exact Hx | intros; exact Hv]. Qed.

Lemma is_zero_set_row x i lo hi rhs :
  is_zero x -> (forall j, rhs j == 0) -> is_zero (set_row x i lo hi rhs).
Proof. intros Hx Hr. apply is_zero_assign; [exact Hx | intros; apply Hr]. Qed.

Lemma is_zero_set_col x j lo hi rhs :
  is_zero x -> (forall i, rhs i == 0) -> is_zero (set_col x j lo hi rhs).
Proof. intros Hx Hr. apply is_zero_assign; [exact Hx | intros; apply Hr]. Qed.

Lemma is_zero_set_block x lo hi rhs :
  is_zero x -> (forall i j, rhs i j == 0) -> is_zero (set_block x lo hi rhs).
Proof. intros Hx Hr. apply is_zero_assign; assumption. Qed.

Lemma is_zero_set_rect x a b c e rhs :
  is_zero x -> (forall i j, rhs i j == 0) -> is_zero (set_rect x a b c e rhs).
Proof. intros Hx Hr. apply is_zero_assign; assumption. Qed.

Lemma is_zero_fill x : is_zero (fill x 0).
Proof.
  intros i j. rewrite get_fill. destruct (_ && _)%bool; reflexivity.
Qed.

Lemma is_zero_copy_into x y : is_zero y -> is_zero (copy_into x y).
Proof.
  intros Hy i j. rewrite get_copy_into. destruct (_ && _)%bool; [apply Hy | reflexivity].
Qed.

Lemma is_zero_map2_r (f : Q -> Q -> Q) x y :
  (forall a w, w == 0 -> f a w == 0) -> is_zero y -> is_zero (map2 f x y).
Proof.
  intros Hf Hy i j. rewrite get_map2.
  destruct (_ && _)%bool; [apply Hf, Hy | reflexivity].
Qed.

Lemma flip_if_zero (b k : Z) (q : Q) : q == 0 -> flip_if b k q == 0.
Proof.
  intros Hq. unfold flip_if. destruct (b =? k)%Z; rewrite Hq; reflexivity.
Qed.

Lemma is_zero_getZ (x : Field) (i j : Z) : is_zero x -> getZ x i j == 0.
Proof.
  intros Hx. unfold getZ.
  destruct (py_index (rows x) i); [| reflexivity].
  destruct (py_index (rows x) j); [apply Hx | reflexivity].
Qed.

Lemma bilinear_zero (d0 : Field) (k : Sample) : is_zero d0 -> bilinear d0 k == 0.
Proof.
  intros H. unfold bilinear. rewrite !(is_zero_getZ d0) by exact H. ring.
Qed.

Lemma repeat_n_inv (A : Type) (P : A -> Prop) (f : A -> A) (n : nat) (a : A) :
  (forall y, P y -> P (f y)) -> P a -> P (repeat_n n f a).
Proof.
  intros Hf. revert a. induction n as [| k IH]; intros a Ha; simpl.
  - exact Ha.
  - apply IH, Hf, Ha.
Qed.

(** Replacing every read of an all-zero array by 0. *)
Ltac zero_cells :=
  repeat match goal with
  | H : is_zero ?x |- context [get ?x ?i ?j] => rewrite (H i j)
  end.

Lemma edge_row_zero (x : Field) (b k : Z) (i lo hi a : nat) :
  is_zero x ->
  is_zero (set_row x i lo hi (fun j => flip_if b k (get x a j))).
Proof.
  intros Hx. apply is_zero_set_row; [exact Hx |].
  intros j. apply flip_if_zero, Hx.
Qed.

Lemma edge_col_zero (x : Field) (b k : Z) (j lo hi c : nat) :
  is_zero x ->
  is_zero (set_col x j lo hi (fun i => flip_if b k (get x i c))).
Proof.
  intros Hx. apply is_zero_set_col; [exact Hx |].
  intros i. apply flip_if_zero, Hx.
Qed.

Lemma corner_zero (x : Field) (i j a b c e : nat) :
  is_zero x ->
  is_zero (set_cell x i j (0.5 * (get x a b + get x c e))).
Proof.
  intros Hx. apply is_zero_set_cell; [exact Hx |].
  rewrite (Hx a b), (Hx c e). reflexivity.
Qed.

Ltac bnd_zero :=
  cbv zeta;
  do 4 apply corner_zero; do 2 apply edge_col_zero; do 2 apply edge_row_zero.

Lemma thinking_set_bnd_zero (b : Z) (x : Field) :
  is_zero x -> is_zero (Thinking.set_bnd b x).
Proof. intros Hx. unfold Thinking.set_bnd. bnd_zero. exact Hx. Qed.

Lemma pro_set_bnd_zero (pr : Pro.Params) (b : Z) (x : Field) :
  is_zero x -> is_zero (Pro.set_bnd pr b x).
Proof. intros Hx. unfold Pro.set_bnd. bnd_zero. exact Hx. Qed.

Lemma base_set_bnd_zero (b : Z) (x : Field) :
  is_zero x -> is_zero (Base.set_bnd b x).
Proof. intros Hx. unfold Base.set_bnd. bnd_zero. exact Hx. Qed.

(** ** The boundary rule *)

Section BoundaryRule.

Variable n : nat.
Variable b : Z.
Variable x : Field.
Hypothesis Hrows : rows x = (n + 2)%nat.

(** The array after each of the eight assignments of [set_bnd]. *)
Let x1 := set_row x 0 1 (n + 1) (fun j => flip_if b 1 (get x 1 j)).
Let x2 := set_row x1 (n + 1) 1 (n + 1) (fun j => flip_if b 1 (get x1 n j)).
Let x3 := set_col x2 0 1 (n + 1) (fun i => flip_if b 2 (get x2 i 1)).
Let x4 := set_col x3 (n + 1) 1 (n + 1) (fun i => flip_if b 2 (get x3 i n)).
Let x5 := set_cell x4 0 0 (0.5 * (get x4 1 0 + get x4 0 1)).
Let x6 := set_cell x5 0 (n + 1) (0.5 * (get x5 1 (n + 1) + get x5 0 n)).
Let x7 := set_cell x6 (n + 1) 0 (0.5 * (get x6 n 0 + get x6 (n + 1) 1)).
Let x8 := set_cell x7 (n + 1) (n + 1)
            (0.5 * (get x7 n (n + 1) + get x7 (n + 1) n)).

Lemma thinking_dimN : Thinking.dimN x = n.
Proof. unfold Thinking.dimN. lia. Qed.

Lemma thinking_set_bnd_stages : Thinking.set_bnd b x = x8.
Proof. unfold Thinking.set_bnd. rewrite thinking_dimN. reflexivity. Qed.

Lemma stage_rows :
  rows x1 = (n + 2)%nat /\ rows x2 = (n + 2)%nat /\ rows x3 = (n + 2)%nat /\
  rows x4 = (n + 2)%nat /\ rows x5 = (n + 2)%nat /\ rows x6 = (n + 2)%nat /\
  rows x7 = (n + 2)%nat /\ rows x8 = (n + 2)%nat.
Proof.
  unfold x8, x7, x6, x5, x4, x3, x2, x1.
  autorewrite with grid_rows. repeat split; exact Hrows.
Qed.

Ltac peel X :=
  unfold X; rewrite ?get_set_cell, ?get_set_row, ?get_set_col;
  unfold in_slice; settle_tests.

Ltac stages :=
  rewrite thinking_set_bnd_stages;
  destruct stage_rows as (R1 & R2 & R3 & R4 & R5 & R6 & R7 & R8).

Ltac peel_all := peel x8; peel x7; peel x6; peel x5; peel x4; peel x3; peel x2; peel x1.

Lemma thinking_set_bnd_rows : rows (Thinking.set_bnd b x) = rows x.
Proof. stages. congruence. Qed.

Lemma thinking_set_bnd_interior (i j : nat) :
  (1 <= i <= n)%nat -> (1 <= j <= n)%nat ->
  get (Thinking.set_bnd b x) i j = get x i j.
Proof. intros Hi Hj. stages. peel_all. reflexivity. Qed.

Lemma thinking_set_bnd_row_lo (j : nat) :
  (1 <= j <= n)%nat ->
  get (Thinking.set_bnd b x) 0 j = flip_if b 1 (get x 1 j).
Proof. intros Hj. stages. peel_all. reflexivity. Qed.

Lemma thinking_set_bnd_row_hi (j : nat) :
  (1 <= j <= n)%nat ->
  get (Thinking.set_bnd b x) (n + 1) j = flip_if b 1 (get x n j).
Proof. intros Hj. stages. peel_all. reflexivity. Qed.

Lemma thinking_set_bnd_col_lo (i : nat) :
  (1 <= i <= n)%nat ->
  get (Thinking.set_bnd b x) i 0 = flip_if b 2 (get x i 1).
Proof. intros Hi. stages. peel_all. reflexivity. Qed.

Lemma thinking_set_bnd_col_hi (i : nat) :
  (1 <= i <= n)%nat ->
  get (Thinking.set_bnd b x) i (n + 1) = flip_if b 2 (get x i n).
Proof. intros Hi. stages. peel_all. reflexivity. Qed.

(** With at least one interior cell, the four corner assignments read
    edge cells that no later assignment rewrites. *)
Lemma thinking_set_bnd_corners :
  (1 <= n)%nat ->
  let y := Thinking.set_bnd b x in
  get y 0 0 = 0.5 * (get y 1 0 + get y 0 1) /\
  get y 0 (n + 1) = 0.5 * (get y 1 (n + 1) + get y 0 n) /\
  get y (n + 1) 0 = 0.5 * (get y n 0 + get y (n + 1) 1) /\
  get y (n + 1) (n + 1) = 0.5 * (get y n (n + 1) + get y (n + 1) n).
Proof.
  intros Hn y. subst y. stages.
  repeat split.
  - peel x8. peel x7. peel x6. peel x5. reflexivity.
  - peel x8. peel x7. peel x6. reflexivity.
  - peel x8. peel x7. reflexivity.
  - peel x8. reflexivity.
Qed.

Lemma base_set_bnd_eq : Base.set_bnd b x = Thinking.set_bnd b x.
Proof.
  unfold Base.set_bnd, Thinking.set_bnd. rewrite thinking_dimN.
  replace (rows x - 1)%nat with (n + 1)%nat by lia.
  replace (rows x - 2)%nat with n by lia.
  reflexivity.
Qed.

Lemma pro_set_bnd_eq (pr : Pro.Params) :
  Pro.N pr = n -> Pro.set_bnd pr b x = Thinking.set_bnd b x.
Proof.
  intros HN. unfold Pro.set_bnd, Thinking.set_bnd. rewrite thinking_dimN, HN.
  replace (rows x - 1)%nat with (n + 1)%nat by lia.
  reflexivity.
Qed.

End BoundaryRule.

(** ** Claims about the boundary rule *)

(** C8.  In each of the three variants the boundary rule leaves every
    interior cell [(i, j)], [1 <= i, j <= n], of an [(n+2)] by [(n+2)]
    field exactly as it was, for every kind [b]. *)
Theorem set_bnd_interior_untouched
    (n : nat) (pr : Pro.Params) (b : Z) (x : Field) (i j : nat) :
  has_shape (n + 2) x = true ->
  Pro.N pr = n ->
  (1 <= i <= n)%nat -> (1 <= j <= n)%nat ->
  get (Base.set_bnd b x) i j = get x i j /\
  get (Pro.set_bnd pr b x) i j = get x i j /\
  get (Thinking.set_bnd b x) i j = get x i j.
Proof.
  intros Hs Hpr Hi Hj. apply has_shape_rows in Hs.
  split; [| split].
  - rewrite (base_set_bnd_eq n) by exact Hs.
    apply (thinking_set_bnd_interior n); assumption.
  - rewrite (pro_set_bnd_eq n) by assumption.
    apply (thinking_set_bnd_interior n); assumption.
  - apply (thinking_set_bnd_interior n); assumption.
Qed.

Lemma set_bnd_interior_untouched_witness :
  get (Base.set_bnd 1 sample_grid) 2 3 = get sample_grid 2 3 /\
  get (Pro.set_bnd sample_params 1 sample_grid) 2 3 = get sample_grid 2 3 /\
  get (Thinking.set_bnd 1 sample_grid) 2 3 = get sample_grid 2 3.
Proof.
  apply (set_bnd_interior_untouched 3 sample_params 1 sample_grid 2 3);
    [reflexivity | reflexivity | lia | lia].
Defined.

(** C4.  Under kind 1 (horizontal velocity) ghost row 0 is the negation
    of row 1 and ghost row [n+1] the negation of row [n] at every
    interior column; under kind 0 (scalar) ghost row 0 equals row 1.
    In particular a row 1 holding 5 gives -5 under kind 1 and 5 under
    kind 0.  This holds for the boundary rule of the base, pro and
    thinking variants. *)
Theorem set_bnd_ghost_rows (n : nat) (pr : Pro.Params) (x : Field) (j : nat) :
  has_shape (n + 2) x = true ->
  Pro.N pr = n ->
  (1 <= j <= n)%nat ->
  reflects_rows n x j Base.set_bnd /\
  reflects_rows n x j (Pro.set_bnd pr) /\
  reflects_rows n x j Thinking.set_bnd.
Proof.
  intros Hs Hpr Hj. apply has_shape_rows in Hs.
  assert (T : reflects_rows n x j Thinking.set_bnd).
  { unfold reflects_rows.
    rewrite (thinking_set_bnd_row_lo n 1 x Hs j Hj).
    rewrite (thinking_set_bnd_row_lo n 0 x Hs j Hj).
    rewrite (thinking_set_bnd_row_hi n 1 x Hs j Hj).
    rewrite (thinking_set_bnd_interior n 1 x Hs 1 j) by lia.
    rewrite (thinking_set_bnd_interior n 0 x Hs 1 j) by lia.
    rewrite (thinking_set_bnd_interior n 1 x Hs n j) by lia.
    unfold flip_if. simpl.
    split; [reflexivity | split; [reflexivity | split; [reflexivity |]]].
    intros ->. split; reflexivity. }
  split; [| split; [| exact T]].
  - unfold reflects_rows.
    rewrite (base_set_bnd_eq n 1 x Hs), (base_set_bnd_eq n 0 x Hs). exact T.
  - unfold reflects_rows.
    rewrite (pro_set_bnd_eq n 1 x Hs pr Hpr), (pro_set_bnd_eq n 0 x Hs pr Hpr).
    exact T.
Qed.

Lemma set_bnd_ghost_rows_witness :
  (get (Base.set_bnd 1 row1_five) 0 2 = - (5) /\
   get (Base.set_bnd 0 row1_five) 0 2 = 5) /\
  (get (Pro.set_bnd sample_params 1 row1_five) 0 2 = - (5) /\
   get (Pro.set_bnd sample_params 0 row1_five) 0 2 = 5) /\
  (get (Thinking.set_bnd 1 row1_five) 0 2 = - (5) /\
   get (Thinking.set_bnd 0 row1_five) 0 2 = 5).
Proof.
  assert (Hj : (1 <= 2 <= 3)%nat) by lia.
  destruct (set_bnd_ghost_rows 3 sample_params row1_five 2 eq_refl eq_refl Hj)
    as ((_ & _ & _ & B) & (_ & _ & _ & P) & (_ & _ & _ & T)).
  split; [apply B; reflexivity | split; [apply P | apply T]; reflexivity].
Defined.

(** C5.  On a grid with at least one interior cell, after the boundary
    rule of any of the three variants and for every kind [b], each
    corner cell is half the sum of its two adjacent edge cells; in
    particular cell (0,0) is [0.5 * (field[1,0] + field[0,1])]. *)
Theorem set_bnd_corner_average (n : nat) (pr : Pro.Params) (b : Z) (x : Field) :
  has_shape (n + 2) x = true ->
  Pro.N pr = n ->
  (1 <= n)%nat ->
  corners_averaged n (Base.set_bnd b x) /\
  corners_averaged n (Pro.set_bnd pr b x) /\
  corners_averaged n (Thinking.set_bnd b x).
Proof.
  intros Hs Hpr Hn. apply has_shape_rows in Hs.
  rewrite (base_set_bnd_eq n) by exact Hs.
  rewrite (pro_set_bnd_eq n) by assumption.
  pose proof (thinking_set_bnd_corners n b x Hs Hn) as T.
  repeat split; apply T.
Qed.

Lemma set_bnd_corner_average_witness :
  corners_averaged 3 (Base.set_bnd 2 sample_grid) /\
  corners_averaged 3 (Pro.set_bnd sample_params 2 sample_grid) /\
  corners_averaged 3 (Thinking.set_bnd 2 sample_grid).
Proof.
  apply (set_bnd_corner_average 3 sample_params 2 sample_grid);
    [reflexivity | reflexivity | lia].
Defined.

(** ** Source injection *)

(** C10.  In each variant [add_source] rewrites every cell of the
    full [(n+2)] by [(n+2)] grid, ghost cells included, to
    [field[c] + dt * source[c]], and applies no boundary rule: the
    ghost cells of the result are given by the same formula. *)
Theorem add_source_every_cell (n : nat) (x s : Field) (dt : Q) (i j : nat) :
  has_shape (n + 2) x = true ->
  (i <= n + 1)%nat -> (j <= n + 1)%nat ->
  get (Base.add_source dt x s) i j = get x i j + dt * get s i j /\
  get (Pro.add_source x s dt) i j = get x i j + dt * get s i j /\
  get (Thinking.add_source x s dt) i j = get x i j + dt * get s i j.
Proof.
  intros Hs Hi Hj. apply has_shape_rows in Hs.
  unfold Base.add_source, Pro.add_source, Thinking.add_source.
  rewrite !get_assign, Hs. settle_tests. repeat split.
Qed.

Lemma add_source_every_cell_witness :
  get (Base.add_source (1 # 10) sample_grid ghost_source) 0 2
    = get sample_grid 0 2 + (1 # 10) * get ghost_source 0 2 /\
  get (Pro.add_source sample_grid ghost_source (1 # 10)) 0 2
    = get sample_grid 0 2 + (1 # 10) * get ghost_source 0 2 /\
  get (Thinking.add_source sample_grid ghost_source (1 # 10)) 0 2
    = get sample_grid 0 2 + (1 # 10) * get ghost_source 0 2.
Proof.
  apply (add_source_every_cell 3 sample_grid ghost_source (1 # 10) 0 2);
    [reflexivity | lia | lia].
Defined.

(** The ghost cell of a zero field takes the source's ghost value. *)
Lemma add_source_ghost_transfer :
  get (Pro.add_source (zeros 5) ghost_source 1) 0 2 == 7.
Proof. vm_compute. reflexivity. Qed.

(** ** The backtrace of [advect] *)

Lemma clip_bounds (q lo hi : Q) : lo <= hi -> lo <= clip q lo hi <= hi.
Proof.
  intros Hle. unfold clip. split.
  - apply Q.min_glb; [apply Q.le_max_r | exact Hle].
  - apply Q.le_min_r.
Qed.

Lemma clip_inside (q lo hi : Q) : lo <= q <= hi -> clip q lo hi == q.
Proof.
  intros [Hlo Hhi]. unfold clip.
  rewrite (Q.max_l q lo) by exact Hlo.
  apply Q.min_l. exact Hhi.
Qed.

Lemma Qtrunc_nonneg (q : Q) : 0 <= q -> Qtrunc q = Qfloor q.
Proof.
  intros Hq. unfold Qtrunc. destruct q as [a d]. simpl.
  assert (Ha : (0 <= a)%Z).
  { unfold Qle in Hq. simpl in Hq. lia. }
  apply Z.quot_div_nonneg; lia.
Qed.

Lemma Qn_half_le (n : nat) : 0.5 <= Qn n + 0.5.
Proof.
  unfold Qn. assert (H : 0 <= inject_Z (Z.of_nat n)).
  { change 0 with (inject_Z 0). rewrite <- Zle_Qle. lia. }
  lra.
Qed.

(** The integer part of a coordinate clamped to [0.5, n + 0.5]. *)
Lemma floor_of_clamped (n : nat) (q : Q) :
  0.5 <= q <= Qn n + 0.5 -> (0 <= Qfloor q <= Z.of_nat n)%Z.
Proof.
  intros [Hlo Hhi]. split.
  - change 0%Z with (Qfloor 0.5). apply Qfloor_resp_le. exact Hlo.
  - assert (H : (Qfloor q < Z.of_nat n + 1)%Z).
    { rewrite Zlt_Qlt. apply Qle_lt_trans with q; [apply Qfloor_le |].
      rewrite inject_Z_plus. unfold Qn in Hhi. change (inject_Z 1) with 1. lra. }
    lia.
Qed.

Lemma py_index_inside (len : nat) (k : Z) :
  (0 <= k < Z.of_nat len)%Z -> py_index len k = Some (Z.to_nat k).
Proof.
  intros [H0 H1]. unfold py_index.
  destruct (Z.leb_spec 0 k); [| lia].
  destruct (Z.ltb_spec k (Z.of_nat len)); [reflexivity | lia].
Qed.

Lemma sample_of_clamped (n : nat) (x y : Q) (a b : Z) :
  0.5 <= x <= Qn n + 0.5 -> 0.5 <= y <= Qn n + 0.5 ->
  a = Qfloor x -> b = Qfloor y ->
  sample_in_bounds n
    (mkSample a (a + 1) b (b + 1)
       (1 - (x - inject_Z a)) (x - inject_Z a)
       (1 - (y - inject_Z b)) (y - inject_Z b)).
Proof.
  intros Hx Hy -> ->.
  pose proof (floor_of_clamped n x Hx) as Fx.
  pose proof (floor_of_clamped n y Hy) as Fy.
  unfold sample_in_bounds. cbn [i0 i1 j0 j1 s0 s1 t0 t1].
  repeat split; try lia; try lra;
    apply py_index_inside; lia.
Qed.

(** C7.  In every variant, for every velocity field, every [dt] and
    every cell, the backtraced coordinates are clamped to
    [0.5, N + 0.5], so the four sample subscripts [i0], [i0 + 1], [j0],
    [j0 + 1] lie in [0, N + 1] and every read of the gather is inside
    the array. *)
Theorem advect_samples_in_bounds
    (n : nat) (pr : Pro.Params) (u v : Field) (dt : Q) (i j : nat) :
  sample_in_bounds n (Base.backtrace n dt u v i j) /\
  sample_in_bounds (Pro.N pr) (Pro.backtrace pr u v dt i j) /\
  sample_in_bounds n (Thinking.backtrace n u v dt i j).
Proof.
  split; [| split].
  - unfold Base.backtrace. cbv zeta.
    apply sample_of_clamped; try reflexivity; apply clip_bounds, Qn_half_le.
  - unfold Pro.backtrace. cbv zeta.
    apply sample_of_clamped;
      try (apply clip_bounds, Qn_half_le);
      apply Qtrunc_nonneg;
      (apply Qle_trans with 0.5;
       [discriminate | apply clip_bounds, Qn_half_le]).
  - unfold Thinking.backtrace. cbv zeta.
    apply sample_of_clamped; try reflexivity; apply clip_bounds, Qn_half_le.
Qed.

(** A coordinate that is a cell centre stays put under the clamp, and
    its integer part is the cell's own subscript. *)
Lemma centre_coordinate (n i : nat) (q : Q) :
  (1 <= i <= n)%nat -> q == Qn i ->
  Qfloor (clip q 0.5 (Qn n + 0.5)) = Z.of_nat i /\
  Qtrunc (clip q 0.5 (Qn n + 0.5)) = Z.of_nat i /\
  clip q 0.5 (Qn n + 0.5) == Qn i.
Proof.
  intros Hi Hq.
  assert (H1 : 1 <= Qn i).
  { unfold Qn. change 1 with (inject_Z 1). rewrite <- Zle_Qle. lia. }
  assert (H2 : Qn i <= Qn n).
  { unfold Qn. rewrite <- Zle_Qle. lia. }
  assert (Hc : clip q 0.5 (Qn n + 0.5) == Qn i).
  { rewrite clip_inside; [exact Hq |]. rewrite Hq. split; lra. }
  assert (Hf : Qfloor (clip q 0.5 (Qn n + 0.5)) = Z.of_nat i).
  { rewrite (Qfloor_comp _ _ Hc). unfold Qn. apply Qfloor_Z. }
  split; [exact Hf | split; [| exact Hc]].
  rewrite Qtrunc_nonneg; [exact Hf |]. rewrite Hc. lra.
Qed.

Lemma getZ_inside (x : Field) (i j : nat) :
  (i < rows x)%nat -> (j < rows x)%nat ->
  getZ x (Z.of_nat i) (Z.of_nat j) = get x i j.
Proof.
  intros Hi Hj. unfold getZ.
  rewrite !py_index_inside by lia. rewrite !Nat2Z.id. reflexivity.
Qed.

(** The bilinear blend at a sample that sits on a cell centre. *)
Lemma bilinear_centre (d0 : Field) (k : Sample) (i j : nat) :
  (i < rows d0)%nat -> (j < rows d0)%nat ->
  i0 k = Z.of_nat i -> j0 k = Z.of_nat j ->
  s1 k == 0 -> s0 k == 1 -> t1 k == 0 -> t0 k == 1 ->
  bilinear d0 k == get d0 i j.
Proof.
  intros Hi Hj Ei Ej Es1 Es0 Et1 Et0. unfold bilinear.
  rewrite Ei, Ej, Es1, Es0, Et1, Et0, getZ_inside by assumption. ring.
Qed.

Section ZeroVelocity.

Variable n : nat.
Variables d d0 u v : Field.
Variables i j : nat.
Hypothesis Hd : rows d = (n + 2)%nat.
Hypothesis Hd0 : rows d0 = (n + 2)%nat.
Hypothesis Hu : is_zero u.
Hypothesis Hv : is_zero v.
Hypothesis Hi : (1 <= i <= n)%nat.
Hypothesis Hj : (1 <= j <= n)%nat.

Lemma still_x (c : Q) : Qn i - c * get u i j == Qn i.
Proof. rewrite (Hu i j). ring. Qed.

Lemma still_y (c : Q) : Qn j - c * get v i j == Qn j.
Proof. rewrite (Hv i j). ring. Qed.

Ltac on_centre Hx Hy :=
  apply bilinear_centre; cbn [i0 i1 j0 j1 s0 s1 t0 t1];
  try lia;
  destruct (centre_coordinate n i _ Hi Hx) as (Fx & Tx & Cx);
  destruct (centre_coordinate n j _ Hj Hy) as (Fy & Ty & Cy);
  try assumption;
  rewrite ?Fx, ?Fy, ?Tx, ?Ty, ?Cx, ?Cy; unfold Qn; ring.

Lemma thinking_advect_still (b : Z) (dt : Q) :
  get (Thinking.advect b d d0 u v dt) i j == get d0 i j.
Proof.
  unfold Thinking.advect. rewrite (thinking_dimN n d Hd). cbv zeta.
  rewrite (thinking_set_bnd_interior n) by (autorewrite with grid_rows; assumption).
  rewrite get_set_block. unfold in_slice. settle_tests.
  unfold Thinking.backtrace. cbv zeta.
  pose proof (still_x (dt * Qn n)) as Hx.
  pose proof (still_y (dt * Qn n)) as Hy.
  on_centre Hx Hy.
Qed.

Lemma base_advect_still (b : Z) (DT : Q) :
  get (Base.advect n DT b d d0 u v) i j == get d0 i j.
Proof.
  unfold Base.advect. cbv zeta.
  rewrite (base_set_bnd_eq n) by (autorewrite with grid_rows; assumption).
  rewrite (thinking_set_bnd_interior n) by (autorewrite with grid_rows; assumption).
  rewrite get_set_block. unfold in_slice. settle_tests.
  unfold Base.backtrace. cbv zeta.
  pose proof (still_x (DT * Qn n)) as Hx.
  pose proof (still_y (DT * Qn n)) as Hy.
  on_centre Hx Hy.
Qed.

Lemma pro_advect_still (pr : Pro.Params) (b : Z) (dt : Q) :
  Pro.N pr = n ->
  get (Pro.advect pr b d d0 u v dt) i j == get d0 i j.
Proof.
  intros Hpr. unfold Pro.advect. cbv zeta.
  rewrite (pro_set_bnd_eq n) by (autorewrite with grid_rows; assumption).
  rewrite (thinking_set_bnd_interior n) by (autorewrite with grid_rows; assumption).
  rewrite get_set_block. unfold in_slice. settle_tests.
  unfold Pro.backtrace. rewrite Hpr. cbv zeta.
  pose proof (still_x (dt * Qn n)) as Hx.
  pose proof (still_y (dt * Qn n)) as Hy.
  on_centre Hx Hy.
Qed.

End ZeroVelocity.

(** C6.  If the transporting fields [u] and [v] are zero at every
    cell then, for every source [d0], destination [d], kind [b] and
    time step, [advect] writes [d[i, j] = d0[i, j]] at every interior
    cell, in each of the three variants. *)
Theorem advect_zero_velocity_copies
    (n : nat) (pr : Pro.Params) (b : Z) (d d0 u v : Field) (dt : Q) (i j : nat) :
  has_shape (n + 2) d = true ->
  has_shape (n + 2) d0 = true ->
  Pro.N pr = n ->
  is_zero u -> is_zero v ->
  (1 <= i <= n)%nat -> (1 <= j <= n)%nat ->
  get (Base.advect n dt b d d0 u v) i j == get d0 i j /\
  get (Pro.advect pr b d d0 u v dt) i j == get d0 i j /\
  get (Thinking.advect b d d0 u v dt) i j == get d0 i j.
Proof.
  intros Hd Hd0 Hpr Hu Hv Hi Hj.
  apply has_shape_rows in Hd. apply has_shape_rows in Hd0.
  split; [| split].
  - apply base_advect_still; assumption.
  - apply (pro_advect_still n); assumption.
  - apply (thinking_advect_still n); assumption.
Qed.

Lemma advect_zero_velocity_copies_witness :
  get (Base.advect 3 (1 # 10) 0 (zeros 5) sample_grid (zeros 5) (zeros 5)) 2 3
    == get sample_grid 2 3 /\
  get (Pro.advect sample_params 0 (zeros 5) sample_grid (zeros 5) (zeros 5)
         (1 # 10)) 2 3 == get sample_grid 2 3 /\
  get (Thinking.advect 0 (zeros 5) sample_grid (zeros 5) (zeros 5) (1 # 10)) 2 3
    == get sample_grid 2 3.
Proof.
  apply (advect_zero_velocity_copies 3 sample_params 0 (zeros 5) sample_grid
           (zeros 5) (zeros 5) (1 # 10) 2 3);
    first [ reflexivity | apply is_zero_zeros | lia ].
Defined.

(** ** Diffusion with a zero coefficient *)

Lemma repeat_n_last (A : Type) (f : A -> A) (k : nat) (a : A) :
  repeat_n (S k) f a = f (repeat_n k f a).
Proof.
  revert a. induction k as [| k IH]; intros a.
  - reflexivity.
  - change (repeat_n (S (S k)) f a) with (repeat_n (S k) f (f a)).
    rewrite IH. reflexivity.
Qed.

Lemma base_set_bnd_rows (b : Z) (x : Field) : rows (Base.set_bnd b x) = rows x.
Proof. unfold Base.set_bnd. cbv zeta. autorewrite with grid_rows. reflexivity. Qed.

Lemma pro_set_bnd_rows (pr : Pro.Params) (b : Z) (x : Field) :
  rows (Pro.set_bnd pr b x) = rows x.
Proof. unfold Pro.set_bnd. cbv zeta. autorewrite with grid_rows. reflexivity. Qed.

Lemma thinking_set_bnd_rows' (b : Z) (x : Field) :
  rows (Thinking.set_bnd b x) = rows x.
Proof. unfold Thinking.set_bnd. cbv zeta. autorewrite with grid_rows. reflexivity. Qed.

#[export] Hint Rewrite base_set_bnd_rows pro_set_bnd_rows thinking_set_bnd_rows'
  : grid_rows.

Lemma flip_if_proper (b k : Z) (q q' : Q) :
  q == q' -> flip_if b k q == flip_if b k q'.
Proof.
  intros H. unfold flip_if. destruct (b =? k)%Z; rewrite H; reflexivity.
Qed.

(** The boundary rule applied to an array whose interior is the
    reference's. *)
Lemma copy_then_bnd (n : nat) (b : Z) (x0 y : Field) (i j : nat) :
  rows y = (n + 2)%nat ->
  (forall i' j', (1 <= i' <= n)%nat -> (1 <= j' <= n)%nat ->
     get y i' j' == get x0 i' j') ->
  (1 <= i <= n)%nat -> (1 <= j <= n)%nat ->
  copied_at n b x0 (Thinking.set_bnd b y) i j.
Proof.
  intros Hy Hc Hi Hj. unfold copied_at.
  rewrite (thinking_set_bnd_interior n b y Hy i j Hi Hj).
  rewrite (thinking_set_bnd_row_lo n b y Hy j Hj).
  rewrite (thinking_set_bnd_row_hi n b y Hy j Hj).
  rewrite (thinking_set_bnd_col_lo n b y Hy i Hi).
  rewrite (thinking_set_bnd_col_hi n b y Hy i Hi).
  repeat split; try apply flip_if_proper; apply Hc; lia.
Qed.

(** The denominator [1 + 4 * a] of a diffusion is not zero when the
    weight [a] is zero or positive. *)
Lemma denominator_positive (a : Q) : 0 <= a -> Qeq_bool (1 + 4 * a) 0 = false.
Proof.
  intros Ha. apply not_true_is_false. intros H.
  apply Qeq_bool_iff in H. lra.
Qed.

Lemma denominator_one (a : Q) : a == 0 -> Qeq_bool (1 + 4 * a) 0 = false.
Proof. intros Ha. apply denominator_positive. rewrite Ha. apply Qle_refl. Qed.

Lemma weight_nonneg (dt diff : Q) (n : nat) :
  0 <= dt * diff -> 0 <= dt * diff * Qn n * Qn n.
Proof.
  intros H.
  assert (Hn : 0 <= Qn n).
  { unfold Qn. change 0 with (inject_Z 0). rewrite <- Zle_Qle. lia. }
  rewrite <- Qmult_assoc. apply Qmult_le_0_compat; [exact H |].
  apply Qmult_le_0_compat; exact Hn.
Qed.

(** A loop of sweeps that all return under an invariant returns, and
    its result has what the last sweep establishes. *)
Lemma repeat_opt_inv (A : Type) (P : A -> Prop) (f : A -> option A)
    (k : nat) (a : A) :
  (forall y, P y -> exists y', f y = Some y' /\ P y') ->
  P a -> exists r, repeat_opt k f a = Some r /\ P r.
Proof.
  intros Hf. revert a. induction k as [| k IH]; intros a Ha; simpl.
  - exists a. split; [reflexivity | exact Ha].
  - destruct (Hf a Ha) as (y & E & Hy). rewrite E. apply IH, Hy.
Qed.

Lemma repeat_opt_last (A : Type) (P Q : A -> Prop) (f : A -> option A)
    (k : nat) (a : A) :
  (forall y, P y -> exists y', f y = Some y' /\ P y' /\ Q y') ->
  P a -> exists r, repeat_opt (S k) f a = Some r /\ P r /\ Q r.
Proof.
  intros Hf. revert a. induction k as [| k IH]; intros a Ha.
  - simpl. destruct (Hf a Ha) as (y & E & Hy & Qy). rewrite E.
    exists y. repeat split; assumption.
  - change (repeat_opt (S (S k)) f a)
      with (match f a with Some a' => repeat_opt (S k) f a' | None => None end).
    destruct (Hf a Ha) as (y & E & Hy & _). rewrite E. apply IH, Hy.
Qed.

Section ZeroCoefficient.

Variable n : nat.
Variable b : Z.
Variable x0 : Field.
Variable a : Q.
Hypothesis Ha : a == 0.
Variables i j : nat.
Hypothesis Hi : (1 <= i <= n)%nat.
Hypothesis Hj : (1 <= j <= n)%nat.

Ltac block_copies :=
  let i' := fresh "i'" in
  let j' := fresh "j'" in
  intros i' j' ? ?;
  rewrite get_set_block; unfold in_slice; settle_tests;
  rewrite Ha; field.

Lemma base_sweep_copies (x : Field) :
  rows x = (n + 2)%nat ->
  exists y, Base.diffuse_sweep b a x0 x = Some y /\
            rows y = (n + 2)%nat /\ copied_at n b x0 y i j.
Proof.
  intros Hx. unfold Base.diffuse_sweep. cbv zeta.
  rewrite (denominator_one a Ha). cbn [andb].
  eexists. split; [reflexivity |]. split.
  - rewrite base_set_bnd_rows, rows_set_block. exact Hx.
  - rewrite (base_set_bnd_eq n) by (rewrite rows_set_block; assumption).
    apply copy_then_bnd; try assumption; [rewrite rows_set_block; assumption |].
    block_copies.
Qed.

Lemma pro_sweep_copies (pr : Pro.Params) (x : Field) :
  Pro.N pr = n -> rows x = (n + 2)%nat ->
  copied_at n b x0 (Pro.diffuse_sweep pr b a (1 / (1 + 4 * a)) x0 x) i j.
Proof.
  intros Hpr Hx. unfold Pro.diffuse_sweep. cbv zeta.
  rewrite (pro_set_bnd_eq n) by (try rewrite rows_set_block; assumption).
  apply copy_then_bnd; try assumption; [rewrite rows_set_block; assumption |].
  block_copies.
Qed.

Lemma thinking_sweep_copies (x : Field) :
  rows x = (n + 2)%nat ->
  copied_at n b x0 (Thinking.lin_sweep b a (1 / (1 + 4 * a)) x0 x) i j.
Proof.
  intros Hx. unfold Thinking.lin_sweep. rewrite (thinking_dimN n x Hx). cbv zeta.
  apply copy_then_bnd; try assumption; [rewrite rows_set_block; assumption |].
  block_copies.
Qed.

End ZeroCoefficient.

Lemma pro_sweep_rows pr b a c x0 x :
  rows (Pro.diffuse_sweep pr b a c x0 x) = rows x.
Proof.
  unfold Pro.diffuse_sweep. cbv zeta.
  rewrite pro_set_bnd_rows, rows_set_block. reflexivity.
Qed.

Lemma thinking_sweep_rows b a c x0 x :
  rows (Thinking.lin_sweep b a c x0 x) = rows x.
Proof.
  unfold Thinking.lin_sweep. cbv zeta.
  rewrite thinking_set_bnd_rows', rows_set_block. reflexivity.
Qed.

Lemma zero_weight (dt diff m : Q) : diff == 0 -> dt * diff * m * m == 0.
Proof. intros ->. ring. Qed.

Lemma thinking_lin_solve_copies
    (n k : nat) (b : Z) (x x0 : Field) (a : Q) (i j : nat) :
  rows x = (n + 2)%nat -> a == 0 -> (1 <= k)%nat ->
  (1 <= i <= n)%nat -> (1 <= j <= n)%nat ->
  returns_with _ (Thinking.lin_solve b x x0 a (1 + 4 * a) k)
    (fun r => copied_at n b x0 r i j).
Proof.
  intros Hx Ha Hk Hi Hj. unfold Thinking.lin_solve. cbv zeta.
  rewrite (denominator_one a Ha).
  eexists. split; [reflexivity |].
  destruct k as [| k]; [lia |]. rewrite repeat_n_last.
  apply thinking_sweep_copies; try assumption.
  apply repeat_n_inv; [| exact Hx].
  intros y Hy. rewrite thinking_sweep_rows. exact Hy.
Qed.

Lemma base_diffuse_copies
    (n ITER : nat) (b : Z) (x x0 : Field) (diff dt : Q) (i j : nat) :
  rows x = (n + 2)%nat -> diff == 0 -> (1 <= ITER)%nat ->
  (1 <= i <= n)%nat -> (1 <= j <= n)%nat ->
  returns_with _ (Base.diffuse n dt ITER b x x0 diff)
    (fun r => copied_at n b x0 r i j).
Proof.
  intros Hs Hdiff HI Hi Hj. unfold Base.diffuse. cbv zeta.
  destruct ITER as [| k]; [lia |].
  destruct (repeat_opt_last Field (fun y => rows y = (n + 2)%nat)
              (fun y => copied_at n b x0 y i j)
              (Base.diffuse_sweep b (dt * diff * Qn n * Qn n) x0) k x)
    as (r & E & _ & C).
  - intros y Hy. apply base_sweep_copies; try assumption.
    apply zero_weight, Hdiff.
  - exact Hs.
  - exists r. split; assumption.
Qed.

Lemma pro_diffuse_copied
    (n : nat) (pr : Pro.Params) (b : Z) (x x0 : Field) (diff dt : Q) (i j : nat) :
  rows x = (n + 2)%nat -> Pro.N pr = n -> diff == 0 ->
  (1 <= Pro.iters pr)%nat ->
  (1 <= i <= n)%nat -> (1 <= j <= n)%nat ->
  returns_with _ (Pro.diffuse pr b x x0 diff dt)
    (fun r => rows r = (n + 2)%nat /\ copied_at n b x0 r i j).
Proof.
  intros Hs Hpr Hdiff Hit Hi Hj. unfold Pro.diffuse. cbv zeta.
  rewrite (denominator_one _ (zero_weight dt diff (Qn (Pro.N pr)) Hdiff)).
  eexists. split; [reflexivity |]. split.
  - apply (repeat_n_inv Field (fun y => rows y = (n + 2)%nat)); [| exact Hs].
    intros y Hy. rewrite pro_sweep_rows. exact Hy.
  - destruct (Pro.iters pr) as [| k]; [lia |]. rewrite repeat_n_last.
    rewrite Hpr. apply pro_sweep_copies; try assumption.
    + apply zero_weight, Hdiff.
    + apply repeat_n_inv; [| exact Hs].
      intros y Hy. rewrite pro_sweep_rows. exact Hy.
Qed.

Lemma thinking_diffuse_copied
    (n : nat) (b : Z) (x x0 : Field) (diff dt : Q) (i j : nat) :
  rows x = (n + 2)%nat -> diff == 0 ->
  (1 <= i <= n)%nat -> (1 <= j <= n)%nat ->
  returns_with _ (Thinking.diffuse b x x0 diff dt)
    (fun r => copied_at n b x0 r i j).
Proof.
  intros Hs Hdiff Hi Hj. unfold Thinking.diffuse. cbv zeta.
  unfold Thinking.dimN. replace (rows x - 2)%nat with n by lia.
  apply thinking_lin_solve_copies; try assumption;
    [apply zero_weight, Hdiff | lia].
Qed.

(** C9.  With a diffusion coefficient equal to zero the relaxation
    weight [a] is zero and the denominator is 1, so for any positive
    iteration count and any [dt], [diffuse] leaves in every interior
    cell of [x] the value of the same cell of the reference [x0],
    followed by the boundary rule, in each of the three variants (the
    thinking variant's [diffuse] always runs 20 iterations of
    [lin_solve], which has the property for every positive count). *)
Theorem diffuse_zero_coefficient_copies
    (n ITER : nat) (pr : Pro.Params) (b : Z) (x x0 : Field) (diff dt : Q)
    (i j : nat) :
  has_shape (n + 2) x = true ->
  Pro.N pr = n ->
  diff == 0 ->
  (1 <= ITER)%nat -> (1 <= Pro.iters pr)%nat ->
  (1 <= i <= n)%nat -> (1 <= j <= n)%nat ->
  returns_with _ (Base.diffuse n dt ITER b x x0 diff)
    (fun r => copied_at n b x0 r i j) /\
  returns_with _ (Pro.diffuse pr b x x0 diff dt)
    (fun r => copied_at n b x0 r i j) /\
  returns_with _ (Thinking.diffuse b x x0 diff dt)
    (fun r => copied_at n b x0 r i j) /\
  (let a := dt * diff * Qn n * Qn n in
   returns_with _ (Thinking.lin_solve b x x0 a (1 + 4 * a) ITER)
     (fun r => copied_at n b x0 r i j)).
Proof.
  intros Hs Hpr Hdiff HI Hit Hi Hj. apply has_shape_rows in Hs.
  split; [| split; [| split]].
  - apply base_diffuse_copies; assumption.
  - destruct (pro_diffuse_copied n pr b x x0 diff dt i j)
      as (r & E & _ & C); try assumption.
    exists r. split; assumption.
  - apply thinking_diffuse_copied; assumption.
  - cbv zeta.
    apply thinking_lin_solve_copies; try assumption. apply zero_weight, Hdiff.
Qed.

Lemma diffuse_zero_coefficient_copies_witness :
  returns_with _ (Base.diffuse 3 (1 # 10) 20 1 (zeros 5) sample_grid 0)
    (fun r => copied_at 3 1 sample_grid r 2 3) /\
  returns_with _ (Pro.diffuse sample_params 1 (zeros 5) sample_grid 0 (1 # 10))
    (fun r => copied_at 3 1 sample_grid r 2 3) /\
  returns_with _ (Thinking.diffuse 1 (zeros 5) sample_grid 0 (1 # 10))
    (fun r => copied_at 3 1 sample_grid r 2 3) /\
  (let a := (1 # 10) * 0 * Qn 3 * Qn 3 in
   returns_with _ (Thinking.lin_solve 1 (zeros 5) sample_grid a (1 + 4 * a) 20)
     (fun r => copied_at 3 1 sample_grid r 2 3)).
Proof.
  apply (diffuse_zero_coefficient_copies 3 20 sample_params 1 (zeros 5)
           sample_grid 0 (1 # 10) 2 3);
    first [ reflexivity | simpl; lia | lia ].
Defined.

(** ** The density brush *)

(** A loop whose every pass adds [amount] to the cells it hits, with
    no cell hit by two passes, adds [amount] once to every cell hit by
    some pass and leaves the others alone. *)
Section LoopOfBumps.

Variable K : Type.
Variable upd : Field -> K -> Field.
Variable hit : K -> nat -> nat -> bool.
Variable ok : K -> Prop.
Variable R : nat.
Variable amount : Q.
Variables a b : nat.

Hypothesis upd_rows : forall d k, ok k -> rows d = R -> rows (upd d k) = R.
Hypothesis upd_get : forall d k, ok k -> rows d = R ->
  get (upd d k) a b = if hit k a b then get d a b + amount else get d a b.
Hypothesis hit_once : forall k1 k2, ok k1 -> ok k2 ->
  hit k1 a b = true -> hit k2 a b = true -> k1 = k2.

Lemma fold_rows (l : list K) (d : Field) :
  Forall ok l -> rows d = R -> rows (fold_left upd l d) = R.
Proof.
  revert d. induction l as [| k l IH]; intros d Hok Hd; simpl.
  - exact Hd.
  - inversion Hok as [| ? ? Hk Hl].
    apply IH; [exact Hl |]. apply upd_rows; assumption.
Qed.

Lemma fold_hits (l : list K) (d : Field) :
  Forall ok l -> NoDup l -> rows d = R ->
  get (fold_left upd l d) a b =
  if existsb (fun k => hit k a b) l then get d a b + amount else get d a b.
Proof.
  revert d. induction l as [| k l IH]; intros d Hok Hnd Hd; simpl.
  - reflexivity.
  - inversion Hok as [| ? ? Hk Hl].
    inversion Hnd as [| ? ? Hnotin Hnd'].
    rewrite IH by (try assumption; apply upd_rows; assumption).
    rewrite upd_get by assumption.
    destruct (hit k a b) eqn:Hh; simpl; [| reflexivity].
    assert (E : existsb (fun k0 => hit k0 a b) l = false).
    { apply not_true_is_false. intros Hex.
      apply existsb_exists in Hex. destruct Hex as [k' [Hin Hh']].
      assert (k = k').
      { apply hit_once; try assumption.
        rewrite Forall_forall in Hl. apply Hl. exact Hin. }
      subst k'. contradiction. }
    rewrite E. reflexivity.
Qed.

End LoopOfBumps.

Lemma in_zrange (lo hi z : Z) : In z (Pro.zrange lo hi) <-> (lo <= z < hi)%Z.
Proof.
  unfold Pro.zrange. rewrite in_map_iff. split.
  - intros [k [<- Hk]]. apply in_seq in Hk. lia.
  - intros Hz. exists (Z.to_nat (z - lo)). split; [lia |].
    apply in_seq. lia.
Qed.

Lemma NoDup_zrange (lo hi : Z) : NoDup (Pro.zrange lo hi).
Proof.
  unfold Pro.zrange. apply Injective_map_NoDup.
  - intros x y H. lia.
  - apply seq_NoDup.
Qed.

(** Some pass of [range(lo, hi)] with [lo >= 0] reaches row [a]. *)
Lemma existsb_zrange (lo hi : Z) (a : nat) (P : Z -> bool) :
  (0 <= lo)%Z ->
  existsb (fun k => (a =? Z.to_nat k)%nat && P k) (Pro.zrange lo hi) =
  ((lo <=? Z.of_nat a) && (Z.of_nat a <? hi))%Z && P (Z.of_nat a).
Proof.
  intros Hlo. apply eq_true_iff_eq. rewrite existsb_exists.
  rewrite !andb_true_iff, Z.leb_le, Z.ltb_lt. split.
  - intros [k [Hin Hk]]. apply in_zrange in Hin.
    apply andb_true_iff in Hk. destruct Hk as [Hak HP].
    apply Nat.eqb_eq in Hak.
    assert (k = Z.of_nat a) by lia. subst k. repeat split; try lia; exact HP.
  - intros [[H1 H2] HP]. exists (Z.of_nat a). split.
    + apply in_zrange. lia.
    + rewrite Nat2Z.id, Nat.eqb_refl. exact HP.
Qed.

Lemma existsb_eq (A : Type) (f g : A -> bool) (l : list A) :
  (forall x, f x = g x) -> existsb f l = existsb g l.
Proof.
  intros H. induction l as [| x l IH]; simpl; [reflexivity |].
  rewrite H, IH. reflexivity.
Qed.

Section Brush.

Variable n : nat.
Variables i j r : Z.
Variable amount : Q.
Variables a b : nat.
Hypothesis Ha : (a <= n + 1)%nat.
Hypothesis Hb : (b <= n + 1)%nat.

Let cond (ii jj : Z) : bool := ((ii - i) ^ 2 + (jj - j) ^ 2 <=? r * r)%Z.
Let okz (k : Z) : Prop := (1 <= k <= Z.of_nat n)%Z.
Let pass_j (ii : Z) (d : Field) (jj : Z) : Field :=
  if cond ii jj then Pro.bump d ii jj amount else d.
Let hit_j (ii jj : Z) (a' b' : nat) : bool :=
  (b' =? Z.to_nat jj)%nat && ((a' =? Z.to_nat ii)%nat && cond ii jj).
Let cols : list Z :=
  Pro.zrange (Z.max 1 (j - r)) (Z.min (Z.of_nat n) (j + r) + 1).
Let rows_l : list Z :=
  Pro.zrange (Z.max 1 (i - r)) (Z.min (Z.of_nat n) (i + r) + 1).
Let pass_i (d : Field) (ii : Z) : Field := fold_left (pass_j ii) cols d.
Let hit_i (ii : Z) (a' b' : nat) : bool :=
  existsb (fun jj => hit_j ii jj a' b') cols.

Lemma cols_ok : Forall okz cols.
Proof.
  apply Forall_forall. intros k Hk. apply in_zrange in Hk. unfold okz. lia.
Qed.

Lemma rows_ok : Forall okz rows_l.
Proof.
  apply Forall_forall. intros k Hk. apply in_zrange in Hk. unfold okz. lia.
Qed.

Lemma pass_j_rows (ii : Z) (d : Field) (jj : Z) :
  rows d = (n + 2)%nat -> rows (pass_j ii d jj) = (n + 2)%nat.
Proof.
  intros Hd. unfold pass_j, Pro.bump.
  destruct (cond ii jj); [rewrite rows_set_cell |]; exact Hd.
Qed.

Lemma pass_j_get (ii : Z) (d : Field) (jj : Z) :
  rows d = (n + 2)%nat ->
  get (pass_j ii d jj) a b =
  if hit_j ii jj a b then get d a b + amount else get d a b.
Proof.
  intros Hd. unfold pass_j, hit_j, Pro.bump.
  destruct (cond ii jj).
  - rewrite get_set_cell, Hd. settle_tests.
    rewrite (andb_comm (b =? Z.to_nat jj)%nat), andb_true_r.
    destruct (Nat.eqb_spec a (Z.to_nat ii)) as [-> |]; simpl; [| reflexivity].
    destruct (Nat.eqb_spec b (Z.to_nat jj)) as [-> |]; reflexivity.
  - rewrite !andb_false_r. reflexivity.
Qed.

Lemma pass_i_rows (d : Field) (ii : Z) :
  rows d = (n + 2)%nat -> rows (pass_i d ii) = (n + 2)%nat.
Proof.
  intros Hd. unfold pass_i.
  apply (fold_rows Z (pass_j ii) okz (n + 2)); try assumption.
  - intros d' k _ Hd'. apply pass_j_rows. exact Hd'.
  - apply cols_ok.
Qed.

Lemma pass_i_get (d : Field) (ii : Z) :
  rows d = (n + 2)%nat ->
  get (pass_i d ii) a b =
  if hit_i ii a b then get d a b + amount else get d a b.
Proof.
  intros Hd. unfold pass_i, hit_i.
  apply (fold_hits Z (pass_j ii) (hit_j ii) okz (n + 2)); try assumption.
  - intros d' k _ Hd'. apply pass_j_rows. exact Hd'.
  - intros d' k _ Hd'. apply pass_j_get. exact Hd'.
  - intros k1 k2 H1 H2 E1 E2. unfold hit_j in E1, E2. unfold okz in H1, H2.
    apply andb_true_iff in E1. apply andb_true_iff in E2.
    destruct E1 as [E1 _]. destruct E2 as [E2 _].
    apply Nat.eqb_eq in E1. apply Nat.eqb_eq in E2. lia.
  - apply cols_ok.
  - apply NoDup_zrange.
Qed.

Lemma hit_i_row (ii : Z) : hit_i ii a b = true -> a = Z.to_nat ii.
Proof.
  unfold hit_i, hit_j. intros H. apply existsb_exists in H.
  destruct H as [jj [_ H]].
  apply andb_true_iff in H. destruct H as [_ H].
  apply andb_true_iff in H. destruct H as [H _].
  apply Nat.eqb_eq in H. exact H.
Qed.

Lemma brush_get (d : Field) :
  rows d = (n + 2)%nat ->
  get (Pro.brush (Z.of_nat n) d i j amount r) a b =
  if brush_hits (Z.of_nat n) i j r a b then get d a b + amount else get d a b.
Proof.
  intros Hd.
  change (Pro.brush (Z.of_nat n) d i j amount r) with (fold_left pass_i rows_l d).
  rewrite (fold_hits Z pass_i hit_i okz (n + 2) amount a b); try assumption.
  - replace (existsb (fun k => hit_i k a b) rows_l)
      with (brush_hits (Z.of_nat n) i j r a b); [reflexivity |].
    unfold brush_hits, hit_i, hit_j, rows_l, cols. cbv zeta.
    rewrite (existsb_eq _ _
      (fun k => (a =? Z.to_nat k)%nat &&
                (((Z.max 1 (j - r) <=? Z.of_nat b) &&
                  (Z.of_nat b <? Z.min (Z.of_nat n) (j + r) + 1))%Z &&
                 cond k (Z.of_nat b)))).
    + rewrite existsb_zrange by lia. unfold cond. rewrite !andb_assoc. reflexivity.
    + intros k. rewrite existsb_zrange by lia.
      destruct (a =? Z.to_nat k)%nat; simpl; [reflexivity |].
      rewrite !andb_false_r. reflexivity.
  - intros d' k _ Hd'. apply pass_i_rows. exact Hd'.
  - intros d' k _ Hd'. apply pass_i_get. exact Hd'.
  - intros k1 k2 H1 H2 E1 E2. apply hit_i_row in E1. apply hit_i_row in E2.
    unfold okz in H1, H2. lia.
  - apply rows_ok.
  - apply NoDup_zrange.
Qed.

End Brush.

Lemma brush_hits_radius_one (n ci cj : Z) (a b : nat) :
  brush_hits n ci cj 1 a b = cross_hits n ci cj a b.
Proof.
  unfold brush_hits, cross_hits. cbv zeta.
  apply eq_true_iff_eq.
  rewrite !andb_true_iff, !Z.leb_le, !Z.ltb_lt, !Z.pow_2_r.
  split.
  - intros [[H1 H2] [[H3 H4] H5]]. repeat split; try lia.
    remember (Z.of_nat a - ci)%Z as p eqn:Ep.
    remember (Z.of_nat b - cj)%Z as q eqn:Eq.
    assert (Hp : (-1 <= p <= 1)%Z) by nia.
    assert (Hq : (-1 <= q <= 1)%Z) by nia.
    assert (Hpq : (p = 0 \/ q = 0)%Z) by nia.
    lia.
  - intros [[[[H1 H2] H3] H4] H5]. repeat split; try lia.
    assert (Hc : (Z.abs (Z.of_nat a - ci) = 0 \/ Z.abs (Z.of_nat a - ci) = 1)%Z) by lia.
    assert (Hd : (Z.abs (Z.of_nat b - cj) = 0 \/ Z.abs (Z.of_nat b - cj) = 1)%Z) by lia.
    nia.
Qed.

Lemma clamp_bounds (x lo hi : Z) :
  (lo <= hi)%Z -> (lo <= Pro.clamp x lo hi <= hi)%Z.
Proof.
  intros H. unfold Pro.clamp.
  destruct (Z.ltb_spec x lo); [lia |].
  destruct (Z.gtb_spec x hi); lia.
Qed.

(** [int(np.clip(x, 1, N))] of an integer [x] is [clamp(x, 1, N)]. *)
Lemma clip_integer (n : nat) (i : Z) :
  (1 <= n)%nat ->
  Qtrunc (clip (inject_Z i) 1 (Qn n)) = Pro.clamp i 1 (Z.of_nat n).
Proof.
  intros Hn.
  assert (H1n : 1 <= Qn n).
  { unfold Qn. change 1 with (inject_Z 1). rewrite <- Zle_Qle. lia. }
  assert (E : clip (inject_Z i) 1 (Qn n) == inject_Z (Pro.clamp i 1 (Z.of_nat n))).
  { unfold clip, Pro.clamp, Qn.
    destruct (Z.ltb_spec i 1) as [Hlt | Hge].
    - rewrite Q.max_r by (change 1 with (inject_Z 1); rewrite <- Zle_Qle; lia).
      apply Q.min_l. exact H1n.
    - rewrite Q.max_l by (change 1 with (inject_Z 1); rewrite <- Zle_Qle; lia).
      destruct (Z.gtb_spec i (Z.of_nat n)) as [Hgt | Hle].
      + apply Q.min_r. rewrite <- Zle_Qle. lia.
      + apply Q.min_l. rewrite <- Zle_Qle. lia. }
  rewrite Qtrunc_nonneg.
  - rewrite (Qfloor_comp _ _ E). apply Qfloor_Z.
  - apply Qle_trans with 1; [discriminate |]. apply clip_bounds. exact H1n.
Qed.

(** The splat of radius 0 at an in-range cell adds [amount] to that
    cell alone. *)
Lemma splat_radius_zero (arr : Field) (cx cy : Z) (amount : Q) :
  (0 <= cx < Z.of_nat (rows arr))%Z -> (0 <= cy < Z.of_nat (rows arr))%Z ->
  exists arr',
    Thinking.splat arr cx cy 0 amount = Some arr' /\
    rows arr' = rows arr /\
    forall a b, (a < rows arr)%nat -> (b < rows arr)%nat ->
      get arr' a b =
      if ((Z.of_nat a =? cx) && (Z.of_nat b =? cy))%Z
      then get arr a b + amount else get arr a b.
Proof.
  intros Hx Hy. unfold Thinking.splat, Thinking.py_slice. cbv zeta.
  replace (cx - 0 <? 0)%Z with false by (symmetry; apply Z.ltb_ge; lia).
  replace (cx + 0 + 1 <? 0)%Z with false by (symmetry; apply Z.ltb_ge; lia).
  replace (cy - 0 <? 0)%Z with false by (symmetry; apply Z.ltb_ge; lia).
  replace (cy + 0 + 1 <? 0)%Z with false by (symmetry; apply Z.ltb_ge; lia).
  replace (Z.max 0 (Z.min (Z.of_nat (rows arr)) (cx - 0))) with cx by lia.
  replace (Z.max 0 (Z.min (Z.of_nat (rows arr)) (cx + 0 + 1))) with (cx + 1)%Z by lia.
  replace (Z.max 0 (Z.min (Z.of_nat (rows arr)) (cy - 0))) with cy by lia.
  replace (Z.max 0 (Z.min (Z.of_nat (rows arr)) (cy + 0 + 1))) with (cy + 1)%Z by lia.
  replace (Z.max 0 (cx + 1 - cx) =? Z.max 0 (2 * 0 + 1))%Z with true
    by (symmetry; apply Z.eqb_eq; lia).
  replace (Z.max 0 (cy + 1 - cy) =? Z.max 0 (2 * 0 + 1))%Z with true
    by (symmetry; apply Z.eqb_eq; lia).
  cbn [andb]. eexists. split; [reflexivity |]. split; [apply rows_assign |].
  intros a b Ha Hb. rewrite get_assign. settle_tests.
  match goal with
  | |- (if ?m then _ else _) = _ =>
      replace m with ((Z.of_nat a =? cx) && (Z.of_nat b =? cy))%Z; [reflexivity |]
  end.
  apply eq_true_iff_eq.
  rewrite !andb_true_iff, !Z.leb_le, !Z.ltb_lt, !Z.eqb_eq. lia.
Qed.

(** C2, as stated, fails on [Fluid.add_density_brush]: on a 3 by 3
    interior, the brush of radius 0 at (2, 2) also changes cells other
    than (clamp(2,1,3), clamp(2,1,3)). *)
Lemma density_brush_radius_zero_counterexample :
  let s := Pro.init sample_params in
  let s' := Pro.add_density_brush s 2 2 7 0 in
  ~ (forall a b : nat,
       (Z.of_nat a, Z.of_nat b) <> (Pro.clamp 2 1 3, Pro.clamp 2 1 3) ->
       get (Pro.dens0 s') a b = get (Pro.dens0 s) a b).
Proof.
  intros s s' H.
  assert (Hne : (Z.of_nat 1, Z.of_nat 2) <> (Pro.clamp 2 1 3, Pro.clamp 2 1 3))
    by (vm_compute; discriminate).
  specialize (H 1%nat 2%nat Hne). vm_compute in H. discriminate H.
Qed.

(** C2, amended.  With radius 0, [Fluid2D.add_density_splat] adds
    [amount] to the single cell [(clamp(i,1,N), clamp(j,1,N))] of the
    density source; [Fluid.add_density_brush] raises the radius to 1
    and adds [amount] to that cell and to those of its four axis
    neighbours that lie in [1..N] x [1..N].  In both, no other cell of
    the density source and no other field changes. *)
Theorem density_brush_radius_zero
    (ts : Thinking.Fluid2D) (ps : Pro.Fluid) (i j : Z) (amount : Q) :
  has_shape (Thinking.N ts + 2) (Thinking.d0 ts) = true ->
  (1 <= Thinking.N ts)%nat ->
  has_shape (Pro.N (Pro.params ps) + 2) (Pro.dens0 ps) = true ->
  (exists ts',
     Thinking.add_density_splat ts (inject_Z i) (inject_Z j) amount 0 = Some ts' /\
     thinking_others_kept ts ts' /\
     forall a b, (a <= Thinking.N ts + 1)%nat -> (b <= Thinking.N ts + 1)%nat ->
       get (Thinking.d0 ts') a b =
       if ((Z.of_nat a =? Pro.clamp i 1 (Z.of_nat (Thinking.N ts))) &&
           (Z.of_nat b =? Pro.clamp j 1 (Z.of_nat (Thinking.N ts))))%Z
       then get (Thinking.d0 ts) a b + amount
       else get (Thinking.d0 ts) a b) /\
  (let ps' := Pro.add_density_brush ps i j amount 0 in
   let n := Z.of_nat (Pro.N (Pro.params ps)) in
   pro_others_kept ps ps' /\
   forall a b, (a <= Pro.N (Pro.params ps) + 1)%nat ->
               (b <= Pro.N (Pro.params ps) + 1)%nat ->
     get (Pro.dens0 ps') a b =
     if cross_hits n (Pro.clamp i 1 n) (Pro.clamp j 1 n) a b
     then get (Pro.dens0 ps) a b + amount
     else get (Pro.dens0 ps) a b).
Proof.
  intros Ht Hn Hp. apply has_shape_rows in Ht. apply has_shape_rows in Hp.
  split.
  - unfold Thinking.add_density_splat. cbv zeta.
    rewrite !clip_integer by exact Hn.
    pose proof (clamp_bounds i 1 (Z.of_nat (Thinking.N ts))) as Bi.
    pose proof (clamp_bounds j 1 (Z.of_nat (Thinking.N ts))) as Bj.
    destruct (splat_radius_zero (Thinking.d0 ts)
                (Pro.clamp i 1 (Z.of_nat (Thinking.N ts)))
                (Pro.clamp j 1 (Z.of_nat (Thinking.N ts))) amount)
      as (arr' & E & Hr & Hget); [rewrite Ht; lia | rewrite Ht; lia |].
    rewrite E. eexists. split; [reflexivity |]. split.
    + unfold thinking_others_kept. simpl. repeat split.
    + intros a b Ha Hb. simpl. apply Hget; rewrite Ht; lia.
  - cbv zeta. split.
    + unfold pro_others_kept. simpl. repeat split.
    + intros a b Ha Hb. unfold Pro.add_density_brush. cbv zeta. simpl Pro.dens0.
      change (Z.max 1 0) with 1%Z.
      rewrite brush_get by assumption.
      rewrite brush_hits_radius_one. reflexivity.
Qed.

Lemma density_brush_radius_zero_witness :
  (exists ts',
     Thinking.add_density_splat sample_fluid2d (inject_Z 9) (inject_Z (-4)) 7 0
       = Some ts' /\
     thinking_others_kept sample_fluid2d ts' /\
     forall a b, (a <= 4)%nat -> (b <= 4)%nat ->
       get (Thinking.d0 ts') a b =
       if ((Z.of_nat a =? 3) && (Z.of_nat b =? 1))%Z
       then get (Thinking.d0 sample_fluid2d) a b + 7
       else get (Thinking.d0 sample_fluid2d) a b) /\
  (let ps := Pro.init sample_params in
   let ps' := Pro.add_density_brush ps 9 (-4) 7 0 in
   pro_others_kept ps ps' /\
   forall a b, (a <= 4)%nat -> (b <= 4)%nat ->
     get (Pro.dens0 ps') a b =
     if cross_hits 3 3 1 a b
     then get (Pro.dens0 ps) a b + 7
     else get (Pro.dens0 ps) a b).
Proof.
  apply (density_brush_radius_zero sample_fluid2d (Pro.init sample_params)
           9 (-4) 7); [reflexivity | simpl; lia | reflexivity].
Defined.

(** ** Operators of the thinking variant: shapes and all-zero inputs *)

Lemma is_zero_add_source (x s : Field) (dt : Q) :
  is_zero x -> is_zero s -> is_zero (Thinking.add_source x s dt).
Proof.
  intros Hx Hs. unfold Thinking.add_source. apply is_zero_assign; [exact Hx |].
  intros i j. rewrite (Hx i j), (Hs i j). ring.
Qed.

Lemma thinking_lin_sweep_zero b a c x0 x :
  is_zero x0 -> is_zero x -> is_zero (Thinking.lin_sweep b a c x0 x).
Proof.
  intros H0 Hx. unfold Thinking.lin_sweep. cbv zeta.
  apply thinking_set_bnd_zero, is_zero_set_block; [exact Hx |].
  intros i j. zero_cells. ring.
Qed.

Lemma thinking_relax_rows b x x0 a c k :
  rows (repeat_n k (Thinking.lin_sweep b a c x0) x) = rows x.
Proof.
  apply (repeat_n_inv Field (fun y => rows y = rows x)); [| reflexivity].
  intros y Hy. rewrite thinking_sweep_rows. exact Hy.
Qed.

Lemma thinking_relax_zero b x x0 a c k :
  is_zero x0 -> is_zero x -> is_zero (repeat_n k (Thinking.lin_sweep b a c x0) x).
Proof.
  intros H0 Hx. apply repeat_n_inv; [| exact Hx].
  intros y Hy. apply thinking_lin_sweep_zero; assumption.
Qed.

(** [lin_solve] returns when [c] is not zero and raises when it is. *)
Lemma thinking_lin_solve_some b x x0 a c k :
  Qeq_bool c 0 = false ->
  Thinking.lin_solve b x x0 a c k =
  Some (repeat_n k (Thinking.lin_sweep b a (1 / c) x0) x).
Proof. intros Hc. unfold Thinking.lin_solve. rewrite Hc. reflexivity. Qed.

Lemma thinking_lin_solve_raises b x x0 a c k :
  Qeq_bool c 0 = true -> Thinking.lin_solve b x x0 a c k = None.
Proof. intros Hc. unfold Thinking.lin_solve. rewrite Hc. reflexivity. Qed.

(** The pressure solve of [project] has [c = 4]. *)
Lemma thinking_pressure_some p div :
  Thinking.lin_solve 0 p div 1 4 20 =
  Some (repeat_n 20 (Thinking.lin_sweep 0 1 (1 / 4) div) p).
Proof. apply thinking_lin_solve_some. reflexivity. Qed.

(** [diffuse] returns when [1 + 4 * a] is not zero: it keeps the
    shape of [x] and maps all-zero arrays to an all-zero array. *)
Lemma thinking_diffuse_some b x x0 diff dt :
  Qeq_bool (denominator dt diff (Thinking.dimN x)) 0 = false ->
  exists r, Thinking.diffuse b x x0 diff dt = Some r /\
            rows r = rows x /\
            (is_zero x0 -> is_zero x -> is_zero r).
Proof.
  intros Hd. unfold Thinking.diffuse. cbv zeta.
  rewrite thinking_lin_solve_some by exact Hd.
  eexists. split; [reflexivity |]. split.
  - apply thinking_relax_rows.
  - intros H0 Hx. apply thinking_relax_zero; assumption.
Qed.

(** [diffuse] raises when [1 + 4 * a] is zero. *)
Lemma thinking_diffuse_raises b x x0 diff dt :
  Qeq_bool (denominator dt diff (Thinking.dimN x)) 0 = true ->
  Thinking.diffuse b x x0 diff dt = None.
Proof.
  intros Hd. unfold Thinking.diffuse. cbv zeta.
  apply thinking_lin_solve_raises. exact Hd.
Qed.

(** The denominator is at least 1 when the time step does not have the
    opposite sign of the coefficient, and is 1 on a grid without
    interior. *)
Lemma damped_denominator (dt c : Q) (n : nat) :
  0 <= dt * c -> Qeq_bool (denominator dt c n) 0 = false.
Proof.
  intros H. apply denominator_positive, weight_nonneg, H.
Qed.

Lemma empty_denominator (dt c : Q) : Qeq_bool (denominator dt c 0) 0 = false.
Proof.
  apply denominator_one. unfold Qn. simpl. ring.
Qed.

Lemma thinking_advect_rows b d d0 u v dt :
  rows (Thinking.advect b d d0 u v dt) = rows d.
Proof.
  unfold Thinking.advect. cbv zeta.
  rewrite thinking_set_bnd_rows', rows_set_block. reflexivity.
Qed.

Lemma thinking_advect_zero b d d0 u v dt :
  is_zero d -> is_zero d0 -> is_zero (Thinking.advect b d d0 u v dt).
Proof.
  intros Hd H0. unfold Thinking.advect. cbv zeta.
  apply thinking_set_bnd_zero, is_zero_set_block; [exact Hd |].
  intros i j. apply bilinear_zero. exact H0.
Qed.

(** [project] returns on a grid with at least one interior cell, keeps
    every shape, and maps all-zero arrays to all-zero arrays. *)
Lemma thinking_project_runs (u v p div : Field) :
  (3 <= rows u)%nat ->
  exists u' v' p' div',
    Thinking.project u v p div = Some (u', v', p', div') /\
    (rows u' = rows u /\ rows v' = rows v /\
     rows p' = rows p /\ rows div' = rows div) /\
    (is_zero u -> is_zero v -> is_zero p -> is_zero div ->
     is_zero u' /\ is_zero v' /\ is_zero p' /\ is_zero div').
Proof.
  intros Hr. unfold Thinking.project. cbv zeta.
  replace (Thinking.dimN u =? 0)%nat with false
    by (symmetry; apply Nat.eqb_neq; unfold Thinking.dimN; lia).
  rewrite thinking_pressure_some.
  do 4 eexists. split; [reflexivity |]. split.
  - rewrite !thinking_set_bnd_rows', !rows_set_block, thinking_relax_rows,
      thinking_set_bnd_rows', rows_fill.
    repeat split.
  - intros Hu Hv Hp Hd.
    assert (Zd : is_zero (Thinking.set_bnd 0
              (set_block div 1 (Thinking.dimN u + 1) (fun i j =>
                 - 0.5 * (1 / Qn (Thinking.dimN u)) *
                 (get u (i + 1) j - get u (i - 1) j +
                  get v i (j + 1) - get v i (j - 1)))))).
    { apply thinking_set_bnd_zero, is_zero_set_block; [exact Hd |].
      intros i j. zero_cells. ring. }
    assert (Zp : is_zero (repeat_n 20
              (Thinking.lin_sweep 0 1 (1 / 4)
                 (Thinking.set_bnd 0
                    (set_block div 1 (Thinking.dimN u + 1) (fun i j =>
                       - 0.5 * (1 / Qn (Thinking.dimN u)) *
                       (get u (i + 1) j - get u (i - 1) j +
                        get v i (j + 1) - get v i (j - 1))))))
              (Thinking.set_bnd 0 (fill p 0)))).
    { apply thinking_relax_zero; [exact Zd |].
      apply thinking_set_bnd_zero, is_zero_fill. }
    repeat split; try assumption.
    + apply thinking_set_bnd_zero, is_zero_set_block; [exact Hu |].
      intros i j. zero_cells. unfold Qdiv. ring.
    + apply thinking_set_bnd_zero, is_zero_set_block; [exact Hv |].
      intros i j. zero_cells. unfold Qdiv. ring.
Qed.

(** [vorticity_confinement] returns on a grid with at least two
    interior cells per side and raises on a smaller one. *)
Lemma thinking_vorticity_runs (sqrt : Q -> Q) (u v : Field) (eps : Q) :
  (4 <= rows u)%nat ->
  exists u' v',
    Thinking.vorticity_confinement sqrt u v eps = Some (u', v') /\
    (rows u' = rows u /\ rows v' = rows v) /\
    (is_zero u -> is_zero v -> is_zero u' /\ is_zero v').
Proof.
  intros Hr. unfold Thinking.vorticity_confinement. cbv zeta.
  replace (Thinking.dimN u <? 2)%nat with false
    by (symmetry; apply Nat.ltb_ge; unfold Thinking.dimN; lia).
  do 2 eexists. split; [reflexivity |]. split.
  - rewrite !thinking_set_bnd_rows', !rows_set_block. split; reflexivity.
  - intros Hu Hv.
    assert (Zw : is_zero (mk (Thinking.dimN u) (fun a b =>
              (get v (a + 2) (b + 1) - get v a (b + 1)
               - (get u (a + 1) (b + 2) - get u (a + 1) b)) * 0.5))).
    { apply is_zero_mk. intros a b. zero_cells. ring. }
    split.
    + apply thinking_set_bnd_zero, is_zero_set_block; [exact Hu |].
      intros i j. rewrite (Hu i j), (Zw (i - 1) (j - 1))%nat. ring.
    + apply thinking_set_bnd_zero, is_zero_set_block; [exact Hv |].
      intros i j. rewrite (Hv i j), (Zw (i - 1) (j - 1))%nat. ring.
Qed.

Lemma thinking_vorticity_small_grid (sqrt : Q -> Q) (u v : Field) (eps : Q) :
  (rows u < 4)%nat -> Thinking.vorticity_confinement sqrt u v eps = None.
Proof.
  intros Hr. unfold Thinking.vorticity_confinement. cbv zeta.
  replace (Thinking.dimN u <? 2)%nat with true
    by (symmetry; apply Nat.ltb_lt; unfold Thinking.dimN; lia).
  reflexivity.
Qed.

(** ** Running logged commands under an invariant *)

Section Runs.

Variable S : Type.
Variable I : S -> Prop.

Lemma runs_skip : runs S I skip [].
Proof. intros s Hs. exists s. split; [reflexivity | exact Hs]. Qed.

Lemma runs_act (ph : call) (f : S -> S) :
  (forall s, I s -> I (f s)) -> runs S I (act ph f) [ph].
Proof. intros Hf s Hs. exists (f s). split; [reflexivity | apply Hf, Hs]. Qed.

Lemma runs_try_act (ph : call) (f : S -> option S) :
  (forall s, I s -> exists s', f s = Some s' /\ I s') ->
  runs S I (try_act ph f) [ph].
Proof.
  intros Hf s Hs. destruct (Hf s Hs) as [s' [E Hs']].
  exists s'. unfold try_act. rewrite E. split; [reflexivity | exact Hs'].
Qed.

Lemma runs_seq (c1 c2 : Cmd S) (l1 l2 : list call) :
  runs S I c1 l1 -> runs S I c2 l2 -> runs S I (Trace.seq c1 c2) (l1 ++ l2).
Proof.
  intros H1 H2 s Hs.
  destruct (H1 s Hs) as [s1 [E1 Hs1]].
  destruct (H2 s1 Hs1) as [s2 [E2 Hs2]].
  exists s2. unfold Trace.seq. rewrite E1, E2. split; [reflexivity | exact Hs2].
Qed.

Lemma runs_times (c : Cmd S) (l : list call) (n : nat) :
  runs S I c l -> runs S I (times n c) (concat (repeat l n)).
Proof.
  intros Hc. induction n as [| k IH]; simpl.
  - apply runs_skip.
  - apply runs_seq; assumption.
Qed.

End Runs.

Lemma runs_weaken (S : Type) (I : S -> Prop) (c : Cmd S) (l l' : list call) :
  runs S I c l -> l = l' -> runs S I c l'.
Proof. intros H <-. exact H. Qed.

(** ** Logs that are faithful to the meaning of their calls *)

Section Faithful.

Variable S : Type.
Variable sem : call -> S -> option S.

Lemma replay_app (l1 l2 : list call) (s : S) :
  replay sem (l1 ++ l2) s =
  match replay sem l1 s with
  | Some s1 => replay sem l2 s1
  | None => None
  end.
Proof.
  revert s. induction l1 as [| c l1 IH]; intros s; simpl.
  - reflexivity.
  - destruct (sem c s) as [s1 |]; [apply IH | reflexivity].
Qed.

Lemma faithful_skip : faithful S sem skip.
Proof. intros s s' l E. injection E as <- <-. reflexivity. Qed.

Lemma faithful_act (ph : call) (f : S -> S) :
  (forall s, sem ph s = Some (f s)) -> faithful S sem (act ph f).
Proof.
  intros Hf s s' l E. injection E as <- <-. simpl. rewrite Hf. reflexivity.
Qed.

Lemma faithful_try_act (ph : call) (f : S -> option S) :
  (forall s, sem ph s = f s) -> faithful S sem (try_act ph f).
Proof.
  intros Hf s s' l E. unfold try_act in E.
  destruct (f s) as [s1 |] eqn:Ef; [| discriminate E].
  injection E as <- <-. simpl. rewrite Hf, Ef. reflexivity.
Qed.

Lemma faithful_seq (c1 c2 : Cmd S) :
  faithful S sem c1 -> faithful S sem c2 -> faithful S sem (Trace.seq c1 c2).
Proof.
  intros H1 H2 s s' l E. unfold Trace.seq in E.
  destruct (c1 s) as [[s1 l1] |] eqn:E1; [| discriminate E].
  destruct (c2 s1) as [[s2 l2] |] eqn:E2; [| discriminate E].
  injection E as <- <-.
  rewrite replay_app, (H1 _ _ _ E1). apply (H2 _ _ _ E2).
Qed.

End Faithful.

(** ** Commands that return, and commands that raise *)

Section Leads.

Variable S : Type.

Lemma leads_act (P Q : S -> Prop) (ph : call) (f : S -> S) :
  (forall s, P s -> Q (f s)) -> leads S P (act ph f) Q.
Proof.
  intros Hf s Hs. exists (f s), [ph]. split; [reflexivity | apply Hf, Hs].
Qed.

Lemma leads_try_act (P Q : S -> Prop) (ph : call) (f : S -> option S) :
  (forall s, P s -> exists s', f s = Some s' /\ Q s') ->
  leads S P (try_act ph f) Q.
Proof.
  intros Hf s Hs. destruct (Hf s Hs) as [s' [E Hs']].
  exists s', [ph]. unfold try_act. rewrite E. split; [reflexivity | exact Hs'].
Qed.

Lemma leads_seq (P R Q : S -> Prop) (c1 c2 : Cmd S) :
  leads S P c1 R -> leads S R c2 Q -> leads S P (Trace.seq c1 c2) Q.
Proof.
  intros H1 H2 s Hs.
  destruct (H1 s Hs) as (s1 & l1 & E1 & Hs1).
  destruct (H2 s1 Hs1) as (s2 & l2 & E2 & Hs2).
  exists s2, (l1 ++ l2). unfold Trace.seq. rewrite E1, E2.
  split; [reflexivity | exact Hs2].
Qed.

Lemma runs_leads (I : S -> Prop) (c : Cmd S) (l : list call) :
  runs S I c l -> leads S I c I.
Proof.
  intros H s Hs. destruct (H s Hs) as (s' & E & Hs').
  exists s', l. split; assumption.
Qed.

Lemma fails_now (P : S -> Prop) (c1 c2 : Cmd S) :
  fails S P c1 -> fails S P (Trace.seq c1 c2).
Proof. intros H s Hs. unfold Trace.seq. rewrite (H s Hs). reflexivity. Qed.

Lemma fails_later (P R : S -> Prop) (c1 c2 : Cmd S) :
  leads S P c1 R -> fails S R c2 -> fails S P (Trace.seq c1 c2).
Proof.
  intros H1 H2 s Hs. destruct (H1 s Hs) as (s1 & l1 & E1 & Hs1).
  unfold Trace.seq. rewrite E1, (H2 s1 Hs1). reflexivity.
Qed.

End Leads.

Lemma thinking_project_raises (u v p div : Field) :
  rows u = 2%nat -> Thinking.project u v p div = None.
Proof.
  intros Hr. unfold Thinking.project. cbv zeta.
  unfold Thinking.dimN. rewrite Hr. reflexivity.
Qed.

(** ** One tick of the thinking variant *)

Lemma thinking_add_source_rows x s dt : rows (Thinking.add_source x s dt) = rows x.
Proof. apply rows_assign. Qed.

Ltac thinking_fields :=
  cbn [Thinking.u Thinking.v Thinking.u0 Thinking.v0 Thinking.d Thinking.d0
         Thinking.p Thinking.div Thinking.with_u Thinking.with_v
         Thinking.with_u0 Thinking.with_v0 Thinking.with_d Thinking.with_d0].

Ltac shape_rw :=
  rewrite ?thinking_add_source_rows, ?rows_fill,
    ?thinking_advect_rows, ?rows_copy_into.

Create HintDb fluid_zero discriminated.
#[export] Hint Resolve is_zero_add_source is_zero_fill
  thinking_advect_zero is_zero_copy_into : fluid_zero.

(** Every logged call of [Fluid2D.step] is the operator it names on
    the arrays it names. *)
Lemma thinking_step_faithful (sqrt : Q -> Q) :
  faithful _ (thinking_sem sqrt) (Thinking.step sqrt).
Proof.
  unfold Thinking.step.
  repeat match goal with
  | |- faithful _ _ (Trace.seq _ _) => apply faithful_seq
  | |- faithful _ _ (act _ _) => apply faithful_act; intros s; reflexivity
  end.
  - apply faithful_try_act. intros s. simpl.
    destruct (Thinking.diffuse 1 (Thinking.u0 s) (Thinking.u s)
                (Thinking.visc s) (Thinking.dt s)); reflexivity.
  - apply faithful_try_act. intros s. simpl.
    destruct (Thinking.diffuse 2 (Thinking.v0 s) (Thinking.v s)
                (Thinking.visc s) (Thinking.dt s)); reflexivity.
  - apply faithful_try_act. intros s. unfold Thinking.do_project. simpl.
    destruct (Thinking.project (Thinking.u s) (Thinking.v s)
                (Thinking.p s) (Thinking.div s)) as [[[[u' v'] p'] d'] |];
      reflexivity.
  - intros s s' l E. destruct (Thinking.vorticity s).
    + revert s s' l E. apply faithful_try_act. intros s.
      unfold Thinking.do_vorticity. simpl.
      destruct (Thinking.vorticity_confinement sqrt (Thinking.u s)
                  (Thinking.v s) 0.002) as [[u' v'] |]; reflexivity.
    + apply (faithful_skip _ _ _ _ _ E).
  - apply faithful_try_act. intros s. unfold Thinking.do_project. simpl.
    destruct (Thinking.project (Thinking.u s) (Thinking.v s)
                (Thinking.p s) (Thinking.div s)) as [[[[u' v'] p'] d'] |];
      reflexivity.
  - apply faithful_try_act. intros s. simpl.
    destruct (Thinking.diffuse 0 (Thinking.d0 s) (Thinking.d s)
                (Thinking.diff s) (Thinking.dt s)); reflexivity.
Qed.

Section ThinkingTick.

Variable sqrt : Q -> Q.
Variable n : nat.
Variables vort z : bool.
Variables DT VISC DIFF : Q.

Ltac open_inv :=
  let s := fresh "s" in
  intros s [(Hfl & HN & Hdt & Hvi & Hdi)
            [(Ru & Rv & Ru0 & Rv0 & Rd & Rd0 & Rp & Rdiv) Hz]].

Ltac keep_inv :=
  open_inv;
  split; [repeat split; assumption |];
  split;
  [ unfold thinking_shaped, Thinking.swap_u, Thinking.swap_v, Thinking.swap_d;
    thinking_fields;
    shape_rw; repeat split; assumption
  | let Hzt := fresh "Hzt" in
    intros Hzt;
    match goal with
    | H : z = true -> thinking_all_zero _ |- _ =>
        destruct (H Hzt) as (Zu & Zv & Zu0 & Zv0 & Zd & Zd0 & Zp & Zdiv)
    end;
    unfold thinking_all_zero, Thinking.swap_u, Thinking.swap_v, Thinking.swap_d;
    thinking_fields;
    repeat split; auto with fluid_zero ].

(** The denominator of a diffusion of the tick, read off the object. *)
Ltac tick_denominator x :=
  unfold Thinking.dimN;
  match goal with R : rows x = (n + 2)%nat |- _ => rewrite R end;
  replace (n + 2 - 2)%nat with n by lia;
  match goal with
  | Ht : Thinking.dt ?s = DT, Hv : Thinking.visc ?s = VISC,
    Hd : Thinking.diff ?s = DIFF |- _ => rewrite ?Ht, ?Hv, ?Hd
  end;
  assumption.

(** A diffusion of the tick returns when its denominator is not zero. *)
Ltac diffuse_inv :=
  apply runs_try_act; open_inv;
  match goal with
  | |- exists s', option_map _ (Thinking.diffuse ?b ?x ?x0 ?c ?t) = Some s' /\ _ =>
      let r := fresh "r" in
      destruct (thinking_diffuse_some b x x0 c t) as (r & E & Rr & Zr);
      [ tick_denominator x
      | rewrite E; cbn [option_map]; eexists; split; [reflexivity |] ]
  end;
  split; [repeat split; assumption |];
  split;
  [ unfold thinking_shaped; thinking_fields; repeat split;
    first [assumption | congruence]
  | let Hzt := fresh "Hzt" in
    intros Hzt;
    match goal with
    | H : z = true -> thinking_all_zero _ |- _ =>
        destruct (H Hzt) as (Zu & Zv & Zu0 & Zv0 & Zd & Zd0 & Zp & Zdiv)
    end;
    unfold thinking_all_zero; thinking_fields;
    repeat split;
    first [ assumption
          | match goal with
            | H : is_zero _ -> is_zero _ -> is_zero ?y |- is_zero ?y =>
                apply H; assumption
            end ] ].

(** A diffusion of the tick raises when its denominator is zero. *)
Ltac diffuse_raises :=
  open_inv; unfold try_act;
  match goal with
  | |- context [Thinking.diffuse ?b ?x ?x0 ?c ?t] =>
      rewrite (thinking_diffuse_raises b x x0 c t);
      [ reflexivity | tick_denominator x ]
  end.

Lemma thinking_project_step :
  (1 <= n)%nat ->
  runs _ (thinking_inv n vort z DT VISC DIFF)
    (try_act (ProjectOn Bu Bv Bp Bdiv) Thinking.do_project)
    [ProjectOn Bu Bv Bp Bdiv].
Proof.
  intros Hn1. apply runs_try_act. open_inv.
  destruct (thinking_project_runs (Thinking.u s) (Thinking.v s)
              (Thinking.p s) (Thinking.div s))
    as (u' & v' & p' & div' & E & (Su & Sv & Sp & Sd) & Hzero); [lia |].
  unfold Thinking.do_project. rewrite E. eexists. split; [reflexivity |].
  split; [repeat split; assumption |]. split.
  - unfold thinking_shaped. thinking_fields. repeat split; congruence.
  - intros Hzt. destruct (Hz Hzt) as (Zu & Zv & Zu0 & Zv0 & Zd & Zd0 & Zp & Zdiv).
    destruct (Hzero Zu Zv Zp Zdiv) as (A & B & C & D).
    unfold thinking_all_zero. thinking_fields. repeat split; assumption.
Qed.

Lemma thinking_vorticity_step :
  (vort = true -> (2 <= n)%nat) ->
  runs _ (thinking_inv n vort z DT VISC DIFF)
    (fun s => if Thinking.vorticity s
              then try_act (Confinement Bu Bv) (Thinking.do_vorticity sqrt) s
              else skip s)
    (if vort then [Confinement Bu Bv] else []).
Proof.
  intros Hn2 s Hs. pose proof Hs as Hkeep.
  destruct Hs as [(Hfl & HN & Hdt & Hvi & Hdi)
                  [(Ru & Rv & Ru0 & Rv0 & Rd & Rd0 & Rp & Rdiv) Hz]].
  assert (Hl : (if vort then [Confinement Bu Bv] else []) =
               (if Thinking.vorticity s then [Confinement Bu Bv] else []))
    by (rewrite Hfl; reflexivity).
  rewrite Hl. clear Hl.
  destruct (Thinking.vorticity s) eqn:Ev.
  - assert (H2 : (2 <= n)%nat) by (apply Hn2; symmetry; exact Hfl).
    destruct (thinking_vorticity_runs sqrt (Thinking.u s) (Thinking.v s) 0.002)
      as (u' & v' & E & (Su & Sv) & Hzero); [lia |].
    unfold try_act, Thinking.do_vorticity. rewrite E.
    eexists. split; [reflexivity |].
    split; [repeat split; try assumption |].
    + cbn [Thinking.vorticity Thinking.with_u Thinking.with_v].
      rewrite Ev. exact Hfl.
    + split.
      * unfold thinking_shaped. thinking_fields. repeat split; congruence.
      * intros Hzt.
        destruct (Hz Hzt) as (Zu & Zv & Zu0 & Zv0 & Zd & Zd0 & Zp & Zdiv).
        destruct (Hzero Zu Zv) as (A & B).
        unfold thinking_all_zero. thinking_fields. repeat split; assumption.
  - exists s. split; [reflexivity | exact Hkeep].
Qed.

(** One command of the tick under the invariant; the side conditions
    are taken from the context. *)
Ltac tick_step :=
  match goal with
  | |- runs _ _ (try_act (ProjectOn _ _ _ _) _) _ =>
      apply thinking_project_step; lia
  | |- runs _ _ (try_act (DiffuseBy _ _ _ _) _) _ => diffuse_inv
  | |- runs _ _ (act _ _) _ => apply runs_act; keep_inv
  | |- runs _ _ (fun s => if _ then _ else _) _ =>
      apply thinking_vorticity_step; assumption
  end.

Tactic Notation "tick_prefix" integer(k) :=
  do k (apply (fails_later _ (thinking_inv n vort z DT VISC DIFF)
                 (thinking_inv n vort z DT VISC DIFF));
        [eapply runs_leads; tick_step |]).

(** [step] returns on a grid with interior cells (two per side with
    vorticity confinement) when no diffusion divides by zero. *)
Lemma thinking_step_runs :
  (1 <= n)%nat -> (vort = true -> (2 <= n)%nat) ->
  Qeq_bool (denominator DT VISC n) 0 = false ->
  Qeq_bool (denominator DT DIFF n) 0 = false ->
  runs _ (thinking_inv n vort z DT VISC DIFF) (Thinking.step sqrt)
    (thinking_step_trace vort).
Proof.
  intros Hn1 Hn2 Hvisc Hdiff. unfold Thinking.step.
  eapply runs_weaken.
  - repeat match goal with
    | |- runs _ _ (Trace.seq _ _) _ => eapply runs_seq
    | _ => tick_step
    end.
  - unfold thinking_step_trace, thinking_vel_trace, thinking_dens_trace.
    destruct vort; reflexivity.
Qed.

(** The first diffusion raises when [1 + 4 * a] is zero for the
    viscosity. *)
Lemma thinking_step_fails_viscous :
  Qeq_bool (denominator DT VISC n) 0 = true ->
  fails _ (thinking_inv n vort z DT VISC DIFF) (Thinking.step sqrt).
Proof.
  intros Hvisc. unfold Thinking.step.
  tick_prefix 4. apply fails_now. diffuse_raises.
Qed.

(** On a grid without interior cells the first projection divides by
    zero. *)
Lemma thinking_step_fails_empty :
  n = 0%nat -> fails _ (thinking_inv n vort z DT VISC DIFF) (Thinking.step sqrt).
Proof.
  intros Hn.
  assert (Hvisc : Qeq_bool (denominator DT VISC n) 0 = false)
    by (rewrite Hn; apply empty_denominator).
  unfold Thinking.step.
  tick_prefix 8. apply fails_now.
  open_inv. unfold try_act, Thinking.do_project.
  rewrite thinking_project_raises; [reflexivity |]. rewrite Ru, Hn. reflexivity.
Qed.

(** On a grid with one interior cell per side the first projection
    returns and vorticity confinement then indexes past the end of the
    1 by 1 array of curls, unless the first diffusion has raised. *)
Lemma thinking_step_fails_single :
  n = 1%nat -> vort = true ->
  fails _ (thinking_inv n vort z DT VISC DIFF) (Thinking.step sqrt).
Proof.
  intros Hn Hv.
  destruct (Qeq_bool (denominator DT VISC n) 0) eqn:Hvisc;
    [apply thinking_step_fails_viscous; exact Hvisc |].
  unfold Thinking.step.
  tick_prefix 13. apply fails_now.
  open_inv. rewrite Hfl, Hv.
  unfold try_act, Thinking.do_vorticity.
  rewrite thinking_vorticity_small_grid; [reflexivity |]. lia.
Qed.

(** The call raises when [1 + 4 * a] is zero for the density
    coefficient: in the diffusion of the density, if not before. *)
Lemma thinking_step_fails_diffusing :
  Qeq_bool (denominator DT DIFF n) 0 = true ->
  fails _ (thinking_inv n vort z DT VISC DIFF) (Thinking.step sqrt).
Proof.
  intros Hdiff.
  destruct (Qeq_bool (denominator DT VISC n) 0) eqn:Hvisc;
    [apply thinking_step_fails_viscous; exact Hvisc |].
  destruct (Nat.eq_dec n 0) as [H0 | H0].
  { rewrite H0, empty_denominator in Hdiff. discriminate Hdiff. }
  destruct (Nat.eq_dec n 1) as [H1 | H1].
  - destruct (bool_dec vort true) as [Ev | Ev];
      [apply thinking_step_fails_single; assumption |].
    assert (Hn2 : vort = true -> (2 <= n)%nat) by (intros E; contradiction).
    unfold Thinking.step.
    tick_prefix 17. apply fails_now. diffuse_raises.
  - assert (Hn2 : vort = true -> (2 <= n)%nat) by (intros _; lia).
    unfold Thinking.step.
    tick_prefix 17. apply fails_now. diffuse_raises.
Qed.

End ThinkingTick.


(** ** Operators of the pro variant on all-zero inputs *)

Lemma pro_add_source_zero (x s : Field) (dt : Q) :
  is_zero x -> is_zero s -> is_zero (Pro.add_source x s dt).
Proof.
  intros Hx Hs. unfold Pro.add_source. apply is_zero_assign; [exact Hx |].
  intros i j. rewrite (Hx i j), (Hs i j). ring.
Qed.

(** [Fluid.diffuse] returns when [dt * diff] is not negative: it
    keeps the shape of [x] and maps all-zero arrays to an all-zero
    array. *)
Lemma pro_diffuse_returns pr b x x0 diff dt :
  0 <= dt * diff ->
  exists r, Pro.diffuse pr b x x0 diff dt = Some r /\
            rows r = rows x /\
            (is_zero x0 -> is_zero x -> is_zero r).
Proof.
  intros Hd. unfold Pro.diffuse. cbv zeta.
  rewrite (denominator_positive _ (weight_nonneg dt diff (Pro.N pr) Hd)).
  eexists. split; [reflexivity |]. split.
  - apply (repeat_n_inv Field (fun y => rows y = rows x)); [| reflexivity].
    intros y Hy. rewrite pro_sweep_rows. exact Hy.
  - intros H0 Hx. apply repeat_n_inv; [| exact Hx].
    intros y Hy. unfold Pro.diffuse_sweep. cbv zeta.
    apply pro_set_bnd_zero, is_zero_set_block; [exact Hy |].
    intros i j. zero_cells. ring.
Qed.

Lemma pro_advect_zero pr b d d0 u v dt :
  is_zero d -> is_zero d0 -> is_zero (Pro.advect pr b d d0 u v dt).
Proof.
  intros Hd H0. unfold Pro.advect. cbv zeta.
  apply pro_set_bnd_zero, is_zero_set_block; [exact Hd |].
  intros i j. apply bilinear_zero. exact H0.
Qed.

Lemma pro_pressure_zero pr (div p : Field) (k : nat) :
  is_zero div -> is_zero p ->
  is_zero (repeat_n k (Pro.pressure_sweep pr div) p).
Proof.
  intros Hd Hp. apply repeat_n_inv; [| exact Hp].
  intros y Hy. unfold Pro.pressure_sweep. cbv zeta.
  apply pro_set_bnd_zero, is_zero_set_block; [exact Hy |].
  intros i j. zero_cells. ring.
Qed.

Lemma pro_project_zero pr (u v p div : Field) :
  is_zero u -> is_zero v -> is_zero p -> is_zero div ->
  let '(u', v', p', div') := Pro.project pr u v p div in
  is_zero u' /\ is_zero v' /\ is_zero p' /\ is_zero div'.
Proof.
  intros Hu Hv Hp Hd. unfold Pro.project. cbv zeta.
  assert (Zd : is_zero (Pro.set_bnd pr 0
            (set_block div 1 (rows div - 1) (fun i j =>
               - 0.5 * (get u (i + 1) j - get u (i - 1) j +
                        get v i (j + 1) - get v i (j - 1)) / Qn (Pro.N pr))))).
  { apply pro_set_bnd_zero, is_zero_set_block; [exact Hd |].
    intros i j. zero_cells. unfold Qdiv. ring. }
  assert (Zp : is_zero (repeat_n (Pro.iters pr)
            (Pro.pressure_sweep pr
               (Pro.set_bnd pr 0
                  (set_block div 1 (rows div - 1) (fun i j =>
                     - 0.5 * (get u (i + 1) j - get u (i - 1) j +
                              get v i (j + 1) - get v i (j - 1)) / Qn (Pro.N pr)))))
            (Pro.set_bnd pr 0 (fill p 0)))).
  { apply pro_pressure_zero; [exact Zd |]. apply pro_set_bnd_zero, is_zero_fill. }
  repeat split; try assumption.
  - apply pro_set_bnd_zero, is_zero_set_block; [exact Hu |].
    intros i j. zero_cells. ring.
  - apply pro_set_bnd_zero, is_zero_set_block; [exact Hv |].
    intros i j. zero_cells. ring.
Qed.

Lemma pro_vorticity_zero (sqrt : Q -> Q) pr (u v u' v' : Field) (eps dt : Q) :
  is_zero u -> is_zero v ->
  Pro.vorticity_confinement sqrt pr u v eps dt = Some (u', v') ->
  is_zero u' /\ is_zero v'.
Proof.
  intros Hu Hv. unfold Pro.vorticity_confinement. cbv zeta.
  destruct (Qle_bool eps 0); [discriminate |].
  intros E. injection E as <- <-.
  assert (Zc : is_zero (set_block (zeros (rows u)) 1 (rows u - 1) (fun i j =>
            ((get v (i + 1) j - get v (i - 1) j) -
             (get u i (j + 1) - get u i (j - 1))) * 0.5))).
  { apply is_zero_set_block; [apply is_zero_zeros |].
    intros i j. zero_cells. ring. }
  split.
  - apply pro_set_bnd_zero, is_zero_set_block; [exact Hu |].
    intros i j. rewrite (Hu i j).
    match goal with
    | |- context [get (map2 ?f ?a ?c) i j] =>
        assert (ZF : is_zero (map2 f a c))
          by (apply is_zero_map2_r; [intros q w Hw; rewrite Hw; ring | exact Zc]);
        rewrite (ZF i j)
    end. ring.
  - apply pro_set_bnd_zero, is_zero_set_block; [exact Hv |].
    intros i j. rewrite (Hv i j).
    match goal with
    | |- context [get (map2 ?f ?a ?c) i j] =>
        assert (ZF : is_zero (map2 f a c))
          by (apply is_zero_map2_r; [intros q w Hw; rewrite Hw; ring | exact Zc]);
        rewrite (ZF i j)
    end. ring.
Qed.

Lemma pro_buoyancy_zero pr (v dens v' : Field) (coeff dt : Q) :
  is_zero v -> is_zero dens ->
  Pro.buoyancy_force pr v dens coeff dt = Some v' -> is_zero v'.
Proof.
  intros Hv Hd. unfold Pro.buoyancy_force.
  destruct (Qle_bool coeff 0); [discriminate |].
  intros E. injection E as <-.
  apply pro_set_bnd_zero, is_zero_set_block; [exact Hv |].
  intros i j. zero_cells. ring.
Qed.

(** ** One tick of the pro variant *)

#[export] Hint Resolve pro_add_source_zero pro_advect_zero : fluid_zero.

Ltac pro_fields :=
  cbn [Pro.params Pro.u Pro.v Pro.u0 Pro.v0 Pro.dens Pro.dens0 Pro.p Pro.div
       Pro.with_u Pro.with_v Pro.with_u0 Pro.with_v0 Pro.with_dens
       Pro.with_dens0].

(** Every logged call of [Fluid.vel_step] and of [Fluid.dens_step] is
    the operator it names on the arrays it names. *)
Lemma pro_project_faithful (sqrt : Q -> Q) (dt : Q) :
  faithful _ (pro_sem sqrt dt) (act (ProjectOn Bu Bv Bp Bdiv) Pro.do_project).
Proof.
  apply faithful_act. intros s. unfold Pro.do_project. simpl.
  destruct (Pro.project (Pro.params s) (Pro.u s) (Pro.v s) (Pro.p s) (Pro.div s))
    as [[[u' v'] p'] d'].
  reflexivity.
Qed.

Lemma pro_vel_step_faithful (sqrt : Q -> Q) (dt : Q) :
  faithful _ (pro_sem sqrt dt) (Pro.vel_step sqrt dt).
Proof.
  unfold Pro.vel_step.
  repeat match goal with
  | |- faithful _ _ (Trace.seq _ _) => apply faithful_seq
  | |- faithful _ _ (act (ProjectOn _ _ _ _) _) => apply pro_project_faithful
  | |- faithful _ _ (act _ _) => apply faithful_act; intros s; reflexivity
  end.
  - intros s s' l E. unfold Pro.buoyancy_cmd in E.
    destruct (Pro.buoyancy_force (Pro.params s) (Pro.v s) (Pro.dens s)
                (Pro.buoyancy (Pro.params s)) dt) as [v' |] eqn:Eb.
    + injection E as <- <-. simpl. rewrite Eb. reflexivity.
    + injection E as <- <-. reflexivity.
  - intros s s' l E. unfold Pro.vorticity_cmd in E.
    destruct (Pro.vorticity_confinement sqrt (Pro.params s) (Pro.u s) (Pro.v s)
                (Pro.vorticity (Pro.params s)) dt) as [[u' v'] |] eqn:Ev.
    + injection E as <- <-. simpl. rewrite Ev. reflexivity.
    + injection E as <- <-. reflexivity.
  - apply faithful_try_act. intros s. simpl.
    destruct (Pro.diffuse (Pro.params s) 1 (Pro.u s) (Pro.u0 s)
                (Pro.visc (Pro.params s)) dt); reflexivity.
  - apply faithful_try_act. intros s. simpl.
    destruct (Pro.diffuse (Pro.params s) 2 (Pro.v s) (Pro.v0 s)
                (Pro.visc (Pro.params s)) dt); reflexivity.
Qed.

Lemma pro_dens_step_faithful (sqrt : Q -> Q) (dt : Q) :
  faithful _ (pro_sem sqrt dt) (Pro.dens_step dt).
Proof.
  unfold Pro.dens_step.
  repeat match goal with
  | |- faithful _ _ (Trace.seq _ _) => apply faithful_seq
  | |- faithful _ _ (act _ _) => apply faithful_act; intros s; reflexivity
  end.
  apply faithful_try_act. intros s. simpl.
  destruct (Pro.diffuse (Pro.params s) 0 (Pro.dens s) (Pro.dens0 s)
              (Pro.diff (Pro.params s)) dt); reflexivity.
Qed.

Section ProTick.

Variable sqrt : Q -> Q.
Variable pr : Pro.Params.
Variable z : bool.
Variable dt : Q.
Hypothesis Hdamp : pro_damped pr dt.

Ltac keep_pro :=
  let s := fresh "s" in
  let Hp := fresh "Hp" in
  let Hz := fresh "Hz" in
  let Hzt := fresh "Hzt" in
  intros s [Hp Hz];
  split;
  [ pro_fields; exact Hp
  | intros Hzt;
    destruct (Hz Hzt) as (Zu & Zv & Zu0 & Zv0 & Zd & Zd0 & Zp & Zdiv);
    unfold pro_all_zero; pro_fields;
    repeat split; auto with fluid_zero ].

(** A diffusion of the tick: it returns because the damping condition
    keeps [1 + 4 * a] away from zero. *)
Ltac diffuse_pro :=
  let s := fresh "s" in
  let Hp := fresh "Hp" in
  let Hz := fresh "Hz" in
  apply runs_try_act; intros s [Hp Hz];
  match goal with
  | |- exists s', option_map _ (Pro.diffuse ?q ?b ?x ?x0 ?c dt) = Some s' /\ _ =>
      let r := fresh "r" in
      destruct (pro_diffuse_returns q b x x0 c dt) as (r & E & Rr & Zr);
      [ rewrite Hp; apply Hdamp
      | rewrite E; cbn [option_map]; eexists; split; [reflexivity |] ]
  end;
  split;
  [ pro_fields; exact Hp
  | let Hzt := fresh "Hzt" in
    intros Hzt;
    destruct (Hz Hzt) as (Zu & Zv & Zu0 & Zv0 & Zd & Zd0 & Zp & Zdiv);
    unfold pro_all_zero; pro_fields;
    repeat split;
    first [ assumption
          | match goal with
            | H : is_zero _ -> is_zero _ -> is_zero ?y |- is_zero ?y =>
                apply H; assumption
            end ] ].

Lemma pro_project_step :
  runs _ (pro_inv pr z) (act (ProjectOn Bu Bv Bp Bdiv) Pro.do_project)
    [ProjectOn Bu Bv Bp Bdiv].
Proof.
  apply runs_act. intros s [Hp Hz]. unfold Pro.do_project.
  pose proof (pro_project_zero (Pro.params s) (Pro.u s) (Pro.v s)
                (Pro.p s) (Pro.div s)) as Hzero.
  destruct (Pro.project (Pro.params s) (Pro.u s) (Pro.v s) (Pro.p s) (Pro.div s))
    as [[[u' v'] p'] div'].
  split; [exact Hp |].
  intros Hzt. destruct (Hz Hzt) as (Zu & Zv & Zu0 & Zv0 & Zd & Zd0 & Zp & Zdiv).
  destruct (Hzero Zu Zv Zp Zdiv) as (A & B & C & D).
  unfold pro_all_zero. pro_fields. repeat split; assumption.
Qed.

Lemma pro_buoyancy_step :
  runs _ (pro_inv pr z) (Pro.buoyancy_cmd dt)
    (if Qle_bool (Pro.buoyancy pr) 0 then [] else [BuoyancyForce Bv Bd]).
Proof.
  intros s Hs. pose proof Hs as Hkeep. destruct Hs as [Hp Hz].
  unfold Pro.buoyancy_cmd. rewrite Hp.
  destruct (Pro.buoyancy_force pr (Pro.v s) (Pro.dens s) (Pro.buoyancy pr) dt)
    as [v' |] eqn:E.
  - assert (G : Qle_bool (Pro.buoyancy pr) 0 = false).
    { unfold Pro.buoyancy_force in E.
      destruct (Qle_bool (Pro.buoyancy pr) 0); [discriminate | reflexivity]. }
    rewrite G. eexists. split; [reflexivity |].
    split; [exact Hp |].
    intros Hzt. destruct (Hz Hzt) as (Zu & Zv & Zu0 & Zv0 & Zd & Zd0 & Zp & Zdiv).
    pose proof (pro_buoyancy_zero _ _ _ _ _ _ Zv Zd E) as Zv'.
    unfold pro_all_zero. pro_fields. repeat split; assumption.
  - assert (G : Qle_bool (Pro.buoyancy pr) 0 = true).
    { unfold Pro.buoyancy_force in E.
      destruct (Qle_bool (Pro.buoyancy pr) 0); [reflexivity | discriminate]. }
    rewrite G. exists s. split; [reflexivity | exact Hkeep].
Qed.

Lemma pro_vorticity_step :
  runs _ (pro_inv pr z) (Pro.vorticity_cmd sqrt dt)
    (if Qle_bool (Pro.vorticity pr) 0 then [] else [Confinement Bu Bv]).
Proof.
  intros s Hs. pose proof Hs as Hkeep. destruct Hs as [Hp Hz].
  unfold Pro.vorticity_cmd. rewrite Hp.
  destruct (Pro.vorticity_confinement sqrt pr (Pro.u s) (Pro.v s)
              (Pro.vorticity pr) dt) as [[u' v'] |] eqn:E.
  - assert (G : Qle_bool (Pro.vorticity pr) 0 = false).
    { unfold Pro.vorticity_confinement in E.
      destruct (Qle_bool (Pro.vorticity pr) 0); [discriminate | reflexivity]. }
    rewrite G. eexists. split; [reflexivity |].
    split; [exact Hp |].
    intros Hzt. destruct (Hz Hzt) as (Zu & Zv & Zu0 & Zv0 & Zd & Zd0 & Zp & Zdiv).
    destruct (pro_vorticity_zero _ _ _ _ _ _ _ _ Zu Zv E) as [Zu' Zv'].
    unfold pro_all_zero. pro_fields. repeat split; assumption.
  - assert (G : Qle_bool (Pro.vorticity pr) 0 = true).
    { unfold Pro.vorticity_confinement in E.
      destruct (Qle_bool (Pro.vorticity pr) 0); [reflexivity | discriminate]. }
    rewrite G. exists s. split; [reflexivity | exact Hkeep].
Qed.

Ltac run_pro :=
  repeat match goal with
  | |- runs _ _ (Trace.seq _ _) _ => eapply runs_seq
  | |- runs _ _ (act (ProjectOn _ _ _ _) _) _ => apply pro_project_step
  | |- runs _ _ (try_act (DiffuseBy _ _ _ _) _) _ => diffuse_pro
  | |- runs _ _ (act _ _) _ => apply runs_act; keep_pro
  | |- runs _ _ (Pro.buoyancy_cmd _) _ => apply pro_buoyancy_step
  | |- runs _ _ (Pro.vorticity_cmd _ _) _ => apply pro_vorticity_step
  end.

Lemma pro_vel_step_runs :
  runs _ (pro_inv pr z) (Pro.vel_step sqrt dt) (pro_vel_trace pr).
Proof.
  unfold Pro.vel_step. eapply runs_weaken; [run_pro | reflexivity].
Qed.

Lemma pro_dens_step_runs :
  runs _ (pro_inv pr z) (Pro.dens_step dt) pro_dens_trace.
Proof.
  unfold Pro.dens_step. eapply runs_weaken; [run_pro | reflexivity].
Qed.

Lemma pro_step_runs :
  runs _ (pro_inv pr z) (Pro.step sqrt dt) (pro_vel_trace pr ++ pro_dens_trace).
Proof.
  unfold Pro.step. apply runs_seq.
  - apply pro_vel_step_runs.
  - apply pro_dens_step_runs.
Qed.

End ProTick.

Lemma thinking_well_formed_shaped (s : Thinking.Fluid2D) :
  thinking_well_formed s = true -> thinking_shaped (Thinking.N s) s.
Proof.
  unfold thinking_well_formed, thinking_shaped. cbn [forallb].
  rewrite !andb_true_iff.
  intros (A & B & C & D & E & F & G & H & _).
  repeat split; apply has_shape_rows; assumption.
Qed.

Lemma thinking_inv_here (z : bool) (s : Thinking.Fluid2D) :
  thinking_well_formed s = true ->
  (z = true -> thinking_all_zero s) ->
  thinking_inv_of z s s.
Proof.
  intros Hwf Hz. split; [repeat split |].
  split; [apply thinking_well_formed_shaped, Hwf | exact Hz].
Qed.

(** [step] returns when the time step does not have the opposite sign
    of a diffusion coefficient. *)
Lemma thinking_damped_runs (sqrt : Q -> Q) (z : bool) (s : Thinking.Fluid2D) :
  thinking_damped s ->
  (1 <= Thinking.N s)%nat ->
  (Thinking.vorticity s = true -> (2 <= Thinking.N s)%nat) ->
  runs _ (thinking_inv_of z s) (Thinking.step sqrt)
    (thinking_step_trace (Thinking.vorticity s)).
Proof.
  intros [Hv Hd] Hn1 Hn2. unfold thinking_inv_of.
  apply thinking_step_runs; try assumption; apply damped_denominator; assumption.
Qed.

Lemma exec_of_run (S : Type) (c : Cmd S) (s s' : S) (l : list call) :
  c s = Some (s', l) -> exec c s = Some s' /\ trace c s = Some l.
Proof. intros E. unfold exec, trace. rewrite E. split; reflexivity. Qed.

Lemma pro_well_formed_shaped (s : Pro.Fluid) :
  pro_well_formed s = true ->
  rows (Pro.u s) = (Pro.N (Pro.params s) + 2)%nat /\
  rows (Pro.v s) = (Pro.N (Pro.params s) + 2)%nat.
Proof.
  unfold pro_well_formed. cbn [forallb]. rewrite !andb_true_iff.
  intros (A & B & _). split; apply has_shape_rows; assumption.
Qed.

(** ** The all-zero state *)

(** C1.  From a well-formed object whose eight arrays are zero in
    every cell, any number of calls of [step] with no source injection
    returns and leaves every cell of every array zero.  This holds for
    [Fluid.step] of the pro variant and for [Fluid2D.step] of the
    thinking variant when the time step does not have the opposite
    sign of a diffusion coefficient (every diffusion then divides by
    [1 + 4 * a >= 1]; with [1 + 4 * a = 0] the call raises), and, for
    the thinking variant, on a grid on which the call returns (at least
    one interior cell per side, and at least two when vorticity
    confinement is enabled). *)
Theorem zero_state_is_fixed_point
    (sqrt : Q -> Q) (ps : Pro.Fluid) (ts : Thinking.Fluid2D) (dt : Q) (k : nat) :
  pro_well_formed ps = true ->
  pro_all_zero ps ->
  pro_damped (Pro.params ps) dt ->
  thinking_well_formed ts = true ->
  thinking_all_zero ts ->
  thinking_damped ts ->
  (1 <= Thinking.N ts)%nat ->
  (Thinking.vorticity ts = true -> (2 <= Thinking.N ts)%nat) ->
  (exists ps', exec (times k (Pro.step sqrt dt)) ps = Some ps' /\
               pro_all_zero ps') /\
  (exists ts', exec (times k (Thinking.step sqrt)) ts = Some ts' /\
               thinking_all_zero ts').
Proof.
  intros _ Hp Hpd Hwf Hz Htd Hn1 Hn2. split.
  - destruct (runs_times _ _ _ _ k
                (pro_step_runs sqrt (Pro.params ps) true dt Hpd) ps)
      as [ps' [E [_ Hz']]].
    + split; [reflexivity | intros _; exact Hp].
    + exists ps'. split; [apply (exec_of_run _ _ _ _ _ E) | apply Hz'; reflexivity].
  - destruct (runs_times _ _ _ _ k
                (thinking_damped_runs sqrt true ts Htd Hn1 Hn2) ts)
      as [ts' [E [_ [_ Hz']]]].
    + apply thinking_inv_here; [exact Hwf | intros _; exact Hz].
    + exists ts'. split; [apply (exec_of_run _ _ _ _ _ E) | apply Hz'; reflexivity].
Qed.

Lemma pro_init_all_zero (pr : Pro.Params) : pro_all_zero (Pro.init pr).
Proof. unfold pro_all_zero, Pro.init. simpl. repeat split; apply is_zero_zeros. Qed.

Lemma thinking_init_all_zero n dt diff visc vort :
  thinking_all_zero (Thinking.init n dt diff visc vort).
Proof.
  unfold thinking_all_zero, Thinking.init. simpl. repeat split; apply is_zero_zeros.
Qed.

Lemma zero_state_is_fixed_point_witness :
  (exists ps', exec (times 3 (Pro.step sqrt_stub (1 # 60))) (Pro.init sample_params)
                 = Some ps' /\ pro_all_zero ps') /\
  (exists ts', exec (times 3 (Thinking.step sqrt_stub)) sample_fluid2d = Some ts' /\
               thinking_all_zero ts').
Proof.
  apply (zero_state_is_fixed_point sqrt_stub (Pro.init sample_params)
           sample_fluid2d (1 # 60) 3).
  - reflexivity.
  - apply pro_init_all_zero.
  - split; apply Qle_bool_imp_le; reflexivity.
  - reflexivity.
  - apply thinking_init_all_zero.
  - split; apply Qle_bool_imp_le; reflexivity.
  - simpl. lia.
  - intros _. simpl. lia.
Defined.

(** ** The order of the operators in a tick *)

Lemma positive_guard (q : Q) : 0 < q -> Qle_bool q 0 = false.
Proof.
  intros Hq. apply not_true_is_false. intros H.
  apply Qle_bool_iff in H. lra.
Qed.

(** [Fluid.vel_step] returns under the damping condition, with the
    log [pro_vel_trace], and replaying that log gives what it
    returned. *)
Lemma pro_vel_step_logged (sqrt : Q -> Q) (ps : Pro.Fluid) (dt : Q) :
  pro_damped (Pro.params ps) dt ->
  exists ps',
    Pro.vel_step sqrt dt ps = Some (ps', pro_vel_trace (Pro.params ps)) /\
    replay (pro_sem sqrt dt) (pro_vel_trace (Pro.params ps)) ps = Some ps'.
Proof.
  intros Hd.
  destruct (pro_vel_step_runs sqrt (Pro.params ps) false dt Hd ps) as [ps' [E _]].
  - split; [reflexivity | discriminate].
  - exists ps'. split; [exact E |].
    apply (pro_vel_step_faithful sqrt dt _ _ _ E).
Qed.

(** [Fluid2D.step] returns on a well-formed, damped object of a
    large enough grid, with the log [thinking_step_trace], and
    replaying that log gives what it returned. *)
Lemma thinking_step_logged (sqrt : Q -> Q) (ts : Thinking.Fluid2D) :
  thinking_well_formed ts = true ->
  thinking_damped ts ->
  (1 <= Thinking.N ts)%nat ->
  (Thinking.vorticity ts = true -> (2 <= Thinking.N ts)%nat) ->
  exists ts',
    Thinking.step sqrt ts
      = Some (ts', thinking_step_trace (Thinking.vorticity ts)) /\
    replay (thinking_sem sqrt) (thinking_step_trace (Thinking.vorticity ts)) ts
      = Some ts'.
Proof.
  intros Hwf Htd Hn1 Hn2.
  destruct (thinking_damped_runs sqrt false ts Htd Hn1 Hn2 ts) as [ts' [E _]].
  - apply thinking_inv_here; [exact Hwf | discriminate].
  - exists ts'. split; [exact E |].
    apply (thinking_step_faithful sqrt _ _ _ E).
Qed.

(** C3, as stated, fails on [Fluid2D.step]: the call on a fresh
    object with vorticity confinement enabled returns with a log that
    replays to the object returned, and in which vorticity confinement
    comes after advection, hence after diffusion and after the first
    projection. *)
Lemma velocity_phase_order_counterexample :
  ~ (forall ts' l,
       Thinking.step sqrt_stub sample_fluid2d = Some (ts', l) ->
       replay (thinking_sem sqrt_stub) l sample_fluid2d = Some ts' ->
       vorticity_first (phases l) = true).
Proof.
  intros H.
  destruct (thinking_step_logged sqrt_stub sample_fluid2d) as (ts' & E & R).
  - reflexivity.
  - split; apply Qle_bool_imp_le; reflexivity.
  - simpl. lia.
  - intros _. simpl. lia.
  - specialize (H _ _ E R). vm_compute in H. discriminate H.
Qed.

(** C3, amended.  [Fluid.vel_step] of the pro variant makes these
    calls, in this order and on these arrays: [add_source] of [u] from
    [u0] and of [v] from [v0], the zeroing of [u0] and [v0], buoyancy
    on [v] from the density (when its coefficient is positive),
    vorticity confinement on [u, v] (when its strength is positive),
    the copy of [u, v] into [u0, v0] and the diffusion of [u] and [v]
    with that copy as reference, projection, the copy of [u, v] into
    [u0, v0] again and the advection of [u] and [v] from that copy,
    carried by that copy, projection.  [Fluid2D.step] of the thinking
    variant has no buoyancy and calls sources and zeroing, the
    diffusion of the velocity into [u0, v0] and the exchange of the
    buffers, projection, the advection of the projected velocity into
    [u0, v0], carried by itself, and the exchange of the buffers, then
    vorticity confinement (when enabled), then the second projection,
    followed by the density half.  In both, the call returns (when no
    diffusion divides by zero, and for the thinking variant on a grid
    large enough) and replaying the logged calls one by one, each as
    the operator it names on the arrays it names, gives the object that
    the call returns.  So in the pro variant vorticity confinement
    comes before diffusion and before the first projection, and in the
    thinking variant it comes after advection. *)
Theorem velocity_phase_order
    (sqrt : Q -> Q) (ps : Pro.Fluid) (ts : Thinking.Fluid2D) (dt : Q) :
  pro_well_formed ps = true ->
  pro_damped (Pro.params ps) dt ->
  thinking_well_formed ts = true ->
  thinking_damped ts ->
  (1 <= Thinking.N ts)%nat ->
  (Thinking.vorticity ts = true -> (2 <= Thinking.N ts)%nat) ->
  (exists ps',
     Pro.vel_step sqrt dt ps = Some (ps', pro_vel_trace (Pro.params ps)) /\
     replay (pro_sem sqrt dt) (pro_vel_trace (Pro.params ps)) ps = Some ps') /\
  (0 < Pro.buoyancy (Pro.params ps) -> 0 < Pro.vorticity (Pro.params ps) ->
   pro_vel_trace (Pro.params ps) =
   [AddSource Bu Bu0; AddSource Bv Bv0; Fill Bu0; Fill Bv0;
    BuoyancyForce Bv Bd; Confinement Bu Bv;
    CopyInto Bu0 Bu; CopyInto Bv0 Bv;
    DiffuseBy 1 Bu Bu0 Cvisc; DiffuseBy 2 Bv Bv0 Cvisc;
    ProjectOn Bu Bv Bp Bdiv;
    CopyInto Bu0 Bu; CopyInto Bv0 Bv;
    AdvectBy 1 Bu Bu0 Bu0 Bv0; AdvectBy 2 Bv Bv0 Bu0 Bv0;
    ProjectOn Bu Bv Bp Bdiv]) /\
  (0 < Pro.vorticity (Pro.params ps) ->
   vorticity_first (phases (pro_vel_trace (Pro.params ps))) = true) /\
  (exists ts',
     Thinking.step sqrt ts
       = Some (ts', thinking_vel_trace (Thinking.vorticity ts)
                    ++ thinking_dens_trace) /\
     replay (thinking_sem sqrt)
       (thinking_vel_trace (Thinking.vorticity ts) ++ thinking_dens_trace) ts
       = Some ts') /\
  thinking_vel_trace (Thinking.vorticity ts) =
    [AddSource Bu Bu0; Fill Bu0; AddSource Bv Bv0; Fill Bv0;
     DiffuseBy 1 Bu0 Bu Cvisc; DiffuseBy 2 Bv0 Bv Cvisc;
     Exchange Bu Bu0; Exchange Bv Bv0;
     ProjectOn Bu Bv Bp Bdiv;
     AdvectBy 1 Bu0 Bu Bu Bv; AdvectBy 2 Bv0 Bv Bu Bv;
     Exchange Bu Bu0; Exchange Bv Bv0] ++
    (if Thinking.vorticity ts then [Confinement Bu Bv] else []) ++
    [ProjectOn Bu Bv Bp Bdiv] /\
  (Thinking.vorticity ts = true ->
   precedes Diffuse Vorticity (phases (thinking_vel_trace true)) = true /\
   precedes Project Vorticity (phases (thinking_vel_trace true)) = true /\
   precedes Advect Vorticity (phases (thinking_vel_trace true)) = true).
Proof.
  intros _ Hpd Hwf Htd Hn1 Hn2.
  split; [apply pro_vel_step_logged; exact Hpd |].
  split.
  { intros Hb Hv. unfold pro_vel_trace.
    rewrite (positive_guard _ Hb), (positive_guard _ Hv). reflexivity. }
  split.
  { intros Hv. unfold pro_vel_trace. rewrite (positive_guard _ Hv).
    destruct (Qle_bool (Pro.buoyancy (Pro.params ps)) 0); reflexivity. }
  split; [apply (thinking_step_logged sqrt ts Hwf Htd Hn1 Hn2) |].
  split; [reflexivity |].
  intros _. repeat split; reflexivity.
Qed.

Lemma velocity_phase_order_witness :
  (exists ps',
     Pro.vel_step sqrt_stub (1 # 60) (Pro.init sample_params)
       = Some (ps', pro_vel_trace sample_params) /\
     replay (pro_sem sqrt_stub (1 # 60)) (pro_vel_trace sample_params)
       (Pro.init sample_params) = Some ps') /\
  pro_vel_trace sample_params =
   [AddSource Bu Bu0; AddSource Bv Bv0; Fill Bu0; Fill Bv0;
    BuoyancyForce Bv Bd; Confinement Bu Bv;
    CopyInto Bu0 Bu; CopyInto Bv0 Bv;
    DiffuseBy 1 Bu Bu0 Cvisc; DiffuseBy 2 Bv Bv0 Cvisc;
    ProjectOn Bu Bv Bp Bdiv;
    CopyInto Bu0 Bu; CopyInto Bv0 Bv;
    AdvectBy 1 Bu Bu0 Bu0 Bv0; AdvectBy 2 Bv Bv0 Bu0 Bv0;
    ProjectOn Bu Bv Bp Bdiv] /\
  vorticity_first (phases (pro_vel_trace sample_params)) = true /\
  (exists ts',
     Thinking.step sqrt_stub sample_fluid2d
       = Some (ts', thinking_vel_trace true ++ thinking_dens_trace) /\
     replay (thinking_sem sqrt_stub)
       (thinking_vel_trace true ++ thinking_dens_trace) sample_fluid2d
       = Some ts') /\
  precedes Advect Vorticity (phases (thinking_vel_trace true)) = true.
Proof.
  assert (Hpd : pro_damped sample_params (1 # 60))
    by (split; apply Qle_bool_imp_le; reflexivity).
  assert (Htd : thinking_damped sample_fluid2d)
    by (split; apply Qle_bool_imp_le; reflexivity).
  assert (Hn1 : (1 <= Thinking.N sample_fluid2d)%nat) by (simpl; lia).
  assert (Hn2 : Thinking.vorticity sample_fluid2d = true ->
                (2 <= Thinking.N sample_fluid2d)%nat) by (intros _; simpl; lia).
  destruct (velocity_phase_order sqrt_stub (Pro.init sample_params)
              sample_fluid2d (1 # 60) eq_refl Hpd eq_refl Htd Hn1 Hn2)
    as (A & B & C & D & _ & F).
  split; [exact A |].
  split; [apply B; reflexivity |].
  split; [apply C; reflexivity |].
  split; [exact D |].
  apply F. reflexivity.
Defined.

(** * Further properties of the solver *)

(** ** Arrays are determined by their cells *)

Lemma field_ext (n : nat) (x y : Field) :
  has_shape n x = true -> has_shape n y = true ->
  (forall i j, (i < n)%nat -> (j < n)%nat -> get x i j = get y i j) ->
  x = y.
Proof.
  unfold has_shape. intros Hx Hy Hc.
  apply andb_true_iff in Hx. destruct Hx as [Lx Fx].
  apply andb_true_iff in Hy. destruct Hy as [Ly Fy].
  apply Nat.eqb_eq in Lx. apply Nat.eqb_eq in Ly.
  rewrite forallb_forall in Fx, Fy.
  apply (nth_ext x y [] []); [congruence |].
  intros i Hi.
  assert (Hrx : length (nth i x []) = n).
  { apply Nat.eqb_eq, Fx, nth_In. exact Hi. }
  assert (Hry : length (nth i y []) = n).
  { apply Nat.eqb_eq, Fy, nth_In. lia. }
  apply (nth_ext _ _ 0 0); [congruence |].
  intros j Hj. apply (Hc i j); lia.
Qed.

Lemma thinking_set_bnd_shape (b : Z) (x : Field) :
  has_shape (rows x) (Thinking.set_bnd b x) = true.
Proof.
  unfold Thinking.set_bnd. cbv zeta. unfold set_cell at 1.
  match goal with
  | |- has_shape _ (assign ?y _ _) = true =>
      replace (rows x) with (rows y); [apply has_shape_mk |]
  end.
  rewrite !rows_set_cell, !rows_set_col, !rows_set_row. reflexivity.
Qed.

(** ** The boundary rule reads the interior only *)

Section BoundaryFromInterior.

Variable n : nat.
Variable b : Z.
Variables x y : Field.
Hypothesis Hx : rows x = (n + 2)%nat.
Hypothesis Hy : rows y = (n + 2)%nat.
Hypothesis Hn : (1 <= n)%nat.
Hypothesis Hsame : forall i j, (1 <= i <= n)%nat -> (1 <= j <= n)%nat ->
  get x i j = get y i j.

Lemma thinking_set_bnd_cells (i j : nat) :
  (i <= n + 1)%nat -> (j <= n + 1)%nat ->
  get (Thinking.set_bnd b x) i j = get (Thinking.set_bnd b y) i j.
Proof.
  intros Hi Hj.
  destruct (thinking_set_bnd_corners n b x Hx Hn) as (Cx1 & Cx2 & Cx3 & Cx4).
  destruct (thinking_set_bnd_corners n b y Hy Hn) as (Cy1 & Cy2 & Cy3 & Cy4).
  assert (Rlo : forall k, (1 <= k <= n)%nat ->
            get (Thinking.set_bnd b x) 0 k = get (Thinking.set_bnd b y) 0 k).
  { intros k Hk. rewrite !(thinking_set_bnd_row_lo n) by assumption.
    rewrite Hsame by lia. reflexivity. }
  assert (Rhi : forall k, (1 <= k <= n)%nat ->
            get (Thinking.set_bnd b x) (n + 1) k = get (Thinking.set_bnd b y) (n + 1) k).
  { intros k Hk. rewrite !(thinking_set_bnd_row_hi n) by assumption.
    rewrite Hsame by lia. reflexivity. }
  assert (Clo : forall k, (1 <= k <= n)%nat ->
            get (Thinking.set_bnd b x) k 0 = get (Thinking.set_bnd b y) k 0).
  { intros k Hk. rewrite !(thinking_set_bnd_col_lo n) by assumption.
    rewrite Hsame by lia. reflexivity. }
  assert (Chi : forall k, (1 <= k <= n)%nat ->
            get (Thinking.set_bnd b x) k (n + 1) = get (Thinking.set_bnd b y) k (n + 1)).
  { intros k Hk. rewrite !(thinking_set_bnd_col_hi n) by assumption.
    rewrite Hsame by lia. reflexivity. }
  destruct (Nat.eq_dec i 0) as [-> | Hi0];
    [| destruct (Nat.eq_dec i (n + 1)) as [-> | Hi1]];
    (destruct (Nat.eq_dec j 0) as [-> | Hj0];
     [| destruct (Nat.eq_dec j (n + 1)) as [-> | Hj1]]).
  - rewrite Cx1, Cy1, Clo, Rlo by lia. reflexivity.
  - rewrite Cx2, Cy2, Chi, Rlo by lia. reflexivity.
  - apply Rlo. lia.
  - rewrite Cx3, Cy3, Clo, Rhi by lia. reflexivity.
  - rewrite Cx4, Cy4, Chi, Rhi by lia. reflexivity.
  - apply Rhi. lia.
  - apply Clo. lia.
  - apply Chi. lia.
  - rewrite !(thinking_set_bnd_interior n) by (assumption || lia).
    apply Hsame; lia.
Qed.

Lemma thinking_set_bnd_from_interior :
  Thinking.set_bnd b x = Thinking.set_bnd b y.
Proof.
  apply (field_ext (n + 2)).
  - rewrite <- Hx. apply thinking_set_bnd_shape.
  - rewrite <- Hy. apply thinking_set_bnd_shape.
  - intros i j Hi Hj. apply thinking_set_bnd_cells; lia.
Qed.

End BoundaryFromInterior.

(** X1.  The boundary rule reads only the interior: on grids with at
    least one interior cell, two arrays of the same shape that agree on
    every interior cell are mapped to the same array, whatever their
    ghost cells hold, in each of the three variants. *)
Theorem set_bnd_reads_interior_only
    (n : nat) (pr : Pro.Params) (b : Z) (x y : Field) :
  has_shape (n + 2) x = true -> has_shape (n + 2) y = true ->
  Pro.N pr = n -> (1 <= n)%nat ->
  (forall i j, (1 <= i <= n)%nat -> (1 <= j <= n)%nat -> get x i j = get y i j) ->
  Base.set_bnd b x = Base.set_bnd b y /\
  Pro.set_bnd pr b x = Pro.set_bnd pr b y /\
  Thinking.set_bnd b x = Thinking.set_bnd b y.
Proof.
  intros Hx Hy Hpr Hn Hsame.
  apply has_shape_rows in Hx. apply has_shape_rows in Hy.
  rewrite (base_set_bnd_eq n b x Hx), (base_set_bnd_eq n b y Hy).
  rewrite (pro_set_bnd_eq n b x Hx pr Hpr), (pro_set_bnd_eq n b y Hy pr Hpr).
  pose proof (thinking_set_bnd_from_interior n b x y Hx Hy Hn Hsame) as E.
  repeat split; exact E.
Qed.

Lemma set_bnd_reads_interior_only_witness :
  Base.set_bnd 1 sample_grid = Base.set_bnd 1 sample_grid_other_ghosts /\
  Pro.set_bnd sample_params 1 sample_grid
    = Pro.set_bnd sample_params 1 sample_grid_other_ghosts /\
  Thinking.set_bnd 1 sample_grid = Thinking.set_bnd 1 sample_grid_other_ghosts.
Proof.
  apply (set_bnd_reads_interior_only 3 sample_params 1 sample_grid
           sample_grid_other_ghosts); try reflexivity; try lia.
  intros i j Hi Hj.
  assert (Ei : i = 1%nat \/ i = 2%nat \/ i = 3%nat) by lia.
  assert (Ej : j = 1%nat \/ j = 2%nat \/ j = 3%nat) by lia.
  destruct Ei as [-> | [-> | ->]]; destruct Ej as [-> | [-> | ->]]; reflexivity.
Defined.

(** X2.  The boundary rule is idempotent: on grids with at least one
    interior cell, applying it a second time with the same kind changes
    nothing, in each of the three variants. *)
Theorem set_bnd_idempotent (n : nat) (pr : Pro.Params) (b : Z) (x : Field) :
  has_shape (n + 2) x = true ->
  Pro.N pr = n -> (1 <= n)%nat ->
  Base.set_bnd b (Base.set_bnd b x) = Base.set_bnd b x /\
  Pro.set_bnd pr b (Pro.set_bnd pr b x) = Pro.set_bnd pr b x /\
  Thinking.set_bnd b (Thinking.set_bnd b x) = Thinking.set_bnd b x.
Proof.
  intros Hx Hpr Hn. apply has_shape_rows in Hx.
  assert (Hr : rows (Thinking.set_bnd b x) = (n + 2)%nat)
    by (rewrite thinking_set_bnd_rows'; exact Hx).
  assert (E : Thinking.set_bnd b (Thinking.set_bnd b x) = Thinking.set_bnd b x).
  { apply (thinking_set_bnd_from_interior n); try assumption.
    intros i j Hi Hj. apply (thinking_set_bnd_interior n); assumption. }
  rewrite (base_set_bnd_eq n b x Hx), (pro_set_bnd_eq n b x Hx pr Hpr).
  rewrite (base_set_bnd_eq n b _ Hr), (pro_set_bnd_eq n b _ Hr pr Hpr).
  repeat split; exact E.
Qed.

Lemma set_bnd_idempotent_witness :
  Base.set_bnd 2 (Base.set_bnd 2 sample_grid) = Base.set_bnd 2 sample_grid /\
  Pro.set_bnd sample_params 2 (Pro.set_bnd sample_params 2 sample_grid)
    = Pro.set_bnd sample_params 2 sample_grid /\
  Thinking.set_bnd 2 (Thinking.set_bnd 2 sample_grid)
    = Thinking.set_bnd 2 sample_grid.
Proof.
  apply (set_bnd_idempotent 3 sample_params 2 sample_grid);
    [reflexivity | reflexivity | lia].
Defined.

(** ** The boundary rule keeps a range *)

Lemma flip_if_within (b k : Z) (lo hi q : Q) :
  kind_fits b lo hi -> (k = 1 \/ k = 2)%Z ->
  lo <= q <= hi -> lo <= flip_if b k q <= hi.
Proof.
  intros [-> | Hsym] Hk Hq; unfold flip_if.
  - destruct Hk as [-> | ->]; simpl; exact Hq.
  - destruct (b =? k)%Z; [| exact Hq]. lra.
Qed.

Section RangeStages.

Variable n : nat.
Variable b : Z.
Variables lo hi : Q.
Hypothesis Hfit : kind_fits b lo hi.

(** An [(n+2)]-row array with every grid cell in [lo, hi]. *)
Let ok (x : Field) : Prop := rows x = (n + 2)%nat /\ within lo hi n x.

Lemma within_assign (x : Field) P rhs :
  ok x ->
  (forall i j, (i <= n + 1)%nat -> (j <= n + 1)%nat -> P i j = true ->
     lo <= rhs i j <= hi) ->
  ok (assign x P rhs).
Proof.
  intros [Hr Hw] Hrhs. split; [rewrite rows_assign; exact Hr |].
  intros i j Hi Hj. rewrite get_assign, Hr. settle_tests.
  destruct (P i j) eqn:E; [apply Hrhs; assumption | apply Hw; assumption].
Qed.

Lemma row_stage (x : Field) (i l h a : nat) (k : Z) :
  (k = 1 \/ k = 2)%Z -> (a <= n + 1)%nat ->
  ok x -> ok (set_row x i l h (fun j => flip_if b k (get x a j))).
Proof.
  intros Hk Ha Hx. apply within_assign; [exact Hx |].
  intros i' j' Hi Hj _. apply flip_if_within; try assumption.
  apply Hx; assumption.
Qed.

Lemma col_stage (x : Field) (j l h c : nat) (k : Z) :
  (k = 1 \/ k = 2)%Z -> (c <= n + 1)%nat ->
  ok x -> ok (set_col x j l h (fun i => flip_if b k (get x i c))).
Proof.
  intros Hk Hc Hx. apply within_assign; [exact Hx |].
  intros i' j' Hi Hj _. apply flip_if_within; try assumption.
  apply Hx; assumption.
Qed.

Lemma corner_stage (x : Field) (i j a c d e : nat) :
  (a <= n + 1)%nat -> (c <= n + 1)%nat -> (d <= n + 1)%nat -> (e <= n + 1)%nat ->
  ok x -> ok (set_cell x i j (0.5 * (get x a c + get x d e))).
Proof.
  intros Ha Hc Hd He Hx. apply within_assign; [exact Hx |].
  intros i' j' Hi Hj _.
  pose proof (proj2 Hx a c Ha Hc). pose proof (proj2 Hx d e Hd He). lra.
Qed.

Lemma thinking_set_bnd_within (x : Field) :
  ok x -> ok (Thinking.set_bnd b x).
Proof.
  intros Hx. unfold Thinking.set_bnd.
  rewrite (thinking_dimN n x (proj1 Hx)). cbv zeta.
  do 4 (apply corner_stage; try lia).
  do 2 (apply col_stage; [right; reflexivity | lia |]).
  do 2 (apply row_stage; [left; reflexivity | lia |]).
  exact Hx.
Qed.

End RangeStages.

(** The boundary rule applied to an array whose interior is in range
    gives an array that is in range on the whole grid. *)
Lemma bnd_of_interior_within (n : nat) (b : Z) (lo hi : Q) (y : Field) :
  rows y = (n + 2)%nat -> (1 <= n)%nat -> lo <= hi ->
  kind_fits b lo hi ->
  (forall i j, (1 <= i <= n)%nat -> (1 <= j <= n)%nat -> lo <= get y i j <= hi) ->
  within lo hi n (Thinking.set_bnd b y).
Proof.
  intros Hr Hn Hlh Hfit Hin.
  set (y' := set_block (fill y lo) 1 (n + 1) (fun i j => get y i j)).
  assert (Hr' : rows y' = (n + 2)%nat).
  { unfold y'. rewrite rows_set_block, rows_fill. exact Hr. }
  assert (Hcell : forall i j, (i <= n + 1)%nat -> (j <= n + 1)%nat ->
            get y' i j =
            if (in_slice 1 (n + 1) i && in_slice 1 (n + 1) j)%bool
            then get y i j else lo).
  { intros i j Hi Hj. unfold y'.
    rewrite get_set_block, rows_fill, get_fill, Hr. settle_tests. reflexivity. }
  rewrite (thinking_set_bnd_from_interior n b y y' Hr Hr' Hn).
  - apply (thinking_set_bnd_within n b lo hi Hfit y'). split; [exact Hr' |].
    intros i j Hi Hj. rewrite Hcell by assumption.
    destruct (in_slice 1 (n + 1) i && in_slice 1 (n + 1) j)%bool eqn:E.
    + apply andb_true_iff in E. destruct E as [Ei Ej].
      unfold in_slice in Ei, Ej.
      apply andb_true_iff in Ei. apply andb_true_iff in Ej.
      destruct Ei as [Ei1 Ei2]. destruct Ej as [Ej1 Ej2].
      apply Nat.leb_le in Ei1. apply Nat.leb_le in Ej1.
      apply Nat.ltb_lt in Ei2. apply Nat.ltb_lt in Ej2.
      apply Hin; lia.
    + split; [apply Qle_refl | exact Hlh].
  - intros i j Hi Hj. rewrite Hcell by lia. unfold in_slice. settle_tests.
    reflexivity.
Qed.

(** ** The density source buffer after a tick *)

(** Without diffusion [Fluid.diffuse] returns, and what it returns
    has the shape of [x] and the reference's value in every interior
    cell. *)
Lemma pro_diffuse_copies
    (n : nat) (pr : Pro.Params) (b : Z) (x x0 : Field) (diff dt : Q) :
  rows x = (n + 2)%nat -> Pro.N pr = n -> diff == 0 ->
  (1 <= Pro.iters pr)%nat ->
  exists r, Pro.diffuse pr b x x0 diff dt = Some r /\
            rows r = (n + 2)%nat /\
            forall i j, (1 <= i <= n)%nat -> (1 <= j <= n)%nat ->
              get r i j == get x0 i j.
Proof.
  intros Hs Hpr Hdiff Hit.
  unfold Pro.diffuse. cbv zeta.
  rewrite (denominator_one _ (zero_weight dt diff (Qn (Pro.N pr)) Hdiff)).
  eexists. split; [reflexivity |]. split.
  - apply (repeat_n_inv Field (fun y => rows y = (n + 2)%nat)); [| exact Hs].
    intros y Hy. rewrite pro_sweep_rows. exact Hy.
  - intros i j Hi Hj.
    destruct (Pro.iters pr) as [| k]; [lia |]. rewrite repeat_n_last.
    rewrite Hpr.
    apply (pro_sweep_copies n); try assumption.
    + apply zero_weight, Hdiff.
    + apply repeat_n_inv; [| exact Hs].
      intros y Hy. rewrite pro_sweep_rows. exact Hy.
Qed.

Lemma pro_advect_rows pr b d d0 u v dt :
  rows (Pro.advect pr b d d0 u v dt) = rows d.
Proof.
  unfold Pro.advect. cbv zeta. rewrite pro_set_bnd_rows, rows_set_block. reflexivity.
Qed.

(** One density tick of a fluid at rest without diffusion: the call
    returns, keeps the parameters, the velocity and the shapes, and
    leaves the injected density both in [dens] and in [dens0]. *)
Lemma pro_dens_tick_at_rest (s : Pro.Fluid) (n : nat) (dt : Q) :
  Pro.N (Pro.params s) = n ->
  rows (Pro.dens s) = (n + 2)%nat -> rows (Pro.dens0 s) = (n + 2)%nat ->
  Pro.diff (Pro.params s) == 0 -> (1 <= Pro.iters (Pro.params s))%nat ->
  is_zero (Pro.u s) -> is_zero (Pro.v s) ->
  exists s',
    exec (Pro.dens_step dt) s = Some s' /\
    (Pro.params s' = Pro.params s /\ Pro.u s' = Pro.u s /\ Pro.v s' = Pro.v s /\
     rows (Pro.dens s') = (n + 2)%nat /\ rows (Pro.dens0 s') = (n + 2)%nat) /\
    forall i j, (1 <= i <= n)%nat -> (1 <= j <= n)%nat ->
      get (Pro.dens s') i j == get (Pro.dens s) i j + dt * get (Pro.dens0 s) i j /\
      get (Pro.dens0 s') i j == get (Pro.dens s) i j + dt * get (Pro.dens0 s) i j.
Proof.
  intros HN Hd Hd0 Hdiff Hit Hu Hv.
  assert (R1 : rows (Pro.add_source (Pro.dens s) (Pro.dens0 s) dt) = (n + 2)%nat)
    by (unfold Pro.add_source; rewrite rows_assign; exact Hd).
  assert (Ry1 : rows (copy_into (fill (Pro.dens0 s) 0)
                        (Pro.add_source (Pro.dens s) (Pro.dens0 s) dt))
                = (n + 2)%nat)
    by (rewrite rows_copy_into, rows_fill; exact Hd0).
  destruct (pro_diffuse_copies n (Pro.params s) 0
              (Pro.add_source (Pro.dens s) (Pro.dens0 s) dt)
              (copy_into (fill (Pro.dens0 s) 0)
                 (Pro.add_source (Pro.dens s) (Pro.dens0 s) dt))
              (Pro.diff (Pro.params s)) dt R1 HN Hdiff Hit)
    as (x2 & E & R2 & C).
  unfold exec, Pro.dens_step, Trace.seq, act, try_act. pro_fields.
  rewrite E. cbn [option_map fst]. pro_fields.
  eexists. split; [reflexivity |]. pro_fields.
  assert (Ry2 : rows (copy_into
                        (copy_into (fill (Pro.dens0 s) 0)
                           (Pro.add_source (Pro.dens s) (Pro.dens0 s) dt)) x2)
                = (n + 2)%nat)
    by (rewrite rows_copy_into; exact Ry1).
  split.
  - repeat split; try assumption. rewrite pro_advect_rows. exact R2.
  - intros i j Hi Hj.
    assert (E1 : get (Pro.add_source (Pro.dens s) (Pro.dens0 s) dt) i j
                 = get (Pro.dens s) i j + dt * get (Pro.dens0 s) i j).
    { unfold Pro.add_source. rewrite get_assign, Hd. settle_tests. reflexivity. }
    assert (Ey1 : get (copy_into (fill (Pro.dens0 s) 0)
                         (Pro.add_source (Pro.dens s) (Pro.dens0 s) dt)) i j
                  = get (Pro.add_source (Pro.dens s) (Pro.dens0 s) dt) i j).
    { rewrite get_copy_into, rows_fill, Hd0. settle_tests. reflexivity. }
    pose proof (C i j Hi Hj) as E2.
    assert (Ey2 : get (copy_into
                         (copy_into (fill (Pro.dens0 s) 0)
                            (Pro.add_source (Pro.dens s) (Pro.dens0 s) dt)) x2) i j
                  = get x2 i j).
    { rewrite get_copy_into, Ry1. settle_tests. reflexivity. }
    split.
    + rewrite (pro_advect_still n x2 _ (Pro.u s) (Pro.v s) i j R2 Ry2 Hu Hv Hi Hj
                 (Pro.params s) 0 dt HN).
      rewrite Ey2, E2, Ey1, E1. reflexivity.
    + rewrite Ey2, E2, Ey1, E1. reflexivity.
Qed.



(** ** Projection of a divergence-free field *)

Lemma is_zero_of_within (n : nat) (x : Field) :
  has_shape (n + 2) x = true -> within 0 0 n x -> is_zero x.
Proof.
  intros Hs Hw i j.
  destruct (Nat.le_gt_cases i (n + 1)) as [Hi | Hi];
    [destruct (Nat.le_gt_cases j (n + 1)) as [Hj | Hj] |].
  - destruct (Hw i j Hi Hj) as [A B]. apply Qle_antisym; assumption.
  - rewrite (get_outside (n + 2) x i j Hs) by lia. reflexivity.
  - rewrite (get_outside (n + 2) x i j Hs) by lia. reflexivity.
Qed.

(** The boundary rule applied to an array whose interior is zero gives
    the zero array. *)
Lemma bnd_of_zero_interior (n : nat) (b : Z) (y : Field) :
  rows y = (n + 2)%nat -> (1 <= n)%nat ->
  (forall i j, (1 <= i <= n)%nat -> (1 <= j <= n)%nat -> get y i j == 0) ->
  is_zero (Thinking.set_bnd b y).
Proof.
  intros Hr Hn Hin. apply (is_zero_of_within n).
  - rewrite <- Hr. apply thinking_set_bnd_shape.
  - apply bnd_of_interior_within; try assumption.
    + apply Qle_refl.
    + right. reflexivity.
    + intros i j Hi Hj. rewrite (Hin i j Hi Hj). split; apply Qle_refl.
Qed.

Lemma base_pressure_zero (div p : Field) (k : nat) :
  is_zero div -> is_zero p ->
  is_zero (repeat_n k (Base.pressure_sweep div) p).
Proof.
  intros Hd Hp. apply repeat_n_inv; [| exact Hp].
  intros y Hy. unfold Base.pressure_sweep. cbv zeta.
  apply base_set_bnd_zero, is_zero_set_block; [exact Hy |].
  intros i j. zero_cells. reflexivity.
Qed.

Section DivergenceFree.

Variable n : nat.
Variables u v p div : Field.
Hypothesis Hn : (1 <= n)%nat.
Hypothesis Hu : rows u = (n + 2)%nat.
Hypothesis Hv : rows v = (n + 2)%nat.
Hypothesis Hdiv : rows div = (n + 2)%nat.
Hypothesis Hfree : divergence_free n u v.

Lemma pro_project_fixed (pr : Pro.Params) :
  Pro.N pr = n -> projection_fixed n u v (Pro.project pr u v p div).
Proof.
  intros Hpr. unfold Pro.project, projection_fixed. cbv zeta.
  rewrite Hu, Hv, Hdiv.
  replace (n + 2 - 1)%nat with (n + 1)%nat by lia.
  set (div1 := set_block div 1 (n + 1) (fun i j =>
         - 0.5 * (get u (i + 1) j - get u (i - 1) j +
                  get v i (j + 1) - get v i (j - 1)) / Qn (Pro.N pr))).
  assert (Rd1 : rows div1 = (n + 2)%nat) by (unfold div1; rewrite rows_set_block; exact Hdiv).
  assert (Zd : is_zero (Pro.set_bnd pr 0 div1)).
  { rewrite (pro_set_bnd_eq n 0 div1 Rd1 pr Hpr).
    apply (bnd_of_zero_interior n); try assumption.
    intros i j Hi Hj. unfold div1.
    rewrite get_set_block, Hdiv. unfold in_slice. settle_tests.
    rewrite (Hfree i j Hi Hj). unfold Qdiv. ring. }
  set (div2 := Pro.set_bnd pr 0 div1) in *.
  assert (Zp : is_zero (repeat_n (Pro.iters pr) (Pro.pressure_sweep pr div2)
                          (Pro.set_bnd pr 0 (fill p 0)))).
  { apply pro_pressure_zero; [exact Zd |]. apply pro_set_bnd_zero, is_zero_fill. }
  set (p3 := repeat_n (Pro.iters pr) (Pro.pressure_sweep pr div2)
               (Pro.set_bnd pr 0 (fill p 0))) in *.
  split; [| split; assumption].
  intros i j Hi Hj.
  rewrite (pro_set_bnd_eq n 1), (pro_set_bnd_eq n 2)
    by (try rewrite rows_set_block; assumption).
  rewrite !(thinking_set_bnd_interior n) by (try rewrite rows_set_block; assumption).
  rewrite !get_set_block, Hu, Hv. unfold in_slice. settle_tests.
  zero_cells. split; ring.
Qed.

Lemma base_project_fixed (ITER : nat) :
  projection_fixed n u v (Base.project n ITER u v p div).
Proof.
  unfold Base.project, projection_fixed. cbv zeta.
  rewrite Hu, Hv, Hdiv.
  replace (n + 2 - 1)%nat with (n + 1)%nat by lia.
  set (div1 := set_block div 1 (n + 1) (fun i j =>
         - 0.5 * (get u (i + 1) j - get u (i - 1) j +
                  get v i (j + 1) - get v i (j - 1)) / Qn n)).
  assert (Rd1 : rows div1 = (n + 2)%nat) by (unfold div1; rewrite rows_set_block; exact Hdiv).
  assert (Zd : is_zero (Base.set_bnd 0 div1)).
  { rewrite (base_set_bnd_eq n 0 div1 Rd1).
    apply (bnd_of_zero_interior n); try assumption.
    intros i j Hi Hj. unfold div1.
    rewrite get_set_block, Hdiv. unfold in_slice. settle_tests.
    rewrite (Hfree i j Hi Hj). unfold Qdiv. ring. }
  set (div2 := Base.set_bnd 0 div1) in *.
  assert (Zp : is_zero (repeat_n ITER (Base.pressure_sweep div2)
                          (Base.set_bnd 0 (fill p 0)))).
  { apply base_pressure_zero; [exact Zd |]. apply base_set_bnd_zero, is_zero_fill. }
  set (p3 := repeat_n ITER (Base.pressure_sweep div2)
               (Base.set_bnd 0 (fill p 0))) in *.
  split; [| split; assumption].
  intros i j Hi Hj.
  repeat match goal with
  | |- context [Base.set_bnd ?k (set_block ?a ?l ?h ?f)] =>
      rewrite (base_set_bnd_eq n k (set_block a l h f))
        by (rewrite rows_set_block; assumption)
  end.
  rewrite !(thinking_set_bnd_interior n) by (try rewrite rows_set_block; assumption).
  rewrite !get_set_block, Hu, Hv. unfold in_slice. settle_tests.
  zero_cells. split; ring.
Qed.

Lemma thinking_project_fixed :
  exists res, Thinking.project u v p div = Some res /\ projection_fixed n u v res.
Proof.
  unfold Thinking.project. rewrite (thinking_dimN n u Hu). cbv zeta.
  replace (n =? 0)%nat with false by (symmetry; apply Nat.eqb_neq; lia).
  rewrite thinking_pressure_some.
  eexists. split; [reflexivity |]. unfold projection_fixed.
  set (div1 := set_block div 1 (n + 1) (fun i j =>
         - 0.5 * (1 / Qn n) * (get u (i + 1) j - get u (i - 1) j +
                               get v i (j + 1) - get v i (j - 1)))).
  assert (Rd1 : rows div1 = (n + 2)%nat) by (unfold div1; rewrite rows_set_block; exact Hdiv).
  assert (Zd : is_zero (Thinking.set_bnd 0 div1)).
  { apply (bnd_of_zero_interior n); try assumption.
    intros i j Hi Hj. unfold div1.
    rewrite get_set_block, Hdiv. unfold in_slice. settle_tests.
    rewrite (Hfree i j Hi Hj). ring. }
  set (div2 := Thinking.set_bnd 0 div1) in *.
  assert (Zp : is_zero (repeat_n 20 (Thinking.lin_sweep 0 1 (1 / 4) div2)
                          (Thinking.set_bnd 0 (fill p 0)))).
  { apply thinking_relax_zero; [exact Zd |].
    apply thinking_set_bnd_zero, is_zero_fill. }
  set (p3 := repeat_n 20 (Thinking.lin_sweep 0 1 (1 / 4) div2)
               (Thinking.set_bnd 0 (fill p 0))) in *.
  split; [| split; assumption].
  intros i j Hi Hj.
  rewrite !(thinking_set_bnd_interior n) by (try rewrite rows_set_block; assumption).
  rewrite !get_set_block, Hu, Hv. unfold in_slice. settle_tests.
  zero_cells. unfold Qdiv. split; ring.
Qed.

End DivergenceFree.



(** ** The all-zero state of the base variant *)

Lemma base_add_source_zero (DT : Q) (x s : Field) :
  is_zero x -> is_zero s -> is_zero (Base.add_source DT x s).
Proof.
  intros Hx Hs. unfold Base.add_source. apply is_zero_assign; [exact Hx |].
  intros i j. rewrite (Hx i j), (Hs i j). ring.
Qed.

(** [diffuse] has a result when [DT * diff] is not negative, and it
    maps all-zero arrays to an all-zero array. *)
Lemma base_diffuse_returns N DT ITER b x x0 diff :
  0 <= DT * diff ->
  exists r, Base.diffuse N DT ITER b x x0 diff = Some r /\
            (is_zero x0 -> is_zero x -> is_zero r).
Proof.
  intros Hd. unfold Base.diffuse. cbv zeta.
  apply (repeat_opt_inv Field (fun y => is_zero x0 -> is_zero x -> is_zero y)).
  - intros y Hy. unfold Base.diffuse_sweep. cbv zeta.
    rewrite (denominator_positive _ (weight_nonneg DT diff N Hd)). cbn [andb].
    eexists. split; [reflexivity |]. intros H0 Hx.
    apply base_set_bnd_zero, is_zero_set_block; [apply Hy; assumption |].
    intros i j. pose proof (Hy H0 Hx) as Zy. zero_cells. unfold Qdiv. ring.
  - intros _ Hx. exact Hx.
Qed.

Lemma base_advect_zero N DT b d d0 u v :
  is_zero d -> is_zero d0 -> is_zero (Base.advect N DT b d d0 u v).
Proof.
  intros Hd H0. unfold Base.advect. cbv zeta.
  apply base_set_bnd_zero, is_zero_set_block; [exact Hd |].
  intros i j. apply bilinear_zero. exact H0.
Qed.

Lemma base_project_zero N ITER (u v p div : Field) :
  is_zero u -> is_zero v -> is_zero p -> is_zero div ->
  let '(u', v', p', div') := Base.project N ITER u v p div in
  is_zero u' /\ is_zero v' /\ is_zero p' /\ is_zero div'.
Proof.
  intros Hu Hv Hp Hd. unfold Base.project. cbv zeta.
  assert (Zd : is_zero (Base.set_bnd 0
            (set_block div 1 (rows div - 1) (fun i j =>
               - 0.5 * (get u (i + 1) j - get u (i - 1) j +
                        get v i (j + 1) - get v i (j - 1)) / Qn N)))).
  { apply base_set_bnd_zero, is_zero_set_block; [exact Hd |].
    intros i j. zero_cells. unfold Qdiv. ring. }
  assert (Zp : is_zero (repeat_n ITER
            (Base.pressure_sweep
               (Base.set_bnd 0
                  (set_block div 1 (rows div - 1) (fun i j =>
                     - 0.5 * (get u (i + 1) j - get u (i - 1) j +
                              get v i (j + 1) - get v i (j - 1)) / Qn N))))
            (Base.set_bnd 0 (fill p 0)))).
  { apply base_pressure_zero; [exact Zd |]. apply base_set_bnd_zero, is_zero_fill. }
  repeat split; try assumption.
  - apply base_set_bnd_zero, is_zero_set_block; [exact Hu |].
    intros i j. zero_cells. ring.
  - apply base_set_bnd_zero, is_zero_set_block; [exact Hv |].
    intros i j. zero_cells. ring.
Qed.

Lemma base_vel_step_zero N DT ITER VISC (u v u0 v0 : Field) :
  0 <= DT * VISC ->
  is_zero u -> is_zero v -> is_zero u0 -> is_zero v0 ->
  exists u' v' u0' v0',
    Base.vel_step N DT ITER VISC u v u0 v0 = Some (u', v', u0', v0') /\
    is_zero u' /\ is_zero v' /\ is_zero u0' /\ is_zero v0'.
Proof.
  intros Hd Hu Hv Hu0 Hv0. unfold Base.vel_step.
  pose proof (base_add_source_zero DT u u0 Hu Hu0) as A.
  pose proof (base_add_source_zero DT v v0 Hv Hv0) as B.
  destruct (base_diffuse_returns N DT ITER 1 u0 (Base.add_source DT u u0) VISC Hd)
    as (u1 & E1 & Z1).
  destruct (base_diffuse_returns N DT ITER 2 v0 (Base.add_source DT v v0) VISC Hd)
    as (v1 & E2 & Z2).
  rewrite E1, E2.
  pose proof (Z1 A Hu0) as C. pose proof (Z2 B Hv0) as D.
  pose proof (base_project_zero N ITER _ _ _ _ C D A B) as P1.
  destruct (Base.project N ITER u1 v1
              (Base.add_source DT u u0) (Base.add_source DT v v0))
    as [[[u2 v2] p2] d2].
  destruct P1 as (Zu2 & Zv2 & Zp2 & Zd2).
  pose proof (base_project_zero N ITER
                (Base.advect N DT 1 p2 u2 u2 v2) (Base.advect N DT 2 d2 v2 u2 v2)
                u2 v2) as P2.
  destruct (Base.project N ITER
              (Base.advect N DT 1 p2 u2 u2 v2) (Base.advect N DT 2 d2 v2 u2 v2)
              u2 v2) as [[[u3 v3] p3] d3].
  do 4 eexists. split; [reflexivity |].
  apply P2; try assumption; apply base_advect_zero; assumption.
Qed.

Lemma base_dens_step_zero N DT ITER DIFF (x x0 u v : Field) :
  0 <= DT * DIFF ->
  is_zero x -> is_zero x0 ->
  exists x' x0',
    Base.dens_step N DT ITER DIFF x x0 u v = Some (x', x0') /\
    is_zero x' /\ is_zero x0'.
Proof.
  intros Hd Hx Hx0. unfold Base.dens_step.
  pose proof (base_add_source_zero DT x x0 Hx Hx0) as A.
  destruct (base_diffuse_returns N DT ITER 0 x0 (Base.add_source DT x x0) DIFF Hd)
    as (x1 & E1 & Z1).
  rewrite E1. do 2 eexists. split; [reflexivity |].
  pose proof (Z1 A Hx0) as B.
  split; [apply base_advect_zero; assumption | exact B].
Qed.

Lemma base_frame_zero N DT ITER DIFF VISC st :
  0 <= DT * VISC -> 0 <= DT * DIFF ->
  base_all_zero st ->
  exists st', Base.frame N DT ITER DIFF VISC st = Some st' /\ base_all_zero st'.
Proof.
  intros Hv Hd.
  destruct st as [[[[[u v] u0] v0] d] d0].
  intros (Hu & Hv' & Hu0 & Hv0 & Hdz & Hd0). unfold Base.frame.
  destruct (base_vel_step_zero N DT ITER VISC u v u0 v0 Hv Hu Hv' Hu0 Hv0)
    as (u1 & v1 & p1 & q1 & E & Zu & Zv & _ & _).
  rewrite E.
  destruct (base_dens_step_zero N DT ITER DIFF d d0 u1 v1 Hd Hdz Hd0)
    as (d1 & d2 & E' & Zd & _).
  rewrite E'. eexists. split; [reflexivity |].
  unfold base_all_zero. repeat split; try assumption; apply is_zero_fill.
Qed.

(** X9.  The all-zero state is a fixed point of the base variant: from
    six all-zero [(N+2)] by [(N+2)] arrays, any number of passes of the
    main loop with no mouse button pressed (velocity step, density
    step, zeroing of the source buffers) leaves every cell of every
    array zero, when [DT] does not have the opposite sign of [VISC] or
    of [DIFF] (every diffusion then divides by [1 + 4 * a >= 1]). *)
Theorem base_zero_state_is_fixed_point
    (N ITER : nat) (DT DIFF VISC : Q) (k : nat)
    (st : Field * Field * Field * Field * Field * Field) :
  base_well_formed N st = true ->
  base_all_zero st ->
  0 <= DT * VISC -> 0 <= DT * DIFF ->
  exists st',
    repeat_opt k (Base.frame N DT ITER DIFF VISC) st = Some st' /\
    base_all_zero st'.
Proof.
  intros _ Hz Hv Hd. apply repeat_opt_inv; [| exact Hz].
  intros y Hy. apply base_frame_zero; assumption.
Qed.

Lemma base_zero_state_is_fixed_point_witness :
  exists st',
    repeat_opt 3 (Base.frame 128 (1 # 10) 20 (1 # 10000) (1 # 10000))
      (zeros 130, zeros 130, zeros 130, zeros 130, zeros 130, zeros 130)
      = Some st' /\
    base_all_zero st'.
Proof.
  apply (base_zero_state_is_fixed_point 128 20 (1 # 10) (1 # 10000) (1 # 10000) 3).
  - vm_compute. reflexivity.
  - unfold base_all_zero. repeat split; apply is_zero_zeros.
  - apply Qle_bool_imp_le. reflexivity.
  - apply Qle_bool_imp_le. reflexivity.
Defined.

(** ** The footprint of the brushes *)

Lemma brush_hits_disk (n ci cj r : Z) (a b : nat) :
  (0 <= r)%Z -> brush_hits n ci cj r a b = disk_hits n ci cj r a b.
Proof.
  intros Hr. unfold brush_hits, disk_hits. cbv zeta.
  apply eq_true_iff_eq.
  rewrite !andb_true_iff, !Z.leb_le, !Z.ltb_lt, !Z.pow_2_r.
  remember (Z.of_nat a - ci)%Z as p eqn:Ep.
  remember (Z.of_nat b - cj)%Z as q eqn:Eq.
  split.
  - intros [[H1 H2] [[H3 H4] H5]]. repeat split; try lia; exact H5.
  - intros [[[[H1 H2] H3] H4] H5].
    assert (Hp : (- r <= p <= r)%Z) by nia.
    assert (Hq : (- r <= q <= r)%Z) by nia.
    repeat split; try lia; exact H5.
Qed.

Lemma disk_hits_interior (n ci cj r : Z) (a b : nat) :
  disk_hits n ci cj r a b = true ->
  (1 <= Z.of_nat a <= n)%Z /\ (1 <= Z.of_nat b <= n)%Z.
Proof.
  unfold disk_hits. cbv zeta.
  rewrite !andb_true_iff, !Z.leb_le. lia.
Qed.

(** A loop over a pair of arrays whose body updates each component on
    its own is the pair of the two loops. *)
Lemma fold_left_pair (A B K : Type) (h : A * B -> K -> A * B)
    (f : A -> K -> A) (g : B -> K -> B) (l : list K) (ab : A * B) :
  (forall ab k, h ab k = (f (fst ab) k, g (snd ab) k)) ->
  fold_left h l ab = (fold_left f l (fst ab), fold_left g l (snd ab)).
Proof.
  intros H. revert ab. induction l as [| k l IH]; intros ab; simpl.
  - destruct ab; reflexivity.
  - rewrite IH, H. reflexivity.
Qed.

Lemma brush2_split (n : Z) (uv : Field * Field) (i j : Z) (vx vy : Q) (r : Z) :
  Pro.brush2 n uv i j vx vy r =
  (Pro.brush n (fst uv) i j vx r, Pro.brush n (snd uv) i j vy r).
Proof.
  unfold Pro.brush2, Pro.brush.
  apply (fold_left_pair _ _ _ _
    (fun d ii => fold_left (fun d jj =>
        if ((ii - i) ^ 2 + (jj - j) ^ 2 <=? r * r)%Z
        then Pro.bump d ii jj vx else d)
      (Pro.zrange (Z.max 1 (j - r)) (Z.min n (j + r) + 1)) d)
    (fun d ii => fold_left (fun d jj =>
        if ((ii - i) ^ 2 + (jj - j) ^ 2 <=? r * r)%Z
        then Pro.bump d ii jj vy else d)
      (Pro.zrange (Z.max 1 (j - r)) (Z.min n (j + r) + 1)) d)).
  intros ab ii.
  apply (fold_left_pair _ _ _ _
    (fun d jj => if ((ii - i) ^ 2 + (jj - j) ^ 2 <=? r * r)%Z
                 then Pro.bump d ii jj vx else d)
    (fun d jj => if ((ii - i) ^ 2 + (jj - j) ^ 2 <=? r * r)%Z
                 then Pro.bump d ii jj vy else d)).
  intros [x y] jj. cbn [fst snd].
  destruct ((ii - i) ^ 2 + (jj - j) ^ 2 <=? r * r)%Z; reflexivity.
Qed.

(** X10.  [Fluid.add_density_brush] with any radius adds [amount],
    once, to exactly the interior cells within distance
    [max(1, radius)] of the clamped centre: the disk is cropped to
    [1..N] x [1..N], so no ghost cell of [dens0] is ever written, and no
    other field changes. *)
Theorem density_brush_footprint
    (s : Pro.Fluid) (n : nat) (i j radius : Z) (amount : Q) :
  Pro.N (Pro.params s) = n ->
  has_shape (n + 2) (Pro.dens0 s) = true ->
  let s' := Pro.add_density_brush s i j amount radius in
  let ci := Pro.clamp i 1 (Z.of_nat n) in
  let cj := Pro.clamp j 1 (Z.of_nat n) in
  pro_others_kept s s' /\
  (forall a b, (a <= n + 1)%nat -> (b <= n + 1)%nat ->
     get (Pro.dens0 s') a b =
     if disk_hits (Z.of_nat n) ci cj (Z.max 1 radius) a b
     then get (Pro.dens0 s) a b + amount
     else get (Pro.dens0 s) a b) /\
  (forall a b, (a <= n + 1)%nat -> (b <= n + 1)%nat ->
     a = 0%nat \/ a = (n + 1)%nat \/ b = 0%nat \/ b = (n + 1)%nat ->
     get (Pro.dens0 s') a b = get (Pro.dens0 s) a b).
Proof.
  intros HN Hd. apply has_shape_rows in Hd. cbv zeta.
  assert (Hcell : forall a b, (a <= n + 1)%nat -> (b <= n + 1)%nat ->
     get (Pro.dens0 (Pro.add_density_brush s i j amount radius)) a b =
     if disk_hits (Z.of_nat n) (Pro.clamp i 1 (Z.of_nat n))
          (Pro.clamp j 1 (Z.of_nat n)) (Z.max 1 radius) a b
     then get (Pro.dens0 s) a b + amount
     else get (Pro.dens0 s) a b).
  { intros a b Ha Hb. unfold Pro.add_density_brush. cbv zeta. simpl Pro.dens0.
    rewrite HN. rewrite brush_get by assumption.
    rewrite brush_hits_disk by lia. reflexivity. }
  split; [| split].
  - unfold pro_others_kept. simpl. repeat split.
  - exact Hcell.
  - intros a b Ha Hb Hedge. rewrite Hcell by assumption.
    destruct (disk_hits _ _ _ _ a b) eqn:E; [| reflexivity].
    apply disk_hits_interior in E. lia.
Qed.

Lemma density_brush_footprint_witness :
  let s' := Pro.add_density_brush sample_fluid 2 7 9 2 in
  pro_others_kept sample_fluid s' /\
  (forall a b, (a <= 4)%nat -> (b <= 4)%nat ->
     get (Pro.dens0 s') a b =
     if disk_hits 3 2 3 2 a b
     then get (Pro.dens0 sample_fluid) a b + 9
     else get (Pro.dens0 sample_fluid) a b) /\
  (forall a b, (a <= 4)%nat -> (b <= 4)%nat ->
     a = 0%nat \/ a = 4%nat \/ b = 0%nat \/ b = 4%nat ->
     get (Pro.dens0 s') a b = get (Pro.dens0 sample_fluid) a b).
Proof.
  apply (density_brush_footprint sample_fluid 3 2 7 2 9); reflexivity.
Defined.

(** X11.  [Fluid.add_velocity_brush] adds [vx] to [u0] and [vy] to
    [v0] on the same footprint as the density brush: the interior cells
    within distance [max(1, radius)] of the clamped centre.  No other
    cell of [u0] or [v0] and no other field changes. *)
Theorem velocity_brush_footprint
    (s : Pro.Fluid) (n : nat) (i j radius : Z) (vx vy : Q) :
  Pro.N (Pro.params s) = n ->
  has_shape (n + 2) (Pro.u0 s) = true ->
  has_shape (n + 2) (Pro.v0 s) = true ->
  let s' := Pro.add_velocity_brush s i j vx vy radius in
  let ci := Pro.clamp i 1 (Z.of_nat n) in
  let cj := Pro.clamp j 1 (Z.of_nat n) in
  (Pro.params s' = Pro.params s /\ Pro.u s' = Pro.u s /\ Pro.v s' = Pro.v s /\
   Pro.dens s' = Pro.dens s /\ Pro.dens0 s' = Pro.dens0 s /\
   Pro.p s' = Pro.p s /\ Pro.div s' = Pro.div s) /\
  forall a b, (a <= n + 1)%nat -> (b <= n + 1)%nat ->
    get (Pro.u0 s') a b =
      (if disk_hits (Z.of_nat n) ci cj (Z.max 1 radius) a b
       then get (Pro.u0 s) a b + vx else get (Pro.u0 s) a b) /\
    get (Pro.v0 s') a b =
      (if disk_hits (Z.of_nat n) ci cj (Z.max 1 radius) a b
       then get (Pro.v0 s) a b + vy else get (Pro.v0 s) a b).
Proof.
  intros HN Hu Hv. apply has_shape_rows in Hu. apply has_shape_rows in Hv.
  cbv zeta. split.
  - simpl. repeat split.
  - intros a b Ha Hb. unfold Pro.add_velocity_brush. cbv zeta.
    rewrite brush2_split. cbn [fst snd]. simpl Pro.u0. simpl Pro.v0.
    rewrite HN. rewrite !brush_get by assumption.
    rewrite brush_hits_disk by lia. split; reflexivity.
Qed.

Lemma velocity_brush_footprint_witness :
  let s' := Pro.add_velocity_brush sample_fluid 2 7 5 (- (4)) 2 in
  (Pro.params s' = Pro.params sample_fluid /\
   Pro.u s' = Pro.u sample_fluid /\ Pro.v s' = Pro.v sample_fluid /\
   Pro.dens s' = Pro.dens sample_fluid /\ Pro.dens0 s' = Pro.dens0 sample_fluid /\
   Pro.p s' = Pro.p sample_fluid /\ Pro.div s' = Pro.div sample_fluid) /\
  forall a b, (a <= 4)%nat -> (b <= 4)%nat ->
    get (Pro.u0 s') a b =
      (if disk_hits 3 2 3 2 a b
       then get (Pro.u0 sample_fluid) a b + 5 else get (Pro.u0 sample_fluid) a b) /\
    get (Pro.v0 s') a b =
      (if disk_hits 3 2 3 2 a b
       then get (Pro.v0 sample_fluid) a b + - (4)
       else get (Pro.v0 sample_fluid) a b).
Proof.
  apply (velocity_brush_footprint sample_fluid 3 2 7 2 5 (- (4))); reflexivity.
Defined.

(** ** The splats of the thinking variant *)

(** The slice [c-rr : c+rr+1] of an axis of length [L] has the
    [2*rr+1] entries of the mask exactly when it lies inside the axis;
    it then starts at [c - rr]. *)
Lemma slice_fits (L : nat) (c rr : Z) :
  (0 <= rr)%Z -> (0 <= c)%Z ->
  let '(a0, a1) := Thinking.py_slice L (c - rr) (c + rr + 1) in
  ((Z.max 0 (a1 - a0) =? Z.max 0 (2 * rr + 1))%Z = fitsb L c rr) /\
  (fitsb L c rr = true -> a0 = (c - rr)%Z).
Proof.
  intros Hrr Hc. unfold Thinking.py_slice, fitsb. cbv zeta.
  split.
  - apply eq_true_iff_eq.
    rewrite andb_true_iff, Z.eqb_eq, Z.leb_le, Z.ltb_lt.
    destruct (Z.ltb_spec (c - rr) 0); destruct (Z.ltb_spec (c + rr + 1) 0); lia.
  - rewrite andb_true_iff, Z.leb_le, Z.ltb_lt. intros [H1 H2].
    destruct (Z.ltb_spec (c - rr) 0); lia.
Qed.

Lemma splat_raises (arr : Field) (cx cy rr : Z) (amount : Q) :
  (0 <= rr)%Z -> (0 <= cx)%Z -> (0 <= cy)%Z ->
  fitsb (rows arr) cx rr && fitsb (rows arr) cy rr = false ->
  Thinking.splat arr cx cy rr amount = None.
Proof.
  intros Hrr Hx Hy Hf. unfold Thinking.splat. cbv zeta.
  pose proof (slice_fits (rows arr) cx rr Hrr Hx) as Sx.
  pose proof (slice_fits (rows arr) cy rr Hrr Hy) as Sy.
  destruct (Thinking.py_slice (rows arr) (cx - rr) (cx + rr + 1)) as [a0 a1].
  destruct (Thinking.py_slice (rows arr) (cy - rr) (cy + rr + 1)) as [b0 b1].
  destruct Sx as [Sx _]. destruct Sy as [Sy _].
  rewrite Sx, Sy, Hf. reflexivity.
Qed.

Lemma splat_returns (arr : Field) (cx cy rr : Z) (amount : Q) :
  (0 <= rr)%Z -> (0 <= cx)%Z -> (0 <= cy)%Z ->
  fitsb (rows arr) cx rr && fitsb (rows arr) cy rr = true ->
  exists arr',
    Thinking.splat arr cx cy rr amount = Some arr' /\
    rows arr' = rows arr /\
    forall a b, (a < rows arr)%nat -> (b < rows arr)%nat ->
      get arr' a b =
      if splat_hits cx cy rr a b then get arr a b + amount else get arr a b.
Proof.
  intros Hrr Hx Hy Hf. unfold Thinking.splat. cbv zeta.
  pose proof (slice_fits (rows arr) cx rr Hrr Hx) as Sx.
  pose proof (slice_fits (rows arr) cy rr Hrr Hy) as Sy.
  destruct (Thinking.py_slice (rows arr) (cx - rr) (cx + rr + 1)) as [a0 a1].
  destruct (Thinking.py_slice (rows arr) (cy - rr) (cy + rr + 1)) as [b0 b1].
  destruct Sx as [Sx Ax]. destruct Sy as [Sy Ay].
  rewrite Sx, Sy, Hf.
  apply andb_true_iff in Hf. destruct Hf as [Fx Fy].
  rewrite (Ax Fx), (Ay Fy).
  eexists. split; [reflexivity |]. split; [apply rows_assign |].
  intros a b Ha Hb. rewrite get_assign. settle_tests.
  match goal with
  | |- (if ?m then _ else _) = _ =>
      replace m with (splat_hits cx cy rr a b); [reflexivity |]
  end.
  unfold splat_hits. apply eq_true_iff_eq.
  rewrite !andb_true_iff, !Z.leb_le, !Z.ltb_lt, !Z.pow_2_r.
  remember (Z.of_nat a - cx)%Z as p eqn:Ep.
  remember (Z.of_nat b - cy)%Z as q eqn:Eq.
  replace (Z.of_nat a - (cx - rr) - rr)%Z with p by lia.
  replace (Z.of_nat b - (cy - rr) - rr)%Z with q by lia.
  split.
  - intros H.
    assert (Hp : (- rr <= p <= rr)%Z) by nia.
    assert (Hq : (- rr <= q <= rr)%Z) by nia.
    repeat split; try lia.
  - intros [_ H]. lia.
Qed.

Lemma centre_in_grid (n : nat) (x : Q) :
  (1 <= n)%nat -> (1 <= Qtrunc (clip x 1 (Qn n)) <= Z.of_nat n)%Z.
Proof.
  intros Hn.
  assert (H1n : 1 <= Qn n).
  { unfold Qn. change 1 with (inject_Z 1). rewrite <- Zle_Qle. lia. }
  pose proof (clip_bounds x 1 (Qn n) H1n) as [Hlo Hhi].
  rewrite Qtrunc_nonneg by (apply Qle_trans with 1; [discriminate | exact Hlo]).
  split.
  - change 1%Z with (Qfloor 1). apply Qfloor_resp_le. exact Hlo.
  - rewrite <- (Qfloor_Z (Z.of_nat n)). apply Qfloor_resp_le. exact Hhi.
Qed.

(** X12.  [Fluid2D.add_density_splat] with a radius [rr >= 0] returns
    exactly when the [(2*rr+1)]-square around the clipped centre lies
    inside the [(N+2)] by [(N+2)] array, and raises otherwise (the
    slice is then shorter than the mask).  When it returns, it has added
    [amount] to every cell within distance [rr] of the centre and
    changed nothing else; the disk is not cropped to the interior, so
    with the centre at distance [rr] from the edge the ghost cell
    [(0, cy)] is written. *)
Theorem density_splat_footprint
    (s : Thinking.Fluid2D) (x y amount : Q) (radius : Z) :
  has_shape (Thinking.N s + 2) (Thinking.d0 s) = true ->
  (1 <= Thinking.N s)%nat -> (0 <= radius)%Z ->
  let n := Thinking.N s in
  let cx := Qtrunc (clip x 1 (Qn n)) in
  let cy := Qtrunc (clip y 1 (Qn n)) in
  let fits := fitsb (n + 2) cx radius && fitsb (n + 2) cy radius in
  (fits = false -> Thinking.add_density_splat s x y amount radius = None) /\
  (fits = true ->
   exists s',
     Thinking.add_density_splat s x y amount radius = Some s' /\
     thinking_others_kept s s' /\
     (forall a b, (a <= n + 1)%nat -> (b <= n + 1)%nat ->
        get (Thinking.d0 s') a b =
        if splat_hits cx cy radius a b
        then get (Thinking.d0 s) a b + amount
        else get (Thinking.d0 s) a b) /\
     (cx = radius ->
        get (Thinking.d0 s') 0 (Z.to_nat cy) =
        get (Thinking.d0 s) 0 (Z.to_nat cy) + amount)).
Proof.
  intros Hd Hn Hr. apply has_shape_rows in Hd. cbv zeta.
  pose proof (centre_in_grid (Thinking.N s) x Hn) as Bx.
  pose proof (centre_in_grid (Thinking.N s) y Hn) as By.
  split.
  - intros Hf. unfold Thinking.add_density_splat. cbv zeta.
    rewrite splat_raises; [reflexivity | lia | lia | lia |].
    rewrite Hd. exact Hf.
  - intros Hf. unfold Thinking.add_density_splat. cbv zeta.
    destruct (splat_returns (Thinking.d0 s)
                (Qtrunc (clip x 1 (Qn (Thinking.N s))))
                (Qtrunc (clip y 1 (Qn (Thinking.N s)))) radius amount)
      as (arr' & E & Hrows & Hget); try lia.
    { rewrite Hd. exact Hf. }
    rewrite E. eexists. split; [reflexivity |].
    assert (Hcell : forall a b,
      (a <= Thinking.N s + 1)%nat -> (b <= Thinking.N s + 1)%nat ->
      get (Thinking.d0 (Thinking.with_d0 s arr')) a b =
      if splat_hits (Qtrunc (clip x 1 (Qn (Thinking.N s))))
           (Qtrunc (clip y 1 (Qn (Thinking.N s)))) radius a b
      then get (Thinking.d0 s) a b + amount else get (Thinking.d0 s) a b).
    { intros a b Ha Hb. simpl. apply Hget; rewrite Hd; lia. }
    split; [| split].
    + unfold thinking_others_kept. simpl. repeat split.
    + exact Hcell.
    + intros Hedge. rewrite Hcell by lia.
      replace (splat_hits _ _ radius 0 _) with true; [reflexivity |].
      symmetry. unfold splat_hits. apply Z.leb_le.
      rewrite Z2Nat.id by lia. rewrite Hedge, !Z.pow_2_r. nia.
Qed.

Lemma density_splat_footprint_witness :
  let s := sample_fluid2d in
  let fits := fitsb 5 1 1 && fitsb 5 3 1 in
  (fits = false -> Thinking.add_density_splat s 1 8 7 1 = None) /\
  (fits = true ->
   exists s',
     Thinking.add_density_splat s 1 8 7 1 = Some s' /\
     thinking_others_kept s s' /\
     (forall a b, (a <= 4)%nat -> (b <= 4)%nat ->
        get (Thinking.d0 s') a b =
        if splat_hits 1 3 1 a b
        then get (Thinking.d0 s) a b + 7
        else get (Thinking.d0 s) a b) /\
     (1%Z = 1%Z ->
        get (Thinking.d0 s') 0 3 = get (Thinking.d0 s) 0 3 + 7)).
Proof.
  apply (density_splat_footprint sample_fluid2d 1 8 7 1);
    [reflexivity | simpl; lia | lia].
Defined.

(** X13.  [Fluid2D.add_velocity_splat] returns under the same
    condition as the density splat and raises otherwise; when it
    returns it has added [strength * vx] to [u0] and [strength * vy] to
    [v0] on the same uncropped disk and changed nothing else. *)
Theorem velocity_splat_footprint
    (s : Thinking.Fluid2D) (x y vx vy strength : Q) (radius : Z) :
  has_shape (Thinking.N s + 2) (Thinking.u0 s) = true ->
  has_shape (Thinking.N s + 2) (Thinking.v0 s) = true ->
  (1 <= Thinking.N s)%nat -> (0 <= radius)%Z ->
  let n := Thinking.N s in
  let cx := Qtrunc (clip x 1 (Qn n)) in
  let cy := Qtrunc (clip y 1 (Qn n)) in
  let fits := fitsb (n + 2) cx radius && fitsb (n + 2) cy radius in
  (fits = false ->
   Thinking.add_velocity_splat s x y vx vy radius strength = None) /\
  (fits = true ->
   exists s',
     Thinking.add_velocity_splat s x y vx vy radius strength = Some s' /\
     (Thinking.u s' = Thinking.u s /\ Thinking.v s' = Thinking.v s /\
      Thinking.d s' = Thinking.d s /\ Thinking.d0 s' = Thinking.d0 s /\
      Thinking.p s' = Thinking.p s /\ Thinking.div s' = Thinking.div s) /\
     forall a b, (a <= n + 1)%nat -> (b <= n + 1)%nat ->
       get (Thinking.u0 s') a b =
         (if splat_hits cx cy radius a b
          then get (Thinking.u0 s) a b + strength * vx
          else get (Thinking.u0 s) a b) /\
       get (Thinking.v0 s') a b =
         (if splat_hits cx cy radius a b
          then get (Thinking.v0 s) a b + strength * vy
          else get (Thinking.v0 s) a b)).
Proof.
  intros Hu Hv Hn Hr. apply has_shape_rows in Hu. apply has_shape_rows in Hv.
  cbv zeta.
  pose proof (centre_in_grid (Thinking.N s) x Hn) as Bx.
  pose proof (centre_in_grid (Thinking.N s) y Hn) as By.
  split.
  - intros Hf. unfold Thinking.add_velocity_splat. cbv zeta.
    rewrite splat_raises; [reflexivity | lia | lia | lia |].
    rewrite Hu. exact Hf.
  - intros Hf. unfold Thinking.add_velocity_splat. cbv zeta.
    destruct (splat_returns (Thinking.u0 s)
                (Qtrunc (clip x 1 (Qn (Thinking.N s))))
                (Qtrunc (clip y 1 (Qn (Thinking.N s)))) radius (strength * vx))
      as (u' & Eu & _ & Gu); try lia.
    { rewrite Hu. exact Hf. }
    destruct (splat_returns (Thinking.v0 s)
                (Qtrunc (clip x 1 (Qn (Thinking.N s))))
                (Qtrunc (clip y 1 (Qn (Thinking.N s)))) radius (strength * vy))
      as (v' & Ev & _ & Gv); try lia.
    { rewrite Hv. exact Hf. }
    rewrite Eu, Ev. eexists. split; [reflexivity |]. split.
    + simpl. repeat split.
    + intros a b Ha Hb. simpl. split.
      * apply Gu; rewrite Hu; lia.
      * apply Gv; rewrite Hv; lia.
Qed.

Lemma velocity_splat_footprint_witness :
  let s := sample_fluid2d in
  let fits := fitsb 5 2 1 && fitsb 5 3 1 in
  (fits = false -> Thinking.add_velocity_splat s 2 8 5 (- (4)) 1 3 = None) /\
  (fits = true ->
   exists s',
     Thinking.add_velocity_splat s 2 8 5 (- (4)) 1 3 = Some s' /\
     (Thinking.u s' = Thinking.u s /\ Thinking.v s' = Thinking.v s /\
      Thinking.d s' = Thinking.d s /\ Thinking.d0 s' = Thinking.d0 s /\
      Thinking.p s' = Thinking.p s /\ Thinking.div s' = Thinking.div s) /\
     forall a b, (a <= 4)%nat -> (b <= 4)%nat ->
       get (Thinking.u0 s') a b =
         (if splat_hits 2 3 1 a b
          then get (Thinking.u0 s) a b + 3 * 5
          else get (Thinking.u0 s) a b) /\
       get (Thinking.v0 s') a b =
         (if splat_hits 2 3 1 a b
          then get (Thinking.v0 s) a b + 3 * - (4)
          else get (Thinking.v0 s) a b)).
Proof.
  apply (velocity_splat_footprint sample_fluid2d 2 8 5 (- (4)) 3 1);
    [reflexivity | reflexivity | simpl; lia | lia].
Defined.

(** ** From the pointer to a cell *)

Lemma inject_pred (k : Z) : inject_Z (k - 1) == inject_Z k - 1.
Proof. unfold Qeq, Qminus, Qplus, Qopp, inject_Z. simpl. lia. Qed.

Lemma data_to_grid_range (n : nat) (q : Q) :
  (1 <= n)%nat -> (1 <= Qtrunc (clip q 0 (Qn n - 1)) + 1 <= Z.of_nat n)%Z.
Proof.
  intros Hn.
  assert (E : Qn n - 1 == inject_Z (Z.of_nat n - 1)).
  { unfold Qn. rewrite inject_pred. reflexivity. }
  assert (H0 : 0 <= Qn n - 1).
  { rewrite E. change 0 with (inject_Z 0). rewrite <- Zle_Qle. lia. }
  pose proof (clip_bounds q 0 (Qn n - 1) H0) as [Hlo Hhi].
  rewrite Qtrunc_nonneg by exact Hlo.
  split.
  - assert (0 <= Qfloor (clip q 0 (Qn n - 1)))%Z; [| lia].
    change 0%Z with (Qfloor 0). apply Qfloor_resp_le. exact Hlo.
  - assert (Qfloor (clip q 0 (Qn n - 1)) <= Z.of_nat n - 1)%Z; [| lia].
    rewrite <- (Qfloor_Z (Z.of_nat n - 1)). apply Qfloor_resp_le.
    rewrite <- E. exact Hhi.
Qed.

Lemma clamp_inside (k lo hi : Z) : (lo <= k <= hi)%Z -> Pro.clamp k lo hi = k.
Proof.
  intros H. unfold Pro.clamp.
  destruct (Z.ltb_spec k lo); [lia |].
  destruct (Z.gtb_spec k hi); lia.
Qed.

(** X14.  [data_to_grid] maps every pointer position inside the axes
    to a pair of interior indices in [1..N], whatever the data
    coordinates, and the clips of the splats leave such a pair
    unchanged; it returns [None] only when a coordinate is missing. *)
Theorem data_to_grid_in_interior (n : nat) (xd yd : Q) :
  (1 <= n)%nat ->
  exists x y,
    Thinking.data_to_grid n (Some xd) (Some yd) = Some (x, y) /\
    (1 <= x <= Z.of_nat n)%Z /\ (1 <= y <= Z.of_nat n)%Z /\
    Qtrunc (clip (inject_Z x) 1 (Qn n)) = x /\
    Qtrunc (clip (inject_Z y) 1 (Qn n)) = y.
Proof.
  intros Hn. unfold Thinking.data_to_grid. cbv zeta.
  pose proof (data_to_grid_range n xd Hn) as Bx.
  pose proof (data_to_grid_range n yd Hn) as By.
  do 2 eexists. split; [reflexivity |].
  split; [exact Bx |]. split; [exact By |].
  rewrite !clip_integer by exact Hn.
  split; apply clamp_inside; assumption.
Qed.

Lemma data_to_grid_in_interior_witness :
  exists x y,
    Thinking.data_to_grid 128 (Some (- (7 # 2))) (Some (1000 # 3)) = Some (x, y) /\
    (1 <= x <= Z.of_nat 128)%Z /\ (1 <= y <= Z.of_nat 128)%Z /\
    Qtrunc (clip (inject_Z x) 1 (Qn 128)) = x /\
    Qtrunc (clip (inject_Z y) 1 (Qn 128)) = y.
Proof.
  apply (data_to_grid_in_interior 128 (- (7 # 2)) (1000 # 3)). lia.
Defined.

(** X15.  A drag near the left edge raises: when the pointer's data
    abscissa is below [radius - 1] (for a radius of at least 2),
    [data_to_grid] returns a cell whose row index is below the radius,
    and [add_density_splat] at that cell does not return. *)
Theorem splat_near_edge_raises
    (s : Thinking.Fluid2D) (xd yd amount : Q) (radius : Z) :
  has_shape (Thinking.N s + 2) (Thinking.d0 s) = true ->
  (1 <= Thinking.N s)%nat -> (2 <= radius)%Z ->
  xd < inject_Z radius - 1 ->
  exists x y,
    Thinking.data_to_grid (Thinking.N s) (Some xd) (Some yd) = Some (x, y) /\
    (1 <= x < radius)%Z /\
    Thinking.add_density_splat s (inject_Z x) (inject_Z y) amount radius = None.
Proof.
  intros Hd Hn Hr Hx. apply has_shape_rows in Hd.
  unfold Thinking.data_to_grid. cbv zeta.
  pose proof (data_to_grid_range (Thinking.N s) xd Hn) as Bx.
  pose proof (data_to_grid_range (Thinking.N s) yd Hn) as By.
  assert (Lx : (Qtrunc (clip xd 0 (Qn (Thinking.N s) - 1)) + 1 < radius)%Z).
  { assert (E : Qn (Thinking.N s) - 1 == inject_Z (Z.of_nat (Thinking.N s) - 1)).
    { unfold Qn. rewrite inject_pred. reflexivity. }
    assert (H0 : 0 <= Qn (Thinking.N s) - 1).
    { rewrite E. change 0 with (inject_Z 0). rewrite <- Zle_Qle. lia. }
    pose proof (clip_bounds xd 0 (Qn (Thinking.N s) - 1) H0) as [Hlo _].
    rewrite Qtrunc_nonneg by exact Hlo.
    assert (Hc : clip xd 0 (Qn (Thinking.N s) - 1) < inject_Z (radius - 1)).
    { unfold clip. apply Qle_lt_trans with (Qmax xd 0); [apply Q.le_min_l |].
      apply Q.max_lub_lt.
      - rewrite inject_pred. exact Hx.
      - change 0 with (inject_Z 0). rewrite <- Zlt_Qlt. lia. }
    assert (Hf : (Qfloor (clip xd 0 (Qn (Thinking.N s) - 1)) < radius - 1)%Z).
    { rewrite Zlt_Qlt. eapply Qle_lt_trans; [apply Qfloor_le | exact Hc]. }
    lia. }
  do 2 eexists. split; [reflexivity |]. split; [lia |].
  unfold Thinking.add_density_splat. cbv zeta.
  rewrite !clip_integer by exact Hn.
  rewrite !clamp_inside by assumption.
  rewrite splat_raises; [reflexivity | lia | lia | lia |].
  rewrite Hd. apply andb_false_iff. left.
  unfold fitsb. apply andb_false_iff. left. apply Z.leb_gt. lia.
Qed.

Lemma splat_near_edge_raises_witness :
  exists x y,
    Thinking.data_to_grid 3 (Some (1 # 2)) (Some 1) = Some (x, y) /\
    (1 <= x < 5)%Z /\
    Thinking.add_density_splat sample_fluid2d (inject_Z x) (inject_Z y) 40 5 = None.
Proof.
  apply (splat_near_edge_raises sample_fluid2d (1 # 2) 1 40 5);
    [reflexivity | simpl; lia | lia | reflexivity].
Defined.

(** X16.  [App.grid_from_screen] maps every pixel of a non-empty
    window to a cell of the interior: for [0 <= x < w] and
    [0 <= y < h] it returns [(row, col)] with both in [1..N], so the
    clamps of the brushes leave the centre where the pointer is. *)
Theorem grid_from_screen_in_interior (n : nat) (w h x y : Z) :
  (1 <= n)%nat -> (0 <= x < w)%Z -> (0 <= y < h)%Z ->
  exists row col,
    Pro.grid_from_screen n w h x y = Some (row, col) /\
    (1 <= row <= Z.of_nat n)%Z /\ (1 <= col <= Z.of_nat n)%Z /\
    Pro.clamp row 1 (Z.of_nat n) = row /\ Pro.clamp col 1 (Z.of_nat n) = col.
Proof.
  intros Hn Hx Hy. unfold Pro.grid_from_screen. cbv zeta.
  replace (w =? 0)%Z with false by (symmetry; apply Z.eqb_neq; lia).
  replace (h =? 0)%Z with false by (symmetry; apply Z.eqb_neq; lia).
  cbn [orb].
  assert (T : forall a c, (0 <= a < c)%Z ->
    Qtrunc (inject_Z a / inject_Z c * Qn n) = (a * Z.of_nat n / c)%Z).
  { intros a c Hac.
    assert (E : inject_Z a / inject_Z c * Qn n == (a * Z.of_nat n) # (Z.to_pos c)).
    { unfold Qn, Qdiv, Qinv, inject_Z, Qmult, Qeq. simpl.
      destruct c as [| c' | c']; try lia. simpl. lia. }
    assert (P : 0 <= inject_Z a / inject_Z c * Qn n).
    { rewrite E. unfold Qle. simpl. nia. }
    rewrite Qtrunc_nonneg by exact P.
    rewrite (Qfloor_comp _ _ E). unfold Qfloor.
    rewrite Z2Pos.id by lia. reflexivity. }
  rewrite (T x w Hx), (T y h Hy).
  assert (B : forall a c, (0 <= a < c)%Z ->
    (1 <= a * Z.of_nat n / c + 1 <= Z.of_nat n)%Z).
  { intros a c Hac. split.
    - assert (0 <= a * Z.of_nat n / c)%Z by (apply Z.div_pos; nia). lia.
    - assert (a * Z.of_nat n / c < Z.of_nat n)%Z
        by (apply Z.div_lt_upper_bound; nia).
      lia. }
  do 2 eexists. split; [reflexivity |].
  pose proof (B x w Hx). pose proof (B y h Hy).
  repeat split; try lia; apply clamp_inside; lia.
Qed.

Lemma grid_from_screen_in_interior_witness :
  exists row col,
    Pro.grid_from_screen 128 900 700 899 0 = Some (row, col) /\
    (1 <= row <= Z.of_nat 128)%Z /\ (1 <= col <= Z.of_nat 128)%Z /\
    Pro.clamp row 1 (Z.of_nat 128) = row /\ Pro.clamp col 1 (Z.of_nat 128) = col.
Proof.
  apply (grid_from_screen_in_interior 128 900 700 899 0); lia.
Defined.


(** ** When a tick of the thinking variant raises *)

Lemma exec_raises (S : Type) (c : Cmd S) (s : S) :
  exec c s = None <-> c s = None.
Proof.
  unfold exec. destruct (c s) as [[s' l] |]; simpl; split; intros H;
    first [reflexivity | discriminate H].
Qed.

(** X17.  On a well-formed object, [Fluid2D.step] raises on the two
    small grids: with [N = 0] the first projection divides by zero,
    and with [N = 1] and vorticity confinement enabled the confinement
    indexes past its 1 by 1 array of curls.  It also raises when
    [1 + 4 * a] is zero in a diffusion, with [a = dt * visc * N * N]
    for the velocity and [a = dt * diff * N * N] for the density: the
    scalar division [1.0 / c] of [lin_solve] then divides by zero.  On
    a grid with at least one interior cell per side (two with vorticity
    confinement), the call returns when the time step does not have
    the opposite sign of a diffusion coefficient. *)
Theorem thinking_step_raises_or_returns
    (sqrt : Q -> Q) (s : Thinking.Fluid2D) :
  thinking_well_formed s = true ->
  (Thinking.N s = 0%nat -> exec (Thinking.step sqrt) s = None) /\
  (Thinking.N s = 1%nat -> Thinking.vorticity s = true ->
   exec (Thinking.step sqrt) s = None) /\
  (denominator (Thinking.dt s) (Thinking.visc s) (Thinking.N s) == 0 \/
   denominator (Thinking.dt s) (Thinking.diff s) (Thinking.N s) == 0 ->
   exec (Thinking.step sqrt) s = None) /\
  ((1 <= Thinking.N s)%nat ->
   (Thinking.vorticity s = true -> (2 <= Thinking.N s)%nat) ->
   thinking_damped s ->
   exists s', exec (Thinking.step sqrt) s = Some s').
Proof.
  intros Hwf.
  assert (Hinv : thinking_inv_of false s s)
    by (apply thinking_inv_here; [exact Hwf | discriminate]).
  split; [| split; [| split]].
  - intros H0. apply exec_raises.
    exact (thinking_step_fails_empty sqrt _ _ _ _ _ _ H0 s Hinv).
  - intros H1 Hv. apply exec_raises.
    exact (thinking_step_fails_single sqrt _ _ _ _ _ _ H1 Hv s Hinv).
  - intros [Hz | Hz]; apply exec_raises; apply Qeq_bool_iff in Hz.
    + exact (thinking_step_fails_viscous sqrt _ _ _ _ _ _ Hz s Hinv).
    + exact (thinking_step_fails_diffusing sqrt _ _ _ _ _ _ Hz s Hinv).
  - intros Hn1 Hn2 Htd.
    destruct (thinking_damped_runs sqrt false s Htd Hn1 Hn2 s Hinv)
      as [s' [E _]].
    exists s'. apply (exec_of_run _ _ _ _ _ E).
Qed.

Lemma thinking_step_raises_or_returns_witness :
  (2%nat = 0%nat -> exec (Thinking.step sqrt_stub) sour_fluid2d = None) /\
  (2%nat = 1%nat -> false = true ->
   exec (Thinking.step sqrt_stub) sour_fluid2d = None) /\
  (denominator (-1) (1 # 16) 2 == 0 \/ denominator (-1) 0 2 == 0 ->
   exec (Thinking.step sqrt_stub) sour_fluid2d = None) /\
  ((1 <= 2)%nat -> (false = true -> (2 <= 2)%nat) ->
   thinking_damped sour_fluid2d ->
   exists s', exec (Thinking.step sqrt_stub) sour_fluid2d = Some s').
Proof.
  apply (thinking_step_raises_or_returns sqrt_stub sour_fluid2d).
  reflexivity.
Defined.

(** ** The density source buffer of the thinking variant after a tick *)

Lemma thinking_diffuse_copies
    (n : nat) (b : Z) (x x0 : Field) (diff dt : Q) :
  rows x = (n + 2)%nat -> diff == 0 ->
  exists r, Thinking.diffuse b x x0 diff dt = Some r /\
            rows r = (n + 2)%nat /\
            forall i j, (1 <= i <= n)%nat -> (1 <= j <= n)%nat ->
              get r i j == get x0 i j.
Proof.
  intros Hs Hdiff.
  assert (Hden : Qeq_bool (denominator dt diff (Thinking.dimN x)) 0 = false).
  { apply denominator_one, zero_weight, Hdiff. }
  destruct (thinking_diffuse_some b x x0 diff dt Hden) as (r & E & Rr & _).
  exists r. split; [exact E |]. split; [congruence |].
  intros i j Hi Hj.
  destruct (thinking_diffuse_copied n b x x0 diff dt i j Hs Hdiff Hi Hj)
    as (r' & E' & Hc & _).
  assert (Er : r' = r) by congruence.
  rewrite <- Er. exact Hc.
Qed.

Section ThinkingAtRest.

Variable sqrt : Q -> Q.
Variable n : nat.
Variable vort : bool.
Variables DT VISC DIFF : Q.
Variables D D0 : Field.
Hypothesis Hn1 : (1 <= n)%nat.
Hypothesis Hn2 : vort = true -> (2 <= n)%nat.
Hypothesis Hvisc : Qeq_bool (denominator DT VISC n) 0 = false.
Hypothesis Hdiff : DIFF == 0.

(** What the velocity half of a tick keeps. *)
Let resting (s : Thinking.Fluid2D) : Prop :=
  (Thinking.vorticity s = vort /\ Thinking.dt s = DT /\
   Thinking.visc s = VISC /\ Thinking.diff s = DIFF) /\
  thinking_at_rest n s /\
  (Thinking.d s = D /\ Thinking.d0 s = D0).

(** What the density half of a tick leaves. *)
Let reinjected (s : Thinking.Fluid2D) : Prop :=
  (Thinking.vorticity s = vort /\ Thinking.dt s = DT /\
   Thinking.visc s = VISC /\ Thinking.diff s = DIFF) /\
  thinking_at_rest n s /\
  forall i j, (1 <= i <= n)%nat -> (1 <= j <= n)%nat ->
    get (Thinking.d s) i j == get D i j + DT * get D0 i j /\
    get (Thinking.d0 s) i j == get D i j + DT * get D0 i j.

Ltac open_rest :=
  let s := fresh "s" in
  intros s [(Hfl & Hdt & Hvi & Hdf)
            [[(Ru & Rv & Ru0 & Rv0 & Rd & Rd0 & Rp & Rdiv)
              (Zu & Zv & Zu0 & Zv0 & Zp & Zdiv)] [Ed Ed0]]].

Ltac rest_act :=
  apply leads_act; open_rest;
  split; [repeat split; assumption |];
  split;
  [ split;
    [ unfold thinking_shaped, Thinking.swap_u, Thinking.swap_v;
      thinking_fields; shape_rw; repeat split; assumption
    | unfold Thinking.swap_u, Thinking.swap_v; thinking_fields;
      repeat split; auto with fluid_zero ]
  | split; assumption ].

(** The diffusion of a velocity component at rest. *)
Ltac rest_diffuse :=
  apply leads_try_act; open_rest;
  match goal with
  | |- exists s', option_map _ (Thinking.diffuse ?b ?x ?x0 ?c ?t) = Some s' /\ _ =>
      let r := fresh "r" in
      destruct (thinking_diffuse_some b x x0 c t) as (r & E & Rr & Zr);
      [ unfold Thinking.dimN;
        match goal with R : rows x = (n + 2)%nat |- _ => rewrite R end;
        replace (n + 2 - 2)%nat with n by lia;
        match goal with
        | Ht : Thinking.dt ?s = DT, Hv : Thinking.visc ?s = VISC |- _ =>
            rewrite Ht, Hv
        end;
        exact Hvisc
      | rewrite E; cbn [option_map]; eexists; split; [reflexivity |] ]
  end;
  split; [repeat split; assumption |];
  split;
  [ split;
    [ unfold thinking_shaped; thinking_fields; repeat split;
      first [assumption | congruence]
    | thinking_fields; repeat split;
      first [ assumption
            | match goal with
              | H : is_zero _ -> is_zero _ -> is_zero ?y |- is_zero ?y =>
                  apply H; assumption
              end ] ]
  | split; assumption ].

Lemma resting_diffuse_u :
  leads _ resting
    (try_act (DiffuseBy 1 Bu0 Bu Cvisc) (fun s =>
       option_map (Thinking.with_u0 s)
         (Thinking.diffuse 1 (Thinking.u0 s) (Thinking.u s)
            (Thinking.visc s) (Thinking.dt s))))
    resting.
Proof. rest_diffuse. Qed.

Lemma resting_diffuse_v :
  leads _ resting
    (try_act (DiffuseBy 2 Bv0 Bv Cvisc) (fun s =>
       option_map (Thinking.with_v0 s)
         (Thinking.diffuse 2 (Thinking.v0 s) (Thinking.v s)
            (Thinking.visc s) (Thinking.dt s))))
    resting.
Proof. rest_diffuse. Qed.

Lemma resting_project :
  leads _ resting
    (try_act (ProjectOn Bu Bv Bp Bdiv) Thinking.do_project) resting.
Proof.
  apply leads_try_act. open_rest.
  destruct (thinking_project_runs (Thinking.u s) (Thinking.v s)
              (Thinking.p s) (Thinking.div s))
    as (u' & v' & p' & div' & E & (Su & Sv & Sp & Sd) & Hzero); [lia |].
  destruct (Hzero Zu Zv Zp Zdiv) as (A & B & C & E').
  unfold Thinking.do_project. rewrite E. eexists. split; [reflexivity |].
  split; [repeat split; assumption |].
  split; [| split; assumption].
  split.
  - unfold thinking_shaped. thinking_fields. repeat split; congruence.
  - thinking_fields. repeat split; assumption.
Qed.

Lemma resting_vorticity :
  leads _ resting
    (fun s => if Thinking.vorticity s
              then try_act (Confinement Bu Bv) (Thinking.do_vorticity sqrt) s
              else skip s)
    resting.
Proof.
  intros s Hs. pose proof Hs as Hkeep. revert s Hs Hkeep. open_rest.
  intros Hkeep.
  destruct (Thinking.vorticity s) eqn:Ev.
  - assert (H2 : (2 <= n)%nat) by (apply Hn2; symmetry; exact Hfl).
    destruct (thinking_vorticity_runs sqrt (Thinking.u s) (Thinking.v s) 0.002)
      as (u' & v' & E & (Su & Sv) & Hzero); [lia |].
    destruct (Hzero Zu Zv) as (A & B).
    unfold try_act, Thinking.do_vorticity. rewrite E.
    do 2 eexists. split; [reflexivity |].
    split; [| split; [| split; assumption]].
    + cbn [Thinking.vorticity Thinking.dt Thinking.visc Thinking.diff
             Thinking.with_u Thinking.with_v].
      rewrite Ev. repeat split; assumption.
    + split.
      * unfold thinking_shaped. thinking_fields. repeat split; congruence.
      * thinking_fields. repeat split; assumption.
  - exists s, []. split; [reflexivity | exact Hkeep].
Qed.

Lemma resting_density :
  leads _ resting
    (Trace.seq (act (AddSource Bd Bd0) (fun s => Thinking.with_d s
        (Thinking.add_source (Thinking.d s) (Thinking.d0 s) (Thinking.dt s))))
     (Trace.seq (act (Fill Bd0)
        (fun s => Thinking.with_d0 s (fill (Thinking.d0 s) 0)))
     (Trace.seq (try_act (DiffuseBy 0 Bd0 Bd Cdiff) (fun s =>
        option_map (Thinking.with_d0 s)
          (Thinking.diffuse 0 (Thinking.d0 s) (Thinking.d s)
             (Thinking.diff s) (Thinking.dt s))))
     (Trace.seq (act (Exchange Bd Bd0) Thinking.swap_d)
     (Trace.seq (act (AdvectBy 0 Bd0 Bd Bu Bv) (fun s => Thinking.with_d0 s
        (Thinking.advect 0 (Thinking.d0 s) (Thinking.d s)
           (Thinking.u s) (Thinking.v s) (Thinking.dt s))))
       (act (Exchange Bd Bd0) Thinking.swap_d))))))
    reinjected.
Proof.
  open_rest.
  set (d1 := Thinking.add_source D D0 DT).
  assert (R1 : rows d1 = (n + 2)%nat)
    by (unfold d1; rewrite thinking_add_source_rows, <- Ed; exact Rd).
  assert (Rz : rows (fill D0 0) = (n + 2)%nat)
    by (rewrite rows_fill, <- Ed0; exact Rd0).
  destruct (thinking_diffuse_copies n 0 (fill D0 0) d1 DIFF DT Rz Hdiff)
    as (dif & E & R2 & E2).
  unfold Trace.seq, act, try_act, Thinking.swap_d.
  cbn [Thinking.u Thinking.v Thinking.u0 Thinking.v0 Thinking.d Thinking.d0
         Thinking.p Thinking.div Thinking.dt Thinking.diff Thinking.visc
         Thinking.vorticity Thinking.with_d Thinking.with_d0].
  rewrite Hdt, Hdf, Ed, Ed0. fold d1. rewrite E. cbn [option_map].
  do 2 eexists. split; [reflexivity |].
  cbn [Thinking.u Thinking.v Thinking.u0 Thinking.v0 Thinking.d Thinking.d0
         Thinking.p Thinking.div Thinking.dt Thinking.diff Thinking.visc
         Thinking.vorticity Thinking.with_d Thinking.with_d0].
  split; [repeat split; assumption |].
  split.
  - split.
    + unfold thinking_shaped. thinking_fields.
      rewrite thinking_advect_rows. repeat split; assumption.
    + thinking_fields. repeat split; assumption.
  - intros i j Hi Hj.
    assert (E1 : get d1 i j = get D i j + DT * get D0 i j).
    { unfold d1, Thinking.add_source. rewrite get_assign.
      rewrite <- Ed, Rd. settle_tests. reflexivity. }
    cbn [Thinking.d Thinking.d0 Thinking.with_d Thinking.with_d0].
    rewrite Hdt.
    split.
    + rewrite (thinking_advect_still n d1 dif (Thinking.u s) (Thinking.v s) i j
                 R1 R2 Zu Zv Hi Hj 0 DT).
      rewrite (E2 i j Hi Hj), E1. reflexivity.
    + rewrite (E2 i j Hi Hj), E1. reflexivity.
Qed.

(** One tick of a fluid at rest without diffusion of the density: the
    call returns, the fluid is still at rest, and both [d] and [d0]
    hold the injected density in the interior. *)
Lemma thinking_tick_at_rest : leads _ resting (Thinking.step sqrt) reinjected.
Proof.
  unfold Thinking.step.
  do 4 (apply (leads_seq _ resting resting); [rest_act |]).
  apply (leads_seq _ resting resting); [apply resting_diffuse_u |].
  apply (leads_seq _ resting resting); [apply resting_diffuse_v |].
  do 2 (apply (leads_seq _ resting resting); [rest_act |]).
  apply (leads_seq _ resting resting); [apply resting_project |].
  do 4 (apply (leads_seq _ resting resting); [rest_act |]).
  apply (leads_seq _ resting resting); [apply resting_vorticity |].
  apply (leads_seq _ resting resting); [apply resting_project |].
  apply resting_density.
Qed.

End ThinkingAtRest.



(** ** Clearing the solver *)

Lemma pro_clear_all_zero (s : Pro.Fluid) : pro_all_zero (Pro.clear s).
Proof. unfold pro_all_zero, Pro.clear. simpl. repeat split; apply is_zero_fill. Qed.

Lemma thinking_reset_all_zero (s : Thinking.Fluid2D) :
  thinking_all_zero (Thinking.reset s).
Proof.
  unfold thinking_all_zero, Thinking.reset. simpl. repeat split; apply is_zero_fill.
Qed.

Lemma thinking_reset_shaped (n : nat) (s : Thinking.Fluid2D) :
  thinking_shaped n s -> thinking_shaped n (Thinking.reset s).
Proof.
  intros (Ru & Rv & Ru0 & Rv0 & Rd & Rd0 & Rp & Rdiv).
  unfold thinking_shaped, Thinking.reset. simpl.
  rewrite !rows_fill. repeat split; assumption.
Qed.


